(** * V2Mackie: a shallow embedding of the Mackie Control codec

    The development follows [src/V2Mackie.cpp] and [src/V2Mackie.h]:
    the address map (namespace [Mackie]), the static encoders
    ([setStrip...], [set...Button]), the decoder ([dispatchPacket],
    [dispatchSystemExclusive]) with the state it mirrors, and the polled
    monitor ([loop]).

    Conventions.
    - Integers of the C++ code are [Z]; where a narrower type can wrap, the
      wrap-around is written out ([wrap8], [wrap_int16], [wrap32]).
    - [float] is IEEE binary32, computed with the Standard Library's
      [SpecFloat] operations at precision 24.
    - Arrays are lists read and updated by index.
    - Each call of a virtual [handle...] hook is an [Event]; a decoder
      returns the new state together with the events in the order of the
      calls.
    - [micros()] is an input: each function that reads the clock takes the
      reading as an argument.
    - An access behind the last element of a member array reaches the
      members that follow it in the layout of the ARM targets; the byte
      read behind a local array is an input. *)

From Stdlib Require Import ZArith QArith Qabs Lia Lqa Bool.
From Stdlib Require Import Floats.SpecFloat.
From stdpp Require Import base list list_numbers.

Local Open Scope Z_scope.

(** ** Machine integers *)

Definition wrap8 (z : Z) : Z := z mod 256.
Definition wrap16 (z : Z) : Z := z mod 65536.
Definition wrap32 (z : Z) : Z := z mod 2 ^ 32.

(** Conversion to [int16_t]: two's complement, modulo [2^16]. *)
Definition wrap_int16 (z : Z) : Z := (z + 32768) mod 65536 - 32768.

(** [unsigned long] has 32 bits on the ARM targets of the library. *)
Definition wrap_ulong (z : Z) : Z := wrap32 z.

(** A C [bool] converted from an integer: non-zero is true. *)
Definition to_bool (z : Z) : bool := negb (z =? 0).

(** A C [bool] promoted to [int]. *)
Definition of_bool (b : bool) : Z := if b then 1 else 0.

(** ** Binary32 arithmetic *)

Definition float : Type := spec_float.

Definition prec : Z := 24.
Definition emax : Z := 128.

Definition fmul : float -> float -> float := SFmul prec emax.
Definition fdiv : float -> float -> float := SFdiv prec emax.

(** Conversion of an integer to [float] (round to nearest even). *)
Definition float_of_Z (z : Z) : float := binary_normalize prec emax z 0 false.

Definition fzero : float := S754_zero false.

(** [x <= y] on floats; false when either is a NaN. *)
Definition fle (x y : float) : bool := SFleb x y.

(** Conversion of a [float] to an integer: the fractional part is
    discarded; there is no result for an infinity or a NaN. *)
Definition ftrunc (x : float) : option Z :=
  match x with
  | S754_zero _ => Some 0
  | S754_finite s m e =>
      Some (cond_Zopp s (if 0 <=? e then Z.shiftl (Z.pos m) e
                         else Z.shiftr (Z.pos m) (- e)))
  | _ => None
  end.

(** The conversion is undefined when the truncated value does not fit the
    destination type. *)
Definition float_to_int16 (x : float) : option Z :=
  match ftrunc x with
  | Some z => if (-32768 <=? z) && (z <=? 32767) then Some z else None
  | None => None
  end.

Definition float_to_uint8 (x : float) : option Z :=
  match ftrunc x with
  | Some z => if (0 <=? z) && (z <=? 255) then Some z else None
  | None => None
  end.

(** The rational a finite float stands for: [m * 2^e], signed. *)
Definition float_to_Q (x : float) : Q :=
  match x with
  | S754_finite s m e =>
      if 0 <=? e then inject_Z (cond_Zopp s (Z.pos m * 2 ^ e))
      else Qmake (cond_Zopp s (Z.pos m)) (Z.to_pos (2 ^ (- e)))
  | _ => 0%Q
  end.

(** ** The address map (namespace [Mackie]) *)

Module Mackie.
Module Message.
Module Header.
Definition Vendor : Z := 0.
Definition Device : Z := 3.
Definition Type_ : Z := 4.
Definition Message : Z := 5.
End Header.

(** 3 bytes MIDI vendor ID. *)
Definition Vendor : list Z := [0x00; 0x00; 0x66].

Module Device.
Definition Control : Z := 20.
Definition ControlXT : Z := 21.
End Device.

Module Type_.
Definition TimeDisplay : Z := 16.
Definition ModeDisplay : Z := 17.
Definition Display : Z := 18.
End Type_.

Module Display.
Module Header.
Definition Index : Z := 0.
Definition Text : Z := 1.
End Header.
End Display.
End Message.

Module Display.
Module Strip.
Definition NameValue : Z := 52.
End Strip.
Module Time.
Definition Digit : Z := 64.
Definition SMPTEBeats : Z := 53.
End Time.
Module Mode.
Definition Digit : Z := 74.
End Mode.
End Display.

Module ChannelStrip.
Module VPot.
(** enum Mode *)
Definition Single : Z := 0.
Definition Boost : Z := 1.
Definition Bar : Z := 2.
Definition Spread : Z := 3.
(** enum CC *)
Definition Encoder : Z := 16.
Definition LED : Z := 48.
(** enum Note *)
Definition Push : Z := 32.
Definition Track : Z := 40.
Definition Send : Z := 41.
Definition Pan : Z := 42.
Definition PlugIn : Z := 43.
Definition Equalizer : Z := 44.
Definition Instrument : Z := 45.
End VPot.
Module Button.
Definition Arm : Z := 0.
Definition Solo : Z := 8.
Definition Mute : Z := 16.
Definition Select : Z := 24.
End Button.
Module Fader.
Definition Touch : Z := 104.
End Fader.
End ChannelStrip.

Module Main.
Definition Touch : Z := 112.
End Main.

Module Bank.
Definition Previous : Z := 46.
Definition Next : Z := 47.
Definition PreviousChannel : Z := 48.
Definition NextChannel : Z := 49.
Definition Flip : Z := 50.
Definition Edit : Z := 51.
End Bank.

Module Function.
Definition F1 : Z := 54.
Definition F16 : Z := 69.
End Function.

Module Modifier.
Definition Shift : Z := 70.
Definition Option : Z := 71.
Definition Control : Z := 72.
Definition Alt : Z := 73.
End Modifier.

Module Automation.
Definition On : Z := 74.
Definition Record_ : Z := 75.
Definition Snapshot : Z := 77.
Definition Touch : Z := 78.
End Automation.

Module Utility.
Definition Undo : Z := 76.
Definition Cancel : Z := 80.
Definition Enter : Z := 81.
Definition Redo : Z := 79.
Definition Marker : Z := 82.
Definition Mixer : Z := 83.
End Utility.

Module Marker.
Definition PreviousFrame : Z := 84.
Definition NextFrame : Z := 85.
Definition Loop : Z := 86.
Definition PointIn : Z := 87.
Definition PointOut : Z := 88.
Definition Home : Z := 89.
Definition End_ : Z := 90.
End Marker.

Module Transport.
Definition Rewind : Z := 91.
Definition Forward : Z := 92.
Definition Stop : Z := 93.
Definition Play : Z := 94.
Definition Record_ : Z := 95.
End Transport.

Module Navigation.
Definition Jog : Z := 60.
Definition Up : Z := 96.
Definition Down : Z := 97.
Definition Left : Z := 98.
Definition Right : Z := 99.
Definition Zoom : Z := 100.
Definition Scrub : Z := 101.
End Navigation.

Module UserSwitch.
Definition S1 : Z := 102.
Definition S2 : Z := 103.
End UserSwitch.

Module Protocol.
Definition Ping : Z := 127.
End Protocol.
End Mackie.

(** ** The enumerations of [V2Mackie.h] *)

Module StripButton.
Inductive t := Arm | Mute | Select | Solo | Touch | VPot.
End StripButton.

Module TransportButton.
Inductive t := Rewind | Forward | Stop | Play | Record_.
End TransportButton.

Module BankButton.
Inductive t := Previous | Next | PreviousChannel | NextChannel | Flip | Edit.
End BankButton.

Module ModifierButton.
Inductive t := Shift | Option | Control | Alt.
End ModifierButton.

Module NavigationButton.
Inductive t := Up | Down | Left | Right | Zoom | Scrub.
End NavigationButton.

Module VPotMode.
Inductive t := Off | Pan | Bar.
End VPotMode.

Module TimeType.
Inductive t := SMPTE | Beats.
End TimeType.

(** ** MIDI packets

    Modelled from the spec: [V2MIDI::Packet] belongs to the transport
    library, which the codec treats as an external collaborator. A packet
    is the message it carries: its status, its channel and the fields the
    getters of that status return. [Other] stands for every status the
    codec does not look at (polyphonic aftertouch, program change, system
    messages). A [set...] method builds the message of its status from
    arguments of type [uint8_t] ([int16_t] for the pitch bend value). *)
Inductive Packet :=
| NoteOn (channel note velocity : Z)
| NoteOff (channel note : Z)
| ControlChange (channel controller value : Z)
| AftertouchChannel (channel pressure : Z)
| PitchBend (channel value : Z)
| Other (status channel : Z).

Definition setNote (channel note velocity : Z) : Packet :=
  NoteOn (wrap8 channel) (wrap8 note) (wrap8 velocity).
Definition setNoteOff (channel note : Z) : Packet :=
  NoteOff (wrap8 channel) (wrap8 note).
Definition setControlChange (channel controller value : Z) : Packet :=
  ControlChange (wrap8 channel) (wrap8 controller) (wrap8 value).
Definition setAftertouchChannel (channel pressure : Z) : Packet :=
  AftertouchChannel (wrap8 channel) (wrap8 pressure).
Definition setPitchBend (channel value : Z) : Packet :=
  PitchBend (wrap8 channel) (wrap_int16 value).

(** Modelled from the spec: the two controller numbers of [V2MIDI::CC] the
    decoder names ("all sound off", "all notes off"), with their standard
    MIDI values. *)
Module CC.
Definition AllSoundOff : Z := 120.
Definition AllNotesOff : Z := 123.
End CC.

(** ** Encoders *)

(** On/off buttons are sent as velocity 127 or 0. The [default: return
    NULL] of the button encoders is for values outside the enumeration,
    which the types below do not have: these encoders always build a
    packet. *)
Definition on_velocity (on : bool) : Z := if on then 127 else 0.

(** [setStripMeter]: there is no packet when the conversion of
    [fraction * 12.f] to [uint8_t] is undefined. *)
Definition setStripMeter (strip : Z) (fraction : float) : option Packet :=
  match float_to_uint8 (fmul fraction (float_of_Z 12)) with
  | Some value => Some (setAftertouchChannel 0 (Z.lor (Z.shiftl strip 4) value))
  | None => None
  end.

(** [setStripMeterOverload]: [strip << 4 | overload ? 14 : 15] parses as
    [((strip << 4) | overload) ? 14 : 15]. *)
Definition setStripMeterOverload (strip : Z) (overload : bool) : Packet :=
  setAftertouchChannel 0
    (if to_bool (Z.lor (Z.shiftl strip 4) (of_bool overload)) then 14 else 15).

(** The 14 bit range of a fader, [8176 + 8192] steps. *)
Definition fader_range : Z := 8176 + 8192.

(** [setStripFader]: there is no packet when the conversion of the product
    to [int16_t] is undefined. *)
Definition setStripFader (strip : Z) (fraction : float) : option Packet :=
  match float_to_int16 (fmul (float_of_Z fader_range) fraction) with
  | Some range =>
      let value := wrap_int16 (range - 8192) in
      Some (setPitchBend strip value)
  | None => None
  end.

(** [setFader], the main fader on channel 8. *)
Definition setFader (fraction : float) : option Packet :=
  match float_to_int16 (fmul (float_of_Z fader_range) fraction) with
  | Some range =>
      let value := wrap_int16 (range - 8192) in
      Some (setPitchBend 8 value)
  | None => None
  end.

Definition setTouch (on : bool) : Packet :=
  setNote 0 Mackie.Main.Touch (on_velocity on).

Definition setStripVPotDisplay (strip value : Z) : Packet :=
  setControlChange 0 (Mackie.ChannelStrip.VPot.LED + strip) value.

Definition setStripButton (strip : Z) (button : StripButton.t) (on : bool) : Packet :=
  match button with
  | StripButton.VPot => setNote 0 (Mackie.ChannelStrip.VPot.Push + strip) (on_velocity on)
  | StripButton.Arm => setNote 0 (Mackie.ChannelStrip.Button.Arm + strip) (on_velocity on)
  | StripButton.Mute => setNote 0 (Mackie.ChannelStrip.Button.Mute + strip) (on_velocity on)
  | StripButton.Select => setNote 0 (Mackie.ChannelStrip.Button.Select + strip) (on_velocity on)
  | StripButton.Solo => setNote 0 (Mackie.ChannelStrip.Button.Solo + strip) (on_velocity on)
  | StripButton.Touch => setNote 0 (Mackie.ChannelStrip.Fader.Touch + strip) (on_velocity on)
  end.

Definition setTransportButton (button : TransportButton.t) (on : bool) : Packet :=
  match button with
  | TransportButton.Rewind => setNote 0 Mackie.Transport.Rewind (on_velocity on)
  | TransportButton.Forward => setNote 0 Mackie.Transport.Forward (on_velocity on)
  | TransportButton.Stop => setNote 0 Mackie.Transport.Stop (on_velocity on)
  | TransportButton.Play => setNote 0 Mackie.Transport.Play (on_velocity on)
  | TransportButton.Record_ => setNote 0 Mackie.Transport.Record_ (on_velocity on)
  end.

Definition setBankButton (button : BankButton.t) (on : bool) : Packet :=
  match button with
  | BankButton.Previous => setNote 0 Mackie.Bank.Previous (on_velocity on)
  | BankButton.Next => setNote 0 Mackie.Bank.Next (on_velocity on)
  | BankButton.PreviousChannel => setNote 0 Mackie.Bank.PreviousChannel (on_velocity on)
  | BankButton.NextChannel => setNote 0 Mackie.Bank.NextChannel (on_velocity on)
  | BankButton.Flip => setNote 0 Mackie.Bank.Flip (on_velocity on)
  | BankButton.Edit => setNote 0 Mackie.Bank.Edit (on_velocity on)
  end.

Definition setModifierButton (button : ModifierButton.t) (on : bool) : Packet :=
  match button with
  | ModifierButton.Shift => setNote 0 Mackie.Modifier.Shift (on_velocity on)
  | ModifierButton.Option => setNote 0 Mackie.Modifier.Option (on_velocity on)
  | ModifierButton.Control => setNote 0 Mackie.Modifier.Control (on_velocity on)
  | ModifierButton.Alt => setNote 0 Mackie.Modifier.Alt (on_velocity on)
  end.

Definition setNavigationButton (button : NavigationButton.t) (on : bool) : Packet :=
  match button with
  | NavigationButton.Up => setNote 0 Mackie.Navigation.Up (on_velocity on)
  | NavigationButton.Down => setNote 0 Mackie.Navigation.Down (on_velocity on)
  | NavigationButton.Left => setNote 0 Mackie.Navigation.Left (on_velocity on)
  | NavigationButton.Right => setNote 0 Mackie.Navigation.Right (on_velocity on)
  | NavigationButton.Zoom => setNote 0 Mackie.Navigation.Zoom (on_velocity on)
  | NavigationButton.Scrub => setNote 0 Mackie.Navigation.Scrub (on_velocity on)
  end.

Definition setFunctionButton (function : Z) (on : bool) : Packet :=
  setNote 0 (Mackie.Function.F1 + function) (on_velocity on).

(** A case range [base ... base + 7] of the per-strip switches. *)
Definition in_strip_range (base n : Z) : bool := (base <=? n) && (n <=? base + 7).

(** [setStripIndex]: [None] is the [NULL] result. *)
Definition setStripIndex (packet : Packet) (strip : Z) : option Packet :=
  match packet with
  | NoteOn channel note velocity =>
      if negb (channel =? 0) then None
      else if in_strip_range Mackie.ChannelStrip.VPot.Push note
      then Some (setNote 0 (Mackie.ChannelStrip.VPot.Push + strip) velocity)
      else if in_strip_range Mackie.ChannelStrip.Button.Arm note
      then Some (setNote 0 (Mackie.ChannelStrip.Button.Arm + strip) velocity)
      else if in_strip_range Mackie.ChannelStrip.Button.Solo note
      then Some (setNote 0 (Mackie.ChannelStrip.Button.Solo + strip) velocity)
      else if in_strip_range Mackie.ChannelStrip.Button.Mute note
      then Some (setNote 0 (Mackie.ChannelStrip.Button.Mute + strip) velocity)
      else if in_strip_range Mackie.ChannelStrip.Button.Select note
      then Some (setNote 0 (Mackie.ChannelStrip.Button.Select + strip) velocity)
      else if in_strip_range Mackie.ChannelStrip.Fader.Touch note
      then Some (setNote 0 (Mackie.ChannelStrip.Fader.Touch + strip) velocity)
      else None
  | NoteOff channel note =>
      if negb (channel =? 0) then None
      else if in_strip_range Mackie.ChannelStrip.VPot.Push note
      then Some (setNoteOff 0 (Mackie.ChannelStrip.VPot.Push + strip))
      else if in_strip_range Mackie.ChannelStrip.Button.Arm note
      then Some (setNoteOff 0 (Mackie.ChannelStrip.Button.Arm + strip))
      else if in_strip_range Mackie.ChannelStrip.Button.Solo note
      then Some (setNoteOff 0 (Mackie.ChannelStrip.Button.Solo + strip))
      else if in_strip_range Mackie.ChannelStrip.Button.Mute note
      then Some (setNoteOff 0 (Mackie.ChannelStrip.Button.Mute + strip))
      else if in_strip_range Mackie.ChannelStrip.Button.Select note
      then Some (setNoteOff 0 (Mackie.ChannelStrip.Button.Select + strip))
      else if in_strip_range Mackie.ChannelStrip.Fader.Touch note
      then Some (setNoteOff 0 (Mackie.ChannelStrip.Fader.Touch + strip))
      else None
  | ControlChange channel controller value =>
      if negb (channel =? 0) then None
      else if in_strip_range Mackie.ChannelStrip.VPot.LED controller
      then Some (setControlChange 0 (Mackie.ChannelStrip.VPot.LED + strip) value)
      else None
  | AftertouchChannel channel pressure =>
      if negb (channel =? 0) then None
      else
        let index := Z.shiftr pressure 4 in
        if 7 <? index then None
        else
          let value := Z.land pressure 0xf in
          Some (setAftertouchChannel 0 (Z.lor (Z.shiftl strip 4) value))
  | PitchBend channel value =>
      if (0 <=? channel) && (channel <=? 7)
      then Some (setPitchBend strip value)
      else None
  | Other _ _ => None
  end.

(** [setStripText]: the bytes written to [buffer] and the length returned.
    [text] holds the characters of the C string before its terminator.
    [textlen] is a [uint8_t]; the count of the [memset] is [7 - textlen]
    converted to [size_t], so for [textlen > 7] it wraps to a count beyond
    any buffer and there is no result. *)
Definition setStripText (strip row : Z) (text : list Z) : option (list Z * Z) :=
  let header :=
    [0xf0] ++ Mackie.Message.Vendor ++
    [Mackie.Message.Device.Control; Mackie.Message.Type_.Display;
     wrap8 (56 * row + 7 * strip)] in
  let textlen := wrap8 (Z.of_nat (length text)) in
  let copied := header ++ take (Z.to_nat textlen) text in
  if 7 - textlen <? 0 then None
  else
    let padded := copied ++ replicate (Z.to_nat (7 - textlen)) 32 in
    let buffer := padded ++ [0xf7] in
    Some (buffer, wrap8 (Z.of_nat (length buffer))).

(** ** Notifications

    One constructor per virtual [handle...] hook of the class; the second
    overload of [handleStripVPotDisplay] (strip, raw value) is
    [handleStripVPotDisplayValue]. *)
Inductive Event :=
| handleStripVPotDisplay (strip : Z) (mode : VPotMode.t) (center : bool) (fraction : float)
| handleStripVPotDisplayValue (strip value : Z)
| handleStripButton (strip : Z) (button : StripButton.t) (on : bool)
| handleStripFader (strip : Z) (fraction : float)
| handleStripMeter (strip : Z) (fraction : float) (overload : bool)
| handleStripMeterOverload (strip : Z) (overload : bool)
| handleStripDisplay (global : bool) (strip row : Z)
| handleFader (fraction : float)
| handleTransportButton (button : TransportButton.t) (on : bool)
| handleBankButton (button : BankButton.t) (on : bool)
| handleModifierButton (button : ModifierButton.t) (on : bool)
| handleNavigationButton (button : NavigationButton.t) (on : bool)
| handleTime (type : TimeType.t)
| handleTimeout.

(** ** The state of the codec (the private members of [V2Mackie]) *)

Record DisplayState := {
  display_strip : list Z;            (* uint8_t strip[56 * 2] *)
  display_mode : list Z;             (* uint8_t mode[2] *)
  time_type : TimeType.t;
  time_digits : list Z;              (* uint8_t digits[10] *)
  display_usec : Z
}.

Record VPotState := {
  vpot_mode : VPotMode.t;
  vpot_center : bool;
  vpot_value : float;
  vpot_click : bool
}.

Record FaderState := {
  fader_position : float;
  fader_touch : bool
}.

Record ButtonState := {
  button_arm : bool;
  button_mute : bool;
  button_select : bool;
  button_solo : bool
}.

Record MeterState := {
  meter_fraction : float;
  meter_overload : bool;
  meter_usec : Z
}.

Record Strip := {
  strip_display : list (list Z);     (* char display[2][7] *)
  vpot : VPotState;
  fader : FaderState;
  button : ButtonState;
  meter : MeterState
}.

Record BankState := { bank_flip : bool; bank_edit : bool }.

Record TransportState := {
  transport_rewind : bool;
  transport_forward : bool;
  transport_stop : bool;
  transport_play : bool;
  transport_record : bool
}.

Record NavigationState := { navigation_zoom : bool; navigation_scrub : bool }.

Record State := {
  _active_usec : Z;
  _display : DisplayState;
  _strips : list Strip;              (* _strips[8] *)
  _main_fader : float;
  _bank : BankState;
  _transport : TransportState;
  _navigation : NavigationState
}.

(** Assignments to one member. *)
Definition with_active_usec (v : Z) (s : State) : State :=
  {| _active_usec := v; _display := _display s; _strips := _strips s;
     _main_fader := _main_fader s; _bank := _bank s;
     _transport := _transport s; _navigation := _navigation s |}.

Definition with_display (d : DisplayState) (s : State) : State :=
  {| _active_usec := _active_usec s; _display := d; _strips := _strips s;
     _main_fader := _main_fader s; _bank := _bank s;
     _transport := _transport s; _navigation := _navigation s |}.

Definition with_strips (l : list Strip) (s : State) : State :=
  {| _active_usec := _active_usec s; _display := _display s; _strips := l;
     _main_fader := _main_fader s; _bank := _bank s;
     _transport := _transport s; _navigation := _navigation s |}.

Definition with_main_fader (f : float) (s : State) : State :=
  {| _active_usec := _active_usec s; _display := _display s; _strips := _strips s;
     _main_fader := f; _bank := _bank s;
     _transport := _transport s; _navigation := _navigation s |}.

Definition with_bank (b : BankState) (s : State) : State :=
  {| _active_usec := _active_usec s; _display := _display s; _strips := _strips s;
     _main_fader := _main_fader s; _bank := b;
     _transport := _transport s; _navigation := _navigation s |}.

Definition with_transport (t : TransportState) (s : State) : State :=
  {| _active_usec := _active_usec s; _display := _display s; _strips := _strips s;
     _main_fader := _main_fader s; _bank := _bank s;
     _transport := t; _navigation := _navigation s |}.

Definition with_vpot (v : VPotState) (st : Strip) : Strip :=
  {| strip_display := strip_display st; vpot := v; fader := fader st;
     button := button st; meter := meter st |}.

Definition with_fader (f : FaderState) (st : Strip) : Strip :=
  {| strip_display := strip_display st; vpot := vpot st; fader := f;
     button := button st; meter := meter st |}.

Definition with_button (b : ButtonState) (st : Strip) : Strip :=
  {| strip_display := strip_display st; vpot := vpot st; fader := fader st;
     button := b; meter := meter st |}.

Definition with_meter (m : MeterState) (st : Strip) : Strip :=
  {| strip_display := strip_display st; vpot := vpot st; fader := fader st;
     button := button st; meter := m |}.

Definition with_strip_display (d : list (list Z)) (st : Strip) : Strip :=
  {| strip_display := d; vpot := vpot st; fader := fader st;
     button := button st; meter := meter st |}.

(** The zero-initialised members. *)
Definition zero_vpot : VPotState :=
  {| vpot_mode := VPotMode.Off; vpot_center := false; vpot_value := fzero;
     vpot_click := false |}.
Definition zero_fader : FaderState :=
  {| fader_position := fzero; fader_touch := false |}.
Definition zero_button : ButtonState :=
  {| button_arm := false; button_mute := false; button_select := false;
     button_solo := false |}.
Definition zero_meter : MeterState :=
  {| meter_fraction := fzero; meter_overload := false; meter_usec := 0 |}.
Definition zero_strip : Strip :=
  {| strip_display := replicate 2 (replicate 7 0); vpot := zero_vpot;
     fader := zero_fader; button := zero_button; meter := zero_meter |}.

#[global] Instance Strip_inhabited : Inhabited Strip := populate zero_strip.

(** [_strips[i]] and an assignment to a member of [_strips[i]]. *)
Definition strip_at (s : State) (i : Z) : Strip := _strips s !!! Z.to_nat i.

Definition update_strip (i : Z) (f : Strip -> Strip) (s : State) : State :=
  with_strips (alter f (Z.to_nat i) (_strips s)) s.

(** [reset]: every member is cleared and the display is filled with
    spaces. *)
Definition reset : State :=
  {| _active_usec := 0;
     _display := {| display_strip := replicate (56 * 2) 32;
                    display_mode := replicate 2 0;
                    time_type := TimeType.SMPTE;
                    time_digits := replicate 10 0;
                    display_usec := 0 |};
     _strips := replicate 8 zero_strip;
     _main_fader := fzero;
     _bank := {| bank_flip := false; bank_edit := false |};
     _transport := {| transport_rewind := false; transport_forward := false;
                      transport_stop := false; transport_play := false;
                      transport_record := false |};
     _navigation := {| navigation_zoom := false; navigation_scrub := false |} |}.

(** ** The monitor *)

(** The body of the [for] loop of [loop] for strips [i, i + 1, ...]; [n]
    counts the strips left and [now i] is the clock read for strip [i]. *)
Fixpoint loop_meters (n : nat) (i : Z) (now : Z -> Z) (s : State) : State * list Event :=
  match n with
  | O => (s, [])
  | S n' =>
      if fle (meter_fraction (meter (strip_at s i))) fzero
      then loop_meters n' (i + 1) now s
      else if wrap_ulong (now i - meter_usec (meter (strip_at s i))) <? 1000 * 1000
      then loop_meters n' (i + 1) now s
      else
        let s1 := update_strip i (with_meter zero_meter) s in
        let '(s2, evs) := loop_meters n' (i + 1) now s1 in
        (s2, handleStripMeter i fzero false :: evs)
  end.

(** [loop]: [now_active] is the clock read by the heartbeat test (read only
    when a heartbeat is recorded), [now_meter i] the one read for strip
    [i]. *)
Definition loop (now_active : Z) (now_meter : Z -> Z) (s : State) : State * list Event :=
  let '(s1, evs1) :=
    if (0 <? _active_usec s) &&
       (5000 * 1000 <? wrap_ulong (now_active - _active_usec s))
    then (with_active_usec 0 s, [handleTimeout])
    else (s, []) in
  let '(s2, evs2) := loop_meters 8 0 now_meter s1 in
  (s2, evs1 ++ evs2).

(** ** The decoder *)

Definition set_vpot_click (on : bool) (st : Strip) : Strip :=
  with_vpot {| vpot_mode := vpot_mode (vpot st); vpot_center := vpot_center (vpot st);
               vpot_value := vpot_value (vpot st); vpot_click := on |} st.

Definition set_vpot_display (mode : VPotMode.t) (center : bool) (value : float)
    (st : Strip) : Strip :=
  with_vpot {| vpot_mode := mode; vpot_center := center; vpot_value := value;
               vpot_click := vpot_click (vpot st) |} st.

Definition set_button_arm (on : bool) (st : Strip) : Strip :=
  with_button {| button_arm := on; button_mute := button_mute (button st);
                 button_select := button_select (button st);
                 button_solo := button_solo (button st) |} st.

Definition set_button_solo (on : bool) (st : Strip) : Strip :=
  with_button {| button_arm := button_arm (button st);
                 button_mute := button_mute (button st);
                 button_select := button_select (button st);
                 button_solo := on |} st.

Definition set_button_mute (on : bool) (st : Strip) : Strip :=
  with_button {| button_arm := button_arm (button st); button_mute := on;
                 button_select := button_select (button st);
                 button_solo := button_solo (button st) |} st.

Definition set_button_select (on : bool) (st : Strip) : Strip :=
  with_button {| button_arm := button_arm (button st);
                 button_mute := button_mute (button st);
                 button_select := on;
                 button_solo := button_solo (button st) |} st.

Definition set_fader_touch (on : bool) (st : Strip) : Strip :=
  with_fader {| fader_position := fader_position (fader st); fader_touch := on |} st.

Definition set_fader_position (f : float) (st : Strip) : Strip :=
  with_fader {| fader_position := f; fader_touch := fader_touch (fader st) |} st.

Definition set_meter_fraction (f : float) (st : Strip) : Strip :=
  with_meter {| meter_fraction := f; meter_overload := meter_overload (meter st);
                meter_usec := meter_usec (meter st) |} st.

Definition set_meter_overload (b : bool) (st : Strip) : Strip :=
  with_meter {| meter_fraction := meter_fraction (meter st); meter_overload := b;
                meter_usec := meter_usec (meter st) |} st.

Definition set_meter_usec (t : Z) (st : Strip) : Strip :=
  with_meter {| meter_fraction := meter_fraction (meter st);
                meter_overload := meter_overload (meter st); meter_usec := t |} st.

Definition set_transport_rewind (on : bool) (t : TransportState) : TransportState :=
  {| transport_rewind := on; transport_forward := transport_forward t;
     transport_stop := transport_stop t; transport_play := transport_play t;
     transport_record := transport_record t |}.

Definition set_transport_forward (on : bool) (t : TransportState) : TransportState :=
  {| transport_rewind := transport_rewind t; transport_forward := on;
     transport_stop := transport_stop t; transport_play := transport_play t;
     transport_record := transport_record t |}.

Definition set_transport_stop (on : bool) (t : TransportState) : TransportState :=
  {| transport_rewind := transport_rewind t; transport_forward := transport_forward t;
     transport_stop := on; transport_play := transport_play t;
     transport_record := transport_record t |}.

Definition set_transport_play (on : bool) (t : TransportState) : TransportState :=
  {| transport_rewind := transport_rewind t; transport_forward := transport_forward t;
     transport_stop := transport_stop t; transport_play := on;
     transport_record := transport_record t |}.

Definition set_transport_record (on : bool) (t : TransportState) : TransportState :=
  {| transport_rewind := transport_rewind t; transport_forward := transport_forward t;
     transport_stop := transport_stop t; transport_play := transport_play t;
     transport_record := on |}.

Definition set_bank_flip (on : bool) (b : BankState) : BankState :=
  {| bank_flip := on; bank_edit := bank_edit b |}.

Definition set_bank_edit (on : bool) (b : BankState) : BankState :=
  {| bank_flip := bank_flip b; bank_edit := on |}.

(** [dispatchNote]; [now] is the clock read when a ping is recorded. *)
Definition dispatchNote (channel note velocity : Z) (now : Z) (s : State)
    : State * list Event :=
  let on := velocity =? 127 in
  if channel =? 0 then
    if in_strip_range Mackie.ChannelStrip.VPot.Push note then
      let strip := note - Mackie.ChannelStrip.VPot.Push in
      (update_strip strip (set_vpot_click on) s,
       [handleStripButton strip StripButton.VPot on])
    else if in_strip_range Mackie.ChannelStrip.Button.Arm note then
      let strip := note - Mackie.ChannelStrip.Button.Arm in
      (update_strip strip (set_button_arm on) s,
       [handleStripButton strip StripButton.Arm on])
    else if in_strip_range Mackie.ChannelStrip.Button.Solo note then
      let strip := note - Mackie.ChannelStrip.Button.Solo in
      (update_strip strip (set_button_solo on) s,
       [handleStripButton strip StripButton.Solo on])
    else if in_strip_range Mackie.ChannelStrip.Button.Mute note then
      let strip := note - Mackie.ChannelStrip.Button.Mute in
      (update_strip strip (set_button_mute on) s,
       [handleStripButton strip StripButton.Mute on])
    else if in_strip_range Mackie.ChannelStrip.Button.Select note then
      let strip := note - Mackie.ChannelStrip.Button.Select in
      (update_strip strip (set_button_select on) s,
       [handleStripButton strip StripButton.Select on])
    else if in_strip_range Mackie.ChannelStrip.Fader.Touch note then
      let strip := note - Mackie.ChannelStrip.Fader.Touch in
      (update_strip strip (set_fader_touch on) s,
       [handleStripButton strip StripButton.Touch on])
    else if note =? Mackie.Transport.Rewind then
      (with_transport (set_transport_rewind on (_transport s)) s,
       [handleTransportButton TransportButton.Rewind on])
    else if note =? Mackie.Transport.Forward then
      (with_transport (set_transport_forward on (_transport s)) s,
       [handleTransportButton TransportButton.Forward on])
    else if note =? Mackie.Transport.Stop then
      (with_transport (set_transport_stop on (_transport s)) s,
       [handleTransportButton TransportButton.Stop on])
    else if note =? Mackie.Transport.Play then
      (with_transport (set_transport_play on (_transport s)) s,
       [handleTransportButton TransportButton.Play on])
    else if note =? Mackie.Transport.Record_ then
      (with_transport (set_transport_record on (_transport s)) s,
       [handleTransportButton TransportButton.Record_ on])
    else if note =? Mackie.Bank.Previous then
      (s, [handleBankButton BankButton.Previous on])
    else if note =? Mackie.Bank.Next then
      (s, [handleBankButton BankButton.Next on])
    else if note =? Mackie.Bank.PreviousChannel then
      (s, [handleBankButton BankButton.PreviousChannel on])
    else if note =? Mackie.Bank.Flip then
      (with_bank (set_bank_flip on (_bank s)) s,
       [handleBankButton BankButton.Flip on])
    else if note =? Mackie.Bank.Edit then
      (with_bank (set_bank_edit on (_bank s)) s,
       [handleBankButton BankButton.Edit on])
    else if note =? Mackie.Modifier.Shift then
      (s, [handleModifierButton ModifierButton.Shift on])
    else if note =? Mackie.Modifier.Option then
      (s, [handleModifierButton ModifierButton.Option on])
    else if note =? Mackie.Modifier.Control then
      (s, [handleModifierButton ModifierButton.Control on])
    else if note =? Mackie.Modifier.Alt then
      (s, [handleModifierButton ModifierButton.Alt on])
    else if note =? Mackie.Navigation.Up then
      (s, [handleNavigationButton NavigationButton.Up on])
    else if note =? Mackie.Navigation.Down then
      (s, [handleNavigationButton NavigationButton.Down on])
    else if note =? Mackie.Navigation.Left then
      (s, [handleNavigationButton NavigationButton.Left on])
    else if note =? Mackie.Navigation.Right then
      (s, [handleNavigationButton NavigationButton.Right on])
    else if note =? Mackie.Navigation.Zoom then
      (s, [handleNavigationButton NavigationButton.Zoom on])
    else if note =? Mackie.Navigation.Scrub then
      (s, [handleNavigationButton NavigationButton.Scrub on])
    else (s, [])
  else if channel =? 15 then
    if note =? Mackie.Protocol.Ping then (with_active_usec now s, [])
    else (s, [])
  else (s, []).

(** The rotary LED byte: the fraction shown for a non-zero position. *)
Definition vpot_led (mode position : Z) : VPotMode.t * float :=
  if mode =? Mackie.ChannelStrip.VPot.Single then
    (VPotMode.Bar, fdiv (float_of_Z position) (float_of_Z 11))
  else if mode =? Mackie.ChannelStrip.VPot.Boost then
    if position <? 6
    then (VPotMode.Pan, fdiv (float_of_Z (6 - position)) (float_of_Z (-5)))
    else (VPotMode.Pan, fdiv (float_of_Z (position - 6)) (float_of_Z 5))
  else if mode =? Mackie.ChannelStrip.VPot.Bar then
    (VPotMode.Bar, fdiv (float_of_Z position) (float_of_Z 11))
  else
    (VPotMode.Bar, fdiv (float_of_Z position) (float_of_Z 6)).

Definition with_time_digits (digits : list Z) (d : DisplayState) : DisplayState :=
  {| display_strip := display_strip d; display_mode := display_mode d;
     time_type := time_type d; time_digits := digits;
     display_usec := display_usec d |}.

Definition with_display_strip (bytes : list Z) (d : DisplayState) : DisplayState :=
  {| display_strip := bytes; display_mode := display_mode d;
     time_type := time_type d; time_digits := time_digits d;
     display_usec := display_usec d |}.

Definition dispatchControlChange (channel controller value : Z) (s : State)
    : State * list Event :=
  if negb (channel =? 0) then (s, [])
  else if (Mackie.Display.Time.Digit <=? controller) &&
          (controller <=? Mackie.Display.Time.Digit + 9) then
    let digits :=
      <[Z.to_nat (Mackie.Display.Time.Digit + 9 - controller) := value]>
        (time_digits (_display s)) in
    (with_display (with_time_digits digits (_display s)) s,
     [handleTime (time_type (_display s))])
  else if in_strip_range Mackie.ChannelStrip.VPot.LED controller then
    let strip := controller - Mackie.ChannelStrip.VPot.LED in
    let center := to_bool (Z.land value 0x40) in
    let position := Z.land value 0x0f in
    if position =? 0 then
      (update_strip strip (set_vpot_display VPotMode.Off center fzero) s,
       [handleStripVPotDisplayValue strip value;
        handleStripVPotDisplay strip VPotMode.Off center fzero])
    else
      let '(mode, fraction) := vpot_led (Z.land (Z.shiftr value 4) 3) position in
      (update_strip strip (set_vpot_display mode center fraction) s,
       [handleStripVPotDisplayValue strip value;
        handleStripVPotDisplay strip mode center fraction])
  else if (controller =? CC.AllSoundOff) || (controller =? CC.AllNotesOff) then
    (reset, [])
  else (s, []).

(** [dispatchAftertouchChannel]; [now] is the clock read for the meter's
    time stamp. *)
Definition dispatchAftertouchChannel (channel pressure : Z) (now : Z) (s : State)
    : State * list Event :=
  if negb (channel =? 0) then (s, [])
  else
    let index := Z.shiftr pressure 4 in
    if 7 <? index then (s, [])
    else
      let value := Z.land pressure 0xf in
      let '(s1, evs) :=
        if (0 <=? value) && (value <=? 12) then
          (update_strip index
             (set_meter_fraction (fdiv (float_of_Z value) (float_of_Z 12))) s, [])
        else if value =? 13 then
          (update_strip index (set_meter_fraction (float_of_Z 1)) s, [])
        else if value =? 14 then
          (update_strip index (set_meter_overload true) s,
           if negb (meter_overload (meter (strip_at s index)))
           then [handleStripMeterOverload index true] else [])
        else if value =? 15 then
          (update_strip index (set_meter_overload false) s,
           if meter_overload (meter (strip_at s index))
           then [handleStripMeterOverload index false] else [])
        else (s, []) in
      let s2 := update_strip index (set_meter_usec now) s1 in
      (s2, evs ++ [handleStripMeter index
                     (meter_fraction (meter (strip_at s2 index)))
                     (meter_overload (meter (strip_at s2 index)))]).

(** The fraction a pitch bend value stands for. *)
Definition pitch_bend_fraction (value : Z) : float :=
  let value := if 8176 <? value then 8176
               else if value <? -8192 then -8192 else value in
  let value := wrap_int16 (value + 8192) in
  fdiv (float_of_Z value) (float_of_Z fader_range).

Definition dispatchPitchBend (channel value : Z) (s : State) : State * list Event :=
  let fraction := pitch_bend_fraction value in
  if (0 <=? channel) && (channel <=? 7) then
    (update_strip channel (set_fader_position fraction) s,
     [handleStripFader channel fraction])
  else if channel =? 8 then
    (with_main_fader fraction s, [handleFader fraction])
  else (s, []).

(** [dispatchPacket]; [now] is the clock read by the branch that takes a
    time stamp. *)
Definition dispatchPacket (packet : Packet) (now : Z) (s : State) : State * list Event :=
  match packet with
  | NoteOn channel note velocity => dispatchNote channel note velocity now s
  | NoteOff channel note => dispatchNote channel note 0 now s
  | ControlChange channel controller value =>
      dispatchControlChange channel controller value s
  | AftertouchChannel channel pressure =>
      dispatchAftertouchChannel channel pressure now s
  | PitchBend channel value => dispatchPitchBend channel value s
  | Other _ _ => (s, [])
  end.

(** ** System exclusive messages: the display *)

(** [buffer[i]]. *)
Definition byte_at (buffer : list Z) (i : Z) : Z := nth (Z.to_nat i) buffer 0.

(** The 7 bytes at [bytes + 56 * row + 7 * strip]. *)
Definition block_bytes (bytes : list Z) (row strip : Z) : list Z :=
  take 7 (drop (Z.to_nat (56 * row + 7 * strip)) bytes).

(** [_strips[strip].display[row]]. *)
Definition strip_cache (s : State) (strip row : Z) : list Z :=
  nth (Z.to_nat row) (strip_display (strip_at s strip)) [].

Definition set_strip_cache (row : Z) (bytes : list Z) (st : Strip) : Strip :=
  with_strip_display (<[Z.to_nat row := bytes]> (strip_display st)) st.

(** One of the two loops that guess whether a row shows a global message:
    is any of the separating spaces of the 8 blocks from [from]
    overwritten? *)
Definition row_global (bytes : list Z) (from : Z) : bool :=
  existsb (fun i => negb (byte_at bytes (i * 7 + 6) =? 32)) (seqZ from 8).

(** *** The bytes behind the arrays

    A text may end at the last byte of the display; the block loop then
    also visits block 16, that is strip 0 and row 2, where
    [_display.strip + 112] and [_strips[0].display[2]] are the addresses
    of the 7 bytes behind the two arrays. With the layout of the ARM
    targets (an enumeration is a 4-byte [int] aligned to 4, least
    significant byte first) these bytes are, behind [_display.strip]:
    [mode[0]], [mode[1]], two bytes of padding and the first three bytes
    of [time.type]; behind [_strips[0].display]: two bytes of padding, the
    four bytes of [vpot.mode], and [vpot.center]. Padding holds zero
    bytes: [reset] clears it and no assignment to a member writes it. *)

Definition VPotMode_value (mode : VPotMode.t) : Z :=
  match mode with VPotMode.Off => 0 | VPotMode.Pan => 1 | VPotMode.Bar => 2 end.

Definition TimeType_value (type : TimeType.t) : Z :=
  match type with TimeType.SMPTE => 0 | TimeType.Beats => 1 end.

(** The four bytes of an [int]. *)
Definition int_bytes (v : Z) : list Z :=
  [v mod 256; v / 256 mod 256; v / 65536 mod 256; v / 16777216 mod 256].

(** The 7 bytes at [_display.strip + 112]. *)
Definition behind_display (d : DisplayState) : list Z :=
  display_mode d ++ [0; 0] ++ take 3 (int_bytes (TimeType_value (time_type d))).

(** The 7 bytes at [_strips[strip].display[2]]. *)
Definition behind_cache (st : Strip) : list Z :=
  [0; 0] ++ int_bytes (VPotMode_value (vpot_mode (vpot st)))
  ++ [of_bool (vpot_center (vpot st))].

(** The ring mode and the centre dot that 7 bytes stored at
    [_strips[strip].display[2]] stand for. There is none when the records
    of this development cannot hold the bytes: padding other than zero, a
    [bool] other than 0 and 1, an [int] that is no enumerator of
    [VPotMode]. The bytes copied there are those behind [_display.strip],
    which no code writes after the reset: in every state the codec
    reaches they are zero, and stand for [Off] and no centre dot. *)
Definition ring_of_bytes (bytes : list Z) : option (VPotMode.t * bool) :=
  match bytes with
  | [p0; p1; m0; m1; m2; m3; c] =>
      let mode := m0 + 256 * m1 + 65536 * m2 + 16777216 * m3 in
      if negb ((p0 =? 0) && (p1 =? 0)) then None
      else if negb ((c =? 0) || (c =? 1)) then None
      else if mode =? 0 then Some (VPotMode.Off, to_bool c)
      else if mode =? 1 then Some (VPotMode.Pan, to_bool c)
      else if mode =? 2 then Some (VPotMode.Bar, to_bool c)
      else None
  | _ => None
  end.

Definition set_vpot_ring (mode : VPotMode.t) (center : bool) (st : Strip) : Strip :=
  with_vpot {| vpot_mode := mode; vpot_center := center;
               vpot_value := vpot_value (vpot st);
               vpot_click := vpot_click (vpot st) |} st.

(** The loop that generates the per-strip/row events, for the blocks
    [first + i, first + i + 1, ...]; [n] counts the blocks left. For a
    block of the display ([row] 0 or 1) the 7 bytes of the block are
    compared with the cache of the strip and row, and copied there when
    they differ. For block 16 ([strip] 0, [row] 2) the [memcmp] and the
    [memcpy] work on the bytes behind the arrays, and the notification
    carries [global_2], the byte the code reads at [global[2]], behind
    the array [global] on the stack. The loop goes no further: a text
    ends at byte 112 at most, so that [last] is 16 at most, and the
    blocks behind block 16 are left without a result, as is a copy the
    records cannot hold. Every frame returns in the states the codec
    reaches (lemmas [dispatchSystemExclusive_returns], [run_returns]). *)
Fixpoint display_blocks (global : list bool) (global_2 : bool) (first : Z) (n : nat)
    (i : Z) (s : State) : option (State * list Event) :=
  match n with
  | O => Some (s, [])
  | S n' =>
      let strip := wrap8 ((first + i) mod 8) in
      let row := wrap8 ((first + i) / 8) in
      if 2 <=? row then
        if (row =? 2) && (strip =? 0) then
          let current := behind_display (_display s) in
          if bool_decide (current = behind_cache (strip_at s strip))
          then display_blocks global global_2 first n' (i + 1) s
          else
            match ring_of_bytes current with
            | Some (mode, center) =>
                let s1 := update_strip strip (set_vpot_ring mode center) s in
                match display_blocks global global_2 first n' (i + 1) s1 with
                | Some (s2, evs) =>
                    Some (s2, handleStripDisplay global_2 strip row :: evs)
                | None => None
                end
            | None => None
            end
        else None
      else
        let current := block_bytes (display_strip (_display s)) row strip in
        if bool_decide (current = strip_cache s strip row)
        then display_blocks global global_2 first n' (i + 1) s
        else
          let s1 := update_strip strip (set_strip_cache row current) s in
          match display_blocks global global_2 first n' (i + 1) s1 with
          | Some (s2, evs) =>
              Some (s2, handleStripDisplay (nth (Z.to_nat row) global false) strip row :: evs)
          | None => None
          end
  end.

(** [dispatchSystemExclusive]; [len] is the length of [buffer]. After the
    length test [len - 2] and the later subtractions from [l] cannot wrap;
    [start + l] is computed in [uint32_t]. [global_2] is the byte behind
    the local array [global], read when the loop visits block 16. *)
Definition dispatchSystemExclusive (buffer : list Z) (global_2 : bool) (s : State)
    : option (State * list Event) :=
  let len := Z.of_nat (length buffer) in
  if len <? 1 + Mackie.Message.Header.Message + 1 + 1 then Some (s, [])
  else
    let p := 1 in
    let l := len - 2 in
    if negb (bool_decide
               (take 3 (drop (Z.to_nat (p + Mackie.Message.Header.Vendor)) buffer)
                = Mackie.Message.Vendor))
    then Some (s, [])
    else if negb (byte_at buffer (p + Mackie.Message.Header.Device)
                  =? Mackie.Message.Device.Control) &&
            negb (byte_at buffer (p + Mackie.Message.Header.Device)
                  =? Mackie.Message.Device.ControlXT)
    then Some (s, [])
    else if byte_at buffer (p + Mackie.Message.Header.Type_)
            =? Mackie.Message.Type_.Display then
      let p := p + Mackie.Message.Header.Message in
      let l := l - Mackie.Message.Header.Message in
      if len <? Mackie.Message.Display.Header.Text + 1 then Some (s, [])
      else
        let start := byte_at buffer (p + Mackie.Message.Display.Header.Index) in
        let p := p + Mackie.Message.Display.Header.Text in
        let l := l - Mackie.Message.Display.Header.Text in
        if 56 * 2 <? wrap32 (start + l) then Some (s, [])
        else
          let text := take (Z.to_nat l) (drop (Z.to_nat p) buffer) in
          let old := display_strip (_display s) in
          let bytes :=
            take (Z.to_nat start) old ++ text ++ drop (Z.to_nat (start + l)) old in
          let s1 := with_display (with_display_strip bytes (_display s)) s in
          let global := [row_global bytes 0; row_global bytes 8] in
          let first := wrap8 (start / 7) in
          let last := wrap8 (wrap32 (start + l) / 7) in
          let count := wrap8 (1 + (last - first)) in
          display_blocks global global_2 first (Z.to_nat count) 0 s1
    else Some (s, []).

(** [getStripDisplay]: the array [text[8]] after the call, the 7
    characters of the block with every trailing space overwritten by the
    terminator. *)
Fixpoint trim_trailing_spaces (text : list Z) : list Z :=
  match text with
  | [] => []
  | c :: rest =>
      match trim_trailing_spaces rest with
      | [] => if c =? 32 then [] else [c]
      | rest' => c :: rest'
      end
  end.

Definition getStripDisplay (s : State) (strip row : Z) : list Z :=
  let kept := trim_trailing_spaces (block_bytes (display_strip (_display s)) row strip) in
  kept ++ replicate (8 - length kept) 0.

(** [get7Segment]: the character of a 7-segment digit byte, the dot
    removed. *)
Definition get7Segment (b : Z) : Z :=
  let b := Z.land b 63 in
  if b <? 32 then b + 64 else b.

(** The loop of [getNumber] from index [i], with [n] digits left;
    [number] is a [uint16_t] and [factor] a [uint8_t]. *)
Fixpoint getNumber_from (digits : list Z) (length : Z) (n : nat) (i number factor : Z)
    : Z :=
  match n with
  | O => number
  | S n' =>
      let c := get7Segment (byte_at digits (length - 1 - i)) in
      let digit := if (48 <=? c) && (c <=? 57) then c - 48 else 0 in
      getNumber_from digits length n' (i + 1)
        (wrap16 (number + digit * factor)) (wrap8 (factor * 10))
  end.

Definition getNumber (digits : list Z) (length : Z) : Z :=
  getNumber_from digits length (Z.to_nat length) 0 0 1.

(** [getTime]: the type and the four fields of the time display (hours,
    minutes, seconds and frames, or bars, beats, subdivision and ticks). *)
Definition getTime (s : State) : TimeType.t * (Z * Z * Z * Z) :=
  let digits := time_digits (_display s) in
  (time_type (_display s),
   (getNumber digits 3,
    wrap8 (getNumber (drop 3 digits) 2),
    wrap8 (getNumber (drop 5 digits) 2),
    getNumber (drop 7 digits) 3)).

(** ** Runs of the codec

    The calls a surface makes, each with what it reads from outside the
    class: the clock readings, and the byte behind the array [global]. *)
Inductive Input :=
| Dispatch (packet : Packet) (now : Z)
| SystemExclusive (buffer : list Z) (global_2 : bool)
| Loop (now_active : Z) (now_meter : Z -> Z).

Definition step (i : Input) (s : State) : option (State * list Event) :=
  match i with
  | Dispatch packet now => Some (dispatchPacket packet now s)
  | SystemExclusive buffer global_2 => dispatchSystemExclusive buffer global_2 s
  | Loop now_active now_meter => Some (loop now_active now_meter s)
  end.

Fixpoint run (inputs : list Input) (s : State) : option (State * list Event) :=
  match inputs with
  | [] => Some (s, [])
  | i :: rest =>
      match step i s with
      | Some (s1, evs1) =>
          match run rest s1 with
          | Some (s2, evs2) => Some (s2, evs1 ++ evs2)
          | None => None
          end
      | None => None
      end
  end.

(** The shape of the state: the sizes of the arrays. *)
Definition wf_strip (st : Strip) : Prop :=
  length (strip_display st) = 2%nat /\
  Forall (fun r => length r = 7%nat) (strip_display st).

Definition wf_state (s : State) : Prop :=
  length (display_strip (_display s)) = 112%nat /\
  length (_strips s) = 8%nat /\
  Forall wf_strip (_strips s).

(** The members [_display.mode] and [_display.time.type] hold the values
    of the reset: no code assigns to them. *)
Definition display_untouched (s : State) : Prop :=
  display_mode (_display s) = [0; 0] /\
  time_type (_display s) = TimeType.SMPTE.

(** ** Vocabulary of the statements *)

(** The per-strip address ranges: the six note ranges (for note-on and for
    note-off messages), the LED controllers, the meter nibble and the
    pitch bend channels. *)
Module StripRange.
Inductive t :=
  | Note (base : Z)
  | NoteRelease (base : Z)
  | LED
  | Meter
  | FaderBend.
End StripRange.

(** The base of the per-strip note range a note lies in. *)
Definition note_base (note : Z) : option Z :=
  if in_strip_range Mackie.ChannelStrip.VPot.Push note
  then Some Mackie.ChannelStrip.VPot.Push
  else if in_strip_range Mackie.ChannelStrip.Button.Arm note
  then Some Mackie.ChannelStrip.Button.Arm
  else if in_strip_range Mackie.ChannelStrip.Button.Solo note
  then Some Mackie.ChannelStrip.Button.Solo
  else if in_strip_range Mackie.ChannelStrip.Button.Mute note
  then Some Mackie.ChannelStrip.Button.Mute
  else if in_strip_range Mackie.ChannelStrip.Button.Select note
  then Some Mackie.ChannelStrip.Button.Select
  else if in_strip_range Mackie.ChannelStrip.Fader.Touch note
  then Some Mackie.ChannelStrip.Fader.Touch
  else None.

(** The range and the slot a message addresses, when its shape is one of
    the per-strip shapes. *)
Definition strip_slot (packet : Packet) : option (StripRange.t * Z) :=
  match packet with
  | NoteOn channel note _ =>
      if channel =? 0 then
        match note_base note with
        | Some base => Some (StripRange.Note base, note - base)
        | None => None
        end
      else None
  | NoteOff channel note =>
      if channel =? 0 then
        match note_base note with
        | Some base => Some (StripRange.NoteRelease base, note - base)
        | None => None
        end
      else None
  | ControlChange channel controller _ =>
      if (channel =? 0) && in_strip_range Mackie.ChannelStrip.VPot.LED controller
      then Some (StripRange.LED, controller - Mackie.ChannelStrip.VPot.LED)
      else None
  | AftertouchChannel channel pressure =>
      if (channel =? 0) && (Z.shiftr pressure 4 <=? 7)
      then Some (StripRange.Meter, Z.shiftr pressure 4)
      else None
  | PitchBend channel _ =>
      if (0 <=? channel) && (channel <=? 7)
      then Some (StripRange.FaderBend, channel)
      else None
  | Other _ _ => None
  end.

(** The channel of a packet. *)
Definition packet_channel (packet : Packet) : Z :=
  match packet with
  | NoteOn channel _ _ | NoteOff channel _ | ControlChange channel _ _
  | AftertouchChannel channel _ | PitchBend channel _ | Other _ channel => channel
  end.

Definition is_pitch_bend (packet : Packet) : bool :=
  match packet with PitchBend _ _ => true | _ => false end.

(** The note of each button, read off the encoders. *)
Definition packet_note (packet : Packet) : Z :=
  match packet with
  | NoteOn _ note _ | NoteOff _ note => note
  | _ => 0
  end.

Definition transport_note (b : TransportButton.t) : Z := packet_note (setTransportButton b true).
Definition bank_note (b : BankButton.t) : Z := packet_note (setBankButton b true).
Definition modifier_note (b : ModifierButton.t) : Z := packet_note (setModifierButton b true).
Definition navigation_note (b : NavigationButton.t) : Z := packet_note (setNavigationButton b true).

(** The notes of the marker, utility and automation buttons of the
    address map. *)
Definition marker_notes : list Z :=
  [Mackie.Marker.PreviousFrame; Mackie.Marker.NextFrame; Mackie.Marker.Loop;
   Mackie.Marker.PointIn; Mackie.Marker.PointOut; Mackie.Marker.Home;
   Mackie.Marker.End_].
Definition utility_notes : list Z :=
  [Mackie.Utility.Undo; Mackie.Utility.Cancel; Mackie.Utility.Enter;
   Mackie.Utility.Redo; Mackie.Utility.Marker; Mackie.Utility.Mixer].
Definition automation_notes : list Z :=
  [Mackie.Automation.On; Mackie.Automation.Record_; Mackie.Automation.Snapshot;
   Mackie.Automation.Touch].

(** The latches of the transport and bank buttons. *)
Definition transport_latch (b : TransportButton.t) (s : State) : bool :=
  match b with
  | TransportButton.Rewind => transport_rewind (_transport s)
  | TransportButton.Forward => transport_forward (_transport s)
  | TransportButton.Stop => transport_stop (_transport s)
  | TransportButton.Play => transport_play (_transport s)
  | TransportButton.Record_ => transport_record (_transport s)
  end.

(** An argument of [dispatchSystemExclusive]: bytes, [len] of them, where
    [len] is small enough for the [uint32_t] sum [start + l] not to wrap
    around. *)
Definition sysex_input (buffer : list Z) : Prop :=
  Forall (fun b => 0 <= b <= 255) buffer /\
  Z.of_nat (length buffer) <= 2 ^ 32 - 256.

(** The start offset and the text length [l] of a display frame. *)
Definition sysex_start (buffer : list Z) : Z := byte_at buffer 6.
Definition sysex_text_length (buffer : list Z) : Z := Z.of_nat (length buffer) - 8.

(** The number of notifications for one strip and row. *)
Definition is_strip_display (strip row : Z) (e : Event) : bool :=
  match e with
  | handleStripDisplay _ strip' row' => (strip' =? strip) && (row' =? row)
  | _ => false
  end.

Definition is_timeout (e : Event) : bool :=
  match e with handleTimeout => true | _ => false end.

Definition count_events (f : Event -> bool) (evs : list Event) : nat :=
  length (List.filter f evs).


(** A frame that passes every test of [dispatchSystemExclusive]: 8 bytes
    or more, the vendor prefix, one of the two unit ids, the display type,
    and a text that ends within the 112 bytes of the display. *)
Definition display_frame (buffer : list Z) : Prop :=
  8 <= Z.of_nat (length buffer) /\
  take 3 (drop 1 buffer) = Mackie.Message.Vendor /\
  (byte_at buffer 4 = Mackie.Message.Device.Control \/
   byte_at buffer 4 = Mackie.Message.Device.ControlXT) /\
  byte_at buffer 5 = Mackie.Message.Type_.Display /\
  sysex_start buffer + sysex_text_length buffer <= 112.

(** Block [b] of the display, the 7 characters from [7 * b], is touched by
    a frame when it meets the range [start, start + l) the frame writes. *)
Definition touched (buffer : list Z) (b : Z) : Prop :=
  sysex_start buffer < 7 * b + 7 /\
  7 * b < sysex_start buffer + sysex_text_length buffer.

(** The display after the [memcpy] of a frame. *)
Definition display_after (buffer : list Z) (old : list Z) : list Z :=
  take (Z.to_nat (sysex_start buffer)) old
  ++ take (Z.to_nat (sysex_text_length buffer)) (drop 7 buffer)
  ++ drop (Z.to_nat (sysex_start buffer + sysex_text_length buffer)) old.

(** The error of decoding the pitch bend value of step [k] of a fader,
    against [k / 16368]: the decoded fraction is at most [2^-25] above,
    and, for [k >= 1], less than [2^(log2 k - 24) / 16368] below. *)
Definition decode_step_ok (k : Z) : bool :=
  let decoded := float_to_Q (pitch_bend_fraction (k - 8192)) in
  Qle_bool (decoded - (k # 16368)) (1 # 33554432) &&
  negb (Qle_bool (2 ^ Z.log2 k # 274609471488) ((k # 16368) - decoded)).

(** The binary32 value [2049 * 2^-25], a little above [1/16384]. *)
Definition fraction_2049 : float := S754_finite false 8392704 (-37).

(** The second frame Ableton sends, as quoted in the source: the second
    row of the display, 56 characters from offset 56. *)
Definition ableton_second_row : list Z :=
  [0xf0; 0x00; 0x00; 0x66; 0x14; 0x12; 0x38] ++
  replicate 16 0x20 ++ [0x43] ++ replicate 6 0x20 ++ [0x43] ++ replicate 32 0x20 ++
  [0xf7].

(** A call with a well-typed argument. *)
Definition input_ok (i : Input) : Prop :=
  match i with
  | SystemExclusive buffer _ => sysex_input buffer
  | _ => True
  end.

(** ** Vocabulary of the round trips and the closed forms *)

(** The latch a strip button is mirrored in. *)
Definition strip_latch (b : StripButton.t) (st : Strip) : bool :=
  match b with
  | StripButton.Arm => button_arm (button st)
  | StripButton.Mute => button_mute (button st)
  | StripButton.Select => button_select (button st)
  | StripButton.Solo => button_solo (button st)
  | StripButton.Touch => fader_touch (fader st)
  | StripButton.VPot => vpot_click (vpot st)
  end.

(** Whether the decoder looks at a packet at all: notes on channel 0, the
    ping note on channel 15, controllers and channel pressure on channel
    0, pitch bends on channels 0 to 8. *)
Definition addressed (packet : Packet) : bool :=
  match packet with
  | NoteOn channel note _ | NoteOff channel note =>
      (channel =? 0) || ((channel =? 15) && (note =? Mackie.Protocol.Ping))
  | ControlChange channel _ _ | AftertouchChannel channel _ => channel =? 0
  | PitchBend channel _ => (0 <=? channel) && (channel <=? 8)
  | Other _ _ => false
  end.

(** The members of the state outside the strips are the same. *)
Definition same_globals (s s' : State) : Prop :=
  _active_usec s' = _active_usec s /\ _display s' = _display s /\
  _main_fader s' = _main_fader s /\ _bank s' = _bank s /\
  _transport s' = _transport s /\ _navigation s' = _navigation s.

(** Changing one strip keeps the other strips and the members outside
    the strips. *)
Definition only_strip (i : Z) (s s' : State) : Prop :=
  (forall j : nat, j <> Z.to_nat i -> _strips s' !! j = _strips s !! j) /\
  same_globals s s'.

(** The clamp of [dispatchPitchBend]: the step a pitch bend value decodes
    as. *)
Definition pitch_bend_step (value : Z) : Z :=
  Z.max 0 (Z.min 16368 (value + 8192)).

(** The mode, centre dot and fraction [dispatchControlChange] reads from
    a rotary LED byte. *)
Definition vpot_decode (value : Z) : VPotMode.t * bool * float :=
  let center := to_bool (Z.land value 0x40) in
  let position := Z.land value 0x0f in
  if position =? 0 then (VPotMode.Off, center, fzero)
  else
    let '(mode, fraction) := vpot_led (Z.land (Z.shiftr value 4) 3) position in
    (mode, center, fraction).

(** The fraction a rotary LED byte stands for, as a rational: position 1
    to 11 of the ring over 11 in the modes Single and Bar, the distance
    from the centre position 6 over 5 in the mode Boost (pan), the
    position over 6 in the mode Spread. *)
Definition vpot_exact (mode position : Z) : Q :=
  if position =? 0 then 0
  else if mode =? Mackie.ChannelStrip.VPot.Boost then (position - 6) # 5
  else if mode =? Mackie.ChannelStrip.VPot.Spread then position # 6
  else position # 11.

(** What the ring shows: nothing at position 0, a pan in the mode Boost,
    a bar in the other modes. *)
Definition vpot_shown (mode position : Z) : VPotMode.t :=
  if position =? 0 then VPotMode.Off
  else if mode =? Mackie.ChannelStrip.VPot.Boost then VPotMode.Pan
  else VPotMode.Bar.

(** Equality of ring modes, as a test. *)
Definition VPotMode_eqb (a b : VPotMode.t) : bool :=
  match a, b with
  | VPotMode.Off, VPotMode.Off | VPotMode.Pan, VPotMode.Pan
  | VPotMode.Bar, VPotMode.Bar => true
  | _, _ => false
  end.

(** Whether the ring of a strip shows anything: a mode other than [Off],
    or the centre dot. *)
Definition ring_lit (st : Strip) : bool :=
  negb (VPotMode_eqb (vpot_mode (vpot st)) VPotMode.Off) || vpot_center (vpot st).

(** A float that is a number: a zero or a finite value, no infinity and
    no NaN. *)
Definition is_number (x : float) : bool :=
  match x with
  | S754_zero _ | S754_finite _ _ _ => true
  | _ => false
  end.

(** The float [+0]. *)
Definition is_fzero (x : float) : bool :=
  match x with S754_zero false => true | _ => false end.

(** The check of one rotary LED byte: bits 0 to 3 are the position, bits
    4 and 5 the mode, bit 6 the centre dot; the fraction is a number
    within [2^-23] of the exact value, and the float [+0] where the exact
    value is 0. *)
Definition vpot_decode_ok (value : Z) : bool :=
  let '(shown, center, fraction) := vpot_decode value in
  let position := value mod 16 in
  let mode := (value / 16) mod 4 in
  VPotMode_eqb shown (vpot_shown mode position) &&
  Bool.eqb center (64 <=? value) &&
  Qle_bool (Qabs (float_to_Q fraction - vpot_exact mode position)) (1 # 8388608) &&
  is_number fraction &&
  (if Qeq_bool (vpot_exact mode position) 0 then is_fzero fraction else true).

(** Whether a meter has lapsed at the clock reading [now]: a level above
    zero whose time stamp is a second old or older, in [unsigned long]
    arithmetic. *)
Definition meter_lapsed (now : Z) (st : Strip) : bool :=
  negb (fle (meter_fraction (meter st)) fzero) &&
  negb (wrap_ulong (now - meter_usec (meter st)) <? 1000 * 1000).

(** Whether the heartbeat has lapsed at the clock reading [now]. *)
Definition heartbeat_lapsed (now : Z) (s : State) : bool :=
  (0 <? _active_usec s) && (5000 * 1000 <? wrap_ulong (now - _active_usec s)).

(** The fraction of the meter level [level], 0 to 13: twelfths, and 13
    is the full level TotalMix sends. *)
Definition level_fraction (level : Z) : float :=
  if level =? 13 then float_of_Z 1 else fdiv (float_of_Z level) (float_of_Z 12).

(** Whether block [b] of the display differs from the cache of its strip
    and row. *)
Definition block_changed (bytes : list Z) (s : State) (b : Z) : bool :=
  negb (bool_decide (block_bytes bytes (b / 8) (b mod 8)
                     = strip_cache s (b mod 8) (b / 8))).

(** The notification of block [b]. *)
Definition block_event (global : list bool) (b : Z) : Event :=
  handleStripDisplay (nth (Z.to_nat (b / 8)) global false) (b mod 8) (b / 8).

(** The members of a strip outside its display cache are the same. *)
Definition same_controls (st st' : Strip) : Prop :=
  vpot st' = vpot st /\ fader st' = fader st /\ button st' = button st /\
  meter st' = meter st.

(** The frame [setStripText] writes for a text of at most 7 characters. *)
Definition strip_text_frame (strip row : Z) (text : list Z) : list Z :=
  [0xf0; 0x00; 0x00; 0x66; 20; 18; 56 * row + 7 * strip]
  ++ (text ++ replicate (7 - length text) 32) ++ [0xf7].

(** The cache of every block mirrors the display, but for the blocks no
    frame has visited since the reset: their caches hold the zero bytes of
    the reset and the display holds spaces. *)
Definition mirrored (s : State) : Prop :=
  forall b, 0 <= b < 16 ->
    strip_cache s (b mod 8) (b / 8)
    = block_bytes (display_strip (_display s)) (b / 8) (b mod 8) \/
    (strip_cache s (b mod 8) (b / 8) = replicate 7 0 /\
     block_bytes (display_strip (_display s)) (b / 8) (b mod 8) = replicate 7 32).





(** A notification of the time display that names the SMPTE type, or any
    other notification. *)
Definition time_event_smpte (e : Event) : Prop :=
  match e with
  | handleTime type => type = TimeType.SMPTE
  | _ => True
  end.

(** ** Tactics *)

(** Linear arithmetic with division and remainder by constants. *)
Ltac dlia := Z.div_mod_to_equations; lia.

(** Case analysis on a strip index from 0 to 7. *)
Ltac each_strip H :=
  match type of H with
  | 0 <= ?strip <= 7 =>
      assert (strip = 0 \/ strip = 1 \/ strip = 2 \/ strip = 3 \/
              strip = 4 \/ strip = 5 \/ strip = 6 \/ strip = 7)
        as [->|[->|[->|[->|[->|[->|[->| ->]]]]]]] by lia
  end.

(** * Properties *)

(** ** Machine integers and the strip array *)

Lemma wrap8_small z : 0 <= z < 256 -> wrap8 z = z.
Proof. intros H. unfold wrap8. apply Z.mod_small. exact H. Qed.

Lemma wrap8_range z : 0 <= wrap8 z < 256.
Proof. unfold wrap8. apply Z.mod_pos_bound. lia. Qed.

Lemma wrap8_idem z : wrap8 (wrap8 z) = wrap8 z.
Proof. apply wrap8_small, wrap8_range. Qed.

Lemma wrap32_small z : 0 <= z < 2 ^ 32 -> wrap32 z = z.
Proof. intros H. unfold wrap32. apply Z.mod_small. exact H. Qed.

Lemma wrap_int16_small z : -32768 <= z <= 32767 -> wrap_int16 z = z.
Proof. intros H. unfold wrap_int16. rewrite Z.mod_small; lia. Qed.

Lemma strip_at_update_eq i f s :
  0 <= i < Z.of_nat (length (_strips s)) ->
  strip_at (update_strip i f s) i = f (strip_at s i).
Proof.
  intros H. unfold strip_at, update_strip. simpl.
  apply list_lookup_total_alter_eq. lia.
Qed.

Lemma strip_at_update_ne i j f s :
  0 <= i -> 0 <= j -> i <> j ->
  strip_at (update_strip i f s) j = strip_at s j.
Proof.
  intros Hi Hj Hne. unfold strip_at, update_strip. simpl.
  apply list_lookup_total_alter_ne. lia.
Qed.

Lemma strips_update_ne i (j : nat) f s :
  Z.to_nat i <> j -> _strips (update_strip i f s) !! j = _strips s !! j.
Proof. intros Hne. unfold update_strip. simpl. by apply list_lookup_alter_ne. Qed.

Lemma length_strips_update i f s :
  length (_strips (update_strip i f s)) = length (_strips s).
Proof. unfold update_strip. simpl. apply length_alter. Qed.

(** ** The overload encoder *)

Lemma to_bool_lor_shiftl strip overload :
  to_bool (Z.lor (Z.shiftl strip 4) (of_bool overload))
  = negb ((strip =? 0) && negb overload).
Proof.
  unfold to_bool. f_equal.
  destruct (Z.eqb_spec strip 0) as [->|Hne]; destruct overload; simpl; try reflexivity.
  - apply Z.eqb_neq. intros H. apply Z.lor_eq_0_iff in H as [H _].
    apply Z.shiftl_eq_0_iff in H; lia.
  - apply Z.eqb_neq. intros H. apply Z.lor_eq_0_iff in H as [H _].
    apply Z.shiftl_eq_0_iff in H; lia.
Qed.

(** C1 (as amended): for every strip index and every overload flag,
    [setStripMeterOverload] emits a channel-pressure message on channel 0
    whose whole value byte is 14, except for strip 0 with the flag clear,
    where it is 15. The strip index never reaches the high nibble: the
    conditional operator takes [strip << 4 | overload] as its condition. *)
Theorem setStripMeterOverload_value (strip : Z) (overload : bool) :
  setStripMeterOverload strip overload
  = AftertouchChannel 0 (if (strip =? 0) && negb overload then 15 else 14).
Proof.
  unfold setStripMeterOverload. rewrite to_bool_lor_shiftl.
  destruct ((strip =? 0) && negb overload); reflexivity.
Qed.

(** C1 (as stated) fails: with the overload flag set, and for any strip
    but the first, the value byte is 14 and not 15. *)
Lemma setStripMeterOverload_not_always_15 :
  setStripMeterOverload 0 true = AftertouchChannel 0 14 /\
  setStripMeterOverload 3 false = AftertouchChannel 0 14 /\
  setStripMeterOverload 3 true = AftertouchChannel 0 14.
Proof. repeat split; reflexivity. Qed.

(** ** The text encoder *)

(** The part of C7 that holds: for every strip, every row and every text
    of at most 7 characters, [setStripText] writes a frame of 15 bytes:
    the start byte, the vendor prefix, the unit id 20, the display type
    18, the offset [56 * row + 7 * strip] (as a byte, so modulo 256; the
    offset itself for strips 0 to 7 and rows 0 and 1), a payload of
    exactly 7 characters that is the text followed by spaces, and the end
    byte. *)
Theorem setStripText_frame (strip row : Z) (text : list Z) :
  (length text <= 7)%nat ->
  exists payload,
    setStripText strip row text
    = Some ([0xf0; 0x00; 0x00; 0x66; 20; 18; wrap8 (56 * row + 7 * strip)]
            ++ payload ++ [0xf7], 15) /\
    payload = text ++ replicate (7 - length text) 32 /\
    length payload = 7%nat /\
    (0 <= strip <= 7 -> 0 <= row <= 1 ->
     wrap8 (56 * row + 7 * strip) = 56 * row + 7 * strip).
Proof.
  intros Hlen. exists (text ++ replicate (7 - length text) 32).
  split; [|split; [reflexivity|split]].
  - unfold setStripText.
    rewrite (wrap8_small (Z.of_nat (length text))) by lia.
    replace (7 - Z.of_nat (length text) <? 0) with false
      by (symmetry; apply Z.ltb_ge; lia).
    rewrite Nat2Z.id, firstn_all.
    replace (Z.to_nat (7 - Z.of_nat (length text))) with (7 - length text)%nat by lia.
    cbn [app Mackie.Message.Vendor]. rewrite <- !app_assoc.
    cbn [app length]. rewrite !length_app, length_replicate. cbn [length].
    replace (Z.of_nat (S (S (S (S (S (S (S (length text + (7 - length text + 1))))))))))
      with 15 by lia.
    reflexivity.
  - rewrite length_app, length_replicate. lia.
  - intros Hs Hr. apply wrap8_small. lia.
Qed.

Lemma setStripText_frame_witness :
  exists payload,
    setStripText 3 1 [77; 73; 88]
    = Some ([0xf0; 0x00; 0x00; 0x66; 20; 18; wrap8 (56 * 1 + 7 * 3)]
            ++ payload ++ [0xf7], 15) /\
    payload = [77; 73; 88] ++ replicate (7 - length [77; 73; 88]) 32 /\
    length payload = 7%nat /\
    (0 <= 3 <= 7 -> 0 <= 1 <= 1 -> wrap8 (56 * 1 + 7 * 3) = 56 * 1 + 7 * 3).
Proof. apply (setStripText_frame 3 1 [77; 73; 88]). simpl. lia. Defined.

(** C7: [setStripText] does not truncate. For a text of 8 to 255
    characters [textlen] is more than 7: the whole text is copied, and
    the count [7 - textlen] of the [memset] that pads it, negative as an
    [int], wraps around as a [size_t] to a count beyond any buffer. No
    frame is produced. *)
Theorem setStripText_no_truncation (strip row : Z) (text : list Z) :
  (7 < length text < 256)%nat ->
  setStripText strip row text = None.
Proof.
  intros Hlen. unfold setStripText.
  rewrite (wrap8_small (Z.of_nat (length text))) by lia.
  replace (7 - Z.of_nat (length text) <? 0) with true
    by (symmetry; apply Z.ltb_lt; lia).
  reflexivity.
Qed.

(** The text TOO LONG, 8 characters, for strip 0 of the first row. *)
Lemma setStripText_no_truncation_witness :
  setStripText 0 0 [84; 79; 79; 32; 76; 79; 78; 71] = None.
Proof.
  apply (setStripText_no_truncation 0 0 [84; 79; 79; 32; 76; 79; 78; 71]).
  cbn [length]. lia.
Defined.

(** ** The rotary LED ring *)

(** C8: a controller change in the LED range on channel 0 whose position
    nibble is 0 sets the vpot of the strip to mode [Off] with value 0 (the
    center flag follows bit 6) and notifies [Off], whatever the mode bits 4
    and 5 of the value are. The raw-value notification precedes it. *)
Theorem dispatch_vpot_led_position_zero (s : State) (controller value now : Z) :
  length (_strips s) = 8%nat ->
  Mackie.ChannelStrip.VPot.LED <= controller <= Mackie.ChannelStrip.VPot.LED + 7 ->
  Z.land value 0x0f = 0 ->
  let strip := controller - Mackie.ChannelStrip.VPot.LED in
  let center := to_bool (Z.land value 0x40) in
  let s' := fst (dispatchPacket (ControlChange 0 controller value) now s) in
  let evs := snd (dispatchPacket (ControlChange 0 controller value) now s) in
  vpot_mode (vpot (strip_at s' strip)) = VPotMode.Off /\
  vpot_value (vpot (strip_at s' strip)) = fzero /\
  vpot_center (vpot (strip_at s' strip)) = center /\
  evs = [handleStripVPotDisplayValue strip value;
         handleStripVPotDisplay strip VPotMode.Off center fzero].
Proof.
  intros Hlen Hc Hpos strip center.
  unfold Mackie.ChannelStrip.VPot.LED in *.
  assert (Hrun : dispatchPacket (ControlChange 0 controller value) now s
                 = (update_strip strip (set_vpot_display VPotMode.Off center fzero) s,
                    [handleStripVPotDisplayValue strip value;
                     handleStripVPotDisplay strip VPotMode.Off center fzero])).
  { unfold dispatchPacket, dispatchControlChange, in_strip_range.
    unfold Mackie.Display.Time.Digit, Mackie.ChannelStrip.VPot.LED.
    rewrite Hpos. cbn [Z.eqb negb].
    replace (64 <=? controller) with false by (symmetry; apply Z.leb_gt; lia).
    cbn [andb].
    replace (48 <=? controller) with true by (symmetry; apply Z.leb_le; lia).
    replace (controller <=? 48 + 7) with true by (symmetry; apply Z.leb_le; lia).
    reflexivity. }
  cbv zeta. rewrite Hrun. cbn [fst snd].
  rewrite strip_at_update_eq by (subst strip; lia).
  repeat split; reflexivity.
Qed.

Lemma dispatch_vpot_led_position_zero_witness :
  let s := reset in
  let controller := 50 in
  let value := 0x70 in
  let strip := controller - Mackie.ChannelStrip.VPot.LED in
  let center := to_bool (Z.land value 0x40) in
  let s' := fst (dispatchPacket (ControlChange 0 controller value) 0 s) in
  let evs := snd (dispatchPacket (ControlChange 0 controller value) 0 s) in
  vpot_mode (vpot (strip_at s' strip)) = VPotMode.Off /\
  vpot_value (vpot (strip_at s' strip)) = fzero /\
  vpot_center (vpot (strip_at s' strip)) = center /\
  evs = [handleStripVPotDisplayValue strip value;
         handleStripVPotDisplay strip VPotMode.Off center fzero].
Proof.
  apply (dispatch_vpot_led_position_zero reset 50 0x70 0).
  - reflexivity.
  - unfold Mackie.ChannelStrip.VPot.LED. lia.
  - reflexivity.
Defined.

(** ** The meters *)

Lemma land_15_range z : 0 <= Z.land z 0xf <= 15.
Proof.
  split.
  - apply Z.land_nonneg. right. lia.
  - change (Z.land z 0xf) with (Z.land z (Z.ones 4)). rewrite Z.land_ones by lia.
    change (2 ^ 4) with 16. pose proof (Z.mod_pos_bound z 16). lia.
Qed.

(** C10: an accepted meter message (channel 0, strip nibble at most 7)
    with low nibble 14 or 15 leaves the meter fraction of its strip as it
    was, one with low nibble 0 to 13 leaves the overload flag of its strip
    as it was, and either way every other strip keeps all of its state. *)
Theorem dispatchAftertouchChannel_frame (s : State) (pressure now : Z) :
  length (_strips s) = 8%nat ->
  0 <= pressure ->
  Z.shiftr pressure 4 <= 7 ->
  let index := Z.shiftr pressure 4 in
  let value := Z.land pressure 0xf in
  let s' := fst (dispatchPacket (AftertouchChannel 0 pressure) now s) in
  (14 <= value <= 15 ->
   meter_fraction (meter (strip_at s' index))
   = meter_fraction (meter (strip_at s index))) /\
  (0 <= value <= 13 ->
   meter_overload (meter (strip_at s' index))
   = meter_overload (meter (strip_at s index))) /\
  (forall j : nat, j <> Z.to_nat index -> _strips s' !! j = _strips s !! j).
Proof.
  intros Hlen Hp Hidx index value s'.
  assert (Hi : 0 <= index) by (apply Z.shiftr_nonneg; exact Hp).
  assert (Hv : 0 <= value <= 15) by apply land_15_range.
  assert (Hin : 0 <= index < Z.of_nat (length (_strips s))) by lia.
  subst s'. unfold dispatchPacket, dispatchAftertouchChannel.
  cbn [Z.eqb negb]. fold index. fold value.
  replace (7 <? index) with false by (symmetry; apply Z.ltb_ge; lia).
  destruct (Z.leb_spec 0 value); [|lia]. cbn [andb].
  destruct (Z.leb_spec value 12).
  { cbn [fst]. repeat split.
    - intros ?; lia.
    - intros _. rewrite !strip_at_update_eq; rewrite ?length_strips_update; try lia.
      reflexivity.
    - intros j Hj. rewrite !strips_update_ne by lia. reflexivity. }
  destruct (Z.eqb_spec value 13).
  { cbn [fst]. repeat split.
    - intros ?; lia.
    - intros _. rewrite !strip_at_update_eq; rewrite ?length_strips_update; try lia.
      reflexivity.
    - intros j Hj. rewrite !strips_update_ne by lia. reflexivity. }
  destruct (Z.eqb_spec value 14).
  { cbn [fst]. repeat split.
    - intros _. rewrite !strip_at_update_eq; rewrite ?length_strips_update; try lia.
      reflexivity.
    - intros ?; lia.
    - intros j Hj. rewrite !strips_update_ne by lia. reflexivity. }
  destruct (Z.eqb_spec value 15); [|lia].
  cbn [fst]. repeat split.
  - intros _. rewrite !strip_at_update_eq; rewrite ?length_strips_update; try lia.
    reflexivity.
  - intros ?; lia.
  - intros j Hj. rewrite !strips_update_ne by lia. reflexivity.
Qed.

Lemma dispatchAftertouchChannel_frame_witness :
  let s := reset in
  let pressure := 0x3e in
  let index := Z.shiftr pressure 4 in
  let value := Z.land pressure 0xf in
  let s' := fst (dispatchPacket (AftertouchChannel 0 pressure) 1000 s) in
  (14 <= value <= 15 ->
   meter_fraction (meter (strip_at s' index))
   = meter_fraction (meter (strip_at s index))) /\
  (0 <= value <= 13 ->
   meter_overload (meter (strip_at s' index))
   = meter_overload (meter (strip_at s index))) /\
  (forall j : nat, j <> Z.to_nat index -> _strips s' !! j = _strips s !! j).
Proof.
  apply (dispatchAftertouchChannel_frame reset 0x3e 1000).
  - reflexivity.
  - lia.
  - apply Z.leb_le. reflexivity.
Defined.

(** ** Retargeting a packet to a strip *)

Lemma meter_byte_add strip value :
  0 <= strip <= 7 -> 0 <= value <= 15 ->
  Z.lor (Z.shiftl strip 4) value = 16 * strip + value.
Proof.
  intros Hs Hv.
  assert (Hcases : In strip [0; 1; 2; 3; 4; 5; 6; 7]) by (simpl; lia).
  assert (Hvals : In value [0; 1; 2; 3; 4; 5; 6; 7; 8; 9; 10; 11; 12; 13; 14; 15])
    by (simpl; lia).
  simpl in Hcases, Hvals.
  repeat (destruct Hcases as [<-|Hcases]; [| ]); try contradiction;
    repeat (destruct Hvals as [<-|Hvals]; [reflexivity| ]); contradiction.
Qed.

Lemma meter_byte_index strip value :
  0 <= strip <= 7 -> 0 <= value <= 15 ->
  Z.shiftr (wrap8 (Z.lor (Z.shiftl strip 4) value)) 4 = strip.
Proof.
  intros Hs Hv. rewrite meter_byte_add by assumption.
  rewrite wrap8_small by lia.
  rewrite Z.shiftr_div_pow2 by lia. change (2 ^ 4) with 16.
  symmetry. apply Z.div_unique with value; lia.
Qed.

Lemma meter_byte_value strip value :
  0 <= strip <= 7 -> 0 <= value <= 15 ->
  Z.land (wrap8 (Z.lor (Z.shiftl strip 4) value)) 0xf = value.
Proof.
  intros Hs Hv. rewrite meter_byte_add by assumption.
  rewrite wrap8_small by lia.
  change (Z.land (16 * strip + value) 0xf)
    with (Z.land (16 * strip + value) (Z.ones 4)).
  rewrite Z.land_ones by lia. change (2 ^ 4) with 16.
  symmetry. apply Z.mod_unique with strip; lia.
Qed.

Lemma note_base_range note base :
  note_base note = Some base ->
  In base [Mackie.ChannelStrip.VPot.Push; Mackie.ChannelStrip.Button.Arm;
           Mackie.ChannelStrip.Button.Solo; Mackie.ChannelStrip.Button.Mute;
           Mackie.ChannelStrip.Button.Select; Mackie.ChannelStrip.Fader.Touch] /\
  base <= note <= base + 7.
Proof.
  unfold note_base, in_strip_range.
  repeat match goal with
         | |- context [(?a <=? ?b) && (?c <=? ?d)] =>
             destruct (Z.leb_spec a b); destruct (Z.leb_spec c d); cbn [andb]
         end;
    intros [= <-]; (split; [simpl; tauto | lia]).
Qed.

Lemma note_base_retarget base strip :
  In base [Mackie.ChannelStrip.VPot.Push; Mackie.ChannelStrip.Button.Arm;
           Mackie.ChannelStrip.Button.Solo; Mackie.ChannelStrip.Button.Mute;
           Mackie.ChannelStrip.Button.Select; Mackie.ChannelStrip.Fader.Touch] ->
  0 <= strip <= 7 ->
  note_base (wrap8 (base + strip)) = Some base /\ wrap8 (base + strip) = base + strip.
Proof.
  intros Hb Hs.
  assert (Hcases : In strip [0; 1; 2; 3; 4; 5; 6; 7]) by (simpl; lia).
  simpl in Hb, Hcases.
  repeat (destruct Hb as [<-|Hb]; [| ]); try contradiction;
    repeat (destruct Hcases as [<-|Hcases]; [split; reflexivity| ]); contradiction.
Qed.

(** The code of [setStripIndex] on a note: the new note in the range of
    the old one. *)
Lemma setStripIndex_NoteOn note velocity strip :
  setStripIndex (NoteOn 0 note velocity) strip
  = match note_base note with
    | Some base => Some (setNote 0 (base + strip) velocity)
    | None => None
    end.
Proof.
  unfold setStripIndex, note_base. cbn [Z.eqb negb].
  repeat match goal with
         | |- context [in_strip_range ?b note] => destruct (in_strip_range b note)
         end; reflexivity.
Qed.

Lemma setStripIndex_NoteOff note strip :
  setStripIndex (NoteOff 0 note) strip
  = match note_base note with
    | Some base => Some (setNoteOff 0 (base + strip))
    | None => None
    end.
Proof.
  unfold setStripIndex, note_base. cbn [Z.eqb negb].
  repeat match goal with
         | |- context [in_strip_range ?b note] => destruct (in_strip_range b note)
         end; reflexivity.
Qed.

Lemma setStripIndex_supported packet range slot strip :
  strip_slot packet = Some (range, slot) ->
  0 <= strip <= 7 ->
  exists q, setStripIndex packet strip = Some q /\
            strip_slot q = Some (range, strip) /\
            setStripIndex q strip = Some q.
Proof.
  intros Hslot Hs.
  destruct packet as [channel note velocity|channel note|channel controller value
                     |channel pressure|channel value|status channel];
    cbn [strip_slot] in Hslot.
  - destruct (Z.eqb_spec channel 0) as [->|]; [|discriminate].
    destruct (note_base note) as [base|] eqn:Hbase; [|discriminate].
    injection Hslot as <- <-.
    pose proof Hbase as Hkeep.
    apply note_base_range in Hbase as [Hin _].
    destruct (note_base_retarget base strip Hin Hs) as [Hb Hw].
    exists (setNote 0 (base + strip) velocity).
    rewrite setStripIndex_NoteOn, Hkeep.
    unfold setNote. change (wrap8 0) with 0.
    split; [reflexivity|].
    cbn [strip_slot Z.eqb]. rewrite setStripIndex_NoteOn, Hb.
    split; [f_equal; f_equal; rewrite Hw; lia|].
    unfold setNote. change (wrap8 0) with 0.
    rewrite wrap8_idem, <- Hw, wrap8_idem. reflexivity.
  - destruct (Z.eqb_spec channel 0) as [->|]; [|discriminate].
    destruct (note_base note) as [base|] eqn:Hbase; [|discriminate].
    injection Hslot as <- <-.
    pose proof Hbase as Hkeep.
    apply note_base_range in Hbase as [Hin _].
    destruct (note_base_retarget base strip Hin Hs) as [Hb Hw].
    exists (setNoteOff 0 (base + strip)).
    rewrite setStripIndex_NoteOff, Hkeep.
    unfold setNoteOff. change (wrap8 0) with 0.
    split; [reflexivity|].
    cbn [strip_slot Z.eqb]. rewrite setStripIndex_NoteOff, Hb.
    split; [f_equal; f_equal; rewrite Hw; lia|].
    unfold setNoteOff. change (wrap8 0) with 0.
    rewrite <- Hw, wrap8_idem. reflexivity.
  - destruct (Z.eqb_spec channel 0) as [->|]; [|discriminate].
    cbn [andb] in Hslot.
    destruct (in_strip_range Mackie.ChannelStrip.VPot.LED controller) eqn:Hr;
      [|discriminate].
    injection Hslot as <- <-.
    assert (Hw : wrap8 (Mackie.ChannelStrip.VPot.LED + strip)
                 = Mackie.ChannelStrip.VPot.LED + strip)
      by (apply wrap8_small; unfold Mackie.ChannelStrip.VPot.LED; lia).
    assert (Hr' : in_strip_range Mackie.ChannelStrip.VPot.LED
                    (Mackie.ChannelStrip.VPot.LED + strip) = true)
      by (unfold in_strip_range; apply andb_true_intro; split; apply Z.leb_le; lia).
    exists (setControlChange 0 (Mackie.ChannelStrip.VPot.LED + strip) value).
    unfold setStripIndex at 1. cbn [Z.eqb negb]. rewrite Hr.
    split; [reflexivity|].
    unfold setControlChange. change (wrap8 0) with 0. rewrite Hw.
    cbn [strip_slot setStripIndex Z.eqb negb andb]. rewrite Hr'.
    split; [f_equal; f_equal; lia|].
    unfold setControlChange. change (wrap8 0) with 0. rewrite Hw, wrap8_idem.
    reflexivity.
  - destruct (Z.eqb_spec channel 0) as [->|]; [|discriminate].
    cbn [andb] in Hslot.
    destruct (Z.leb_spec (Z.shiftr pressure 4) 7) as [Hi|]; [|discriminate].
    injection Hslot as <- <-.
    pose proof (land_15_range pressure) as Hv.
    exists (setAftertouchChannel 0 (Z.lor (Z.shiftl strip 4) (Z.land pressure 0xf))).
    unfold setStripIndex at 1. cbn [Z.eqb negb].
    replace (7 <? Z.shiftr pressure 4) with false by (symmetry; apply Z.ltb_ge; lia).
    split; [reflexivity|].
    unfold setAftertouchChannel. change (wrap8 0) with 0.
    cbn [strip_slot setStripIndex Z.eqb negb andb].
    rewrite meter_byte_index, meter_byte_value by assumption.
    replace (strip <=? 7) with true by (symmetry; apply Z.leb_le; lia).
    replace (7 <? strip) with false by (symmetry; apply Z.ltb_ge; lia).
    split; reflexivity.
  - destruct (0 <=? channel) eqn:H0; [|discriminate]. cbn [andb] in Hslot.
    destruct (channel <=? 7) eqn:H7; [|discriminate].
    injection Hslot as <- <-.
    exists (setPitchBend strip value).
    unfold setStripIndex at 1. rewrite H0, H7. cbn [andb].
    split; [reflexivity|].
    unfold setPitchBend. rewrite (wrap8_small strip) by lia.
    cbn [strip_slot setStripIndex].
    replace (0 <=? strip) with true by (symmetry; apply Z.leb_le; lia).
    replace (strip <=? 7) with true by (symmetry; apply Z.leb_le; lia).
    cbn [andb]. split; [reflexivity|].
    unfold setPitchBend. rewrite (wrap8_small strip) by lia.
    f_equal. f_equal. unfold wrap_int16.
    pose proof (Z.mod_pos_bound (value + 32768) 65536).
    rewrite (Z.mod_small ((value + 32768) mod 65536 - 32768 + 32768)); lia.
  - discriminate.
Qed.

Lemma setStripIndex_unsupported packet strip :
  strip_slot packet = None -> setStripIndex packet strip = None.
Proof.
  destruct packet as [channel note velocity|channel note|channel controller value
                     |channel pressure|channel value|status channel];
    cbn [strip_slot]; intros Hslot.
  - destruct (Z.eqb_spec channel 0) as [->|Hne].
    + rewrite setStripIndex_NoteOn. destruct (note_base note); [discriminate|reflexivity].
    + unfold setStripIndex. apply Z.eqb_neq in Hne. rewrite Hne. reflexivity.
  - destruct (Z.eqb_spec channel 0) as [->|Hne].
    + rewrite setStripIndex_NoteOff. destruct (note_base note); [discriminate|reflexivity].
    + unfold setStripIndex. apply Z.eqb_neq in Hne. rewrite Hne. reflexivity.
  - unfold setStripIndex. destruct (channel =? 0); [|reflexivity].
    cbn [andb negb] in *.
    destruct (in_strip_range Mackie.ChannelStrip.VPot.LED controller);
      [discriminate|reflexivity].
  - unfold setStripIndex. destruct (channel =? 0); [|reflexivity].
    cbn [andb negb] in *.
    destruct (Z.leb_spec (Z.shiftr pressure 4) 7); [discriminate|].
    replace (7 <? Z.shiftr pressure 4) with true by (symmetry; apply Z.ltb_lt; lia).
    reflexivity.
  - unfold setStripIndex.
    destruct ((0 <=? channel) && (channel <=? 7)); [discriminate|reflexivity].
  - reflexivity.
Qed.

(** C6 (as amended): on every per-strip message shape (the six note
    ranges on channel 0, for note-on and note-off; the LED controllers on
    channel 0; channel pressure on channel 0 with strip nibble up to 7;
    pitch bend on channels 0 to 7) and every target strip 0 to 7,
    [setStripIndex] returns a message of the same range at slot [strip];
    applying it again with the same strip returns that message unchanged;
    as a map from target strips to slots it is one-to-one and reaches each
    of the 8 slots. It returns null on every other shape: among them every
    transport button note, every note, controller and channel pressure
    message on a non-zero channel, and every pitch bend on a channel above
    7. *)
Theorem setStripIndex_retarget :
  (forall packet range slot strip,
      strip_slot packet = Some (range, slot) ->
      0 <= strip <= 7 ->
      exists q, setStripIndex packet strip = Some q /\
                strip_slot q = Some (range, strip) /\
                setStripIndex q strip = Some q) /\
  (forall packet range slot strip1 strip2,
      strip_slot packet = Some (range, slot) ->
      0 <= strip1 <= 7 -> 0 <= strip2 <= 7 ->
      setStripIndex packet strip1 = setStripIndex packet strip2 ->
      strip1 = strip2) /\
  (forall packet strip,
      strip_slot packet = None -> setStripIndex packet strip = None) /\
  (forall button on strip,
      setStripIndex (setTransportButton button on) strip = None) /\
  (forall packet strip,
      packet_channel packet <> 0 -> is_pitch_bend packet = false ->
      setStripIndex packet strip = None) /\
  (forall channel value strip,
      7 < channel -> setStripIndex (PitchBend channel value) strip = None).
Proof.
  split; [exact setStripIndex_supported|].
  split.
  { intros packet range slot strip1 strip2 Hslot H1 H2 Heq.
    destruct (setStripIndex_supported packet range slot strip1 Hslot H1)
      as (q1 & Hq1 & Hs1 & _).
    destruct (setStripIndex_supported packet range slot strip2 Hslot H2)
      as (q2 & Hq2 & Hs2 & _).
    rewrite Hq1, Hq2 in Heq. injection Heq as <-. congruence. }
  split; [exact setStripIndex_unsupported|].
  split.
  { intros button on strip. apply setStripIndex_unsupported.
    destruct button; reflexivity. }
  split.
  { intros packet strip Hch Hpb. apply setStripIndex_unsupported.
    destruct packet; cbn [packet_channel is_pitch_bend strip_slot] in *;
      try discriminate; try reflexivity;
      apply Z.eqb_neq in Hch; rewrite Hch; reflexivity. }
  intros channel value strip Hch. apply setStripIndex_unsupported.
  cbn [strip_slot].
  replace (channel <=? 7) with false by (symmetry; apply Z.leb_gt; lia).
  rewrite andb_false_r. reflexivity.
Qed.

(** C6 (as stated) fails on "any message on a non-zero channel": a pitch
    bend on channel 3 is retargeted, not refused. *)
Lemma setStripIndex_pitch_bend_channel_3 :
  packet_channel (PitchBend 3 100) <> 0 /\
  setStripIndex (PitchBend 3 100) 5 = Some (PitchBend 5 100).
Proof. split; [discriminate|reflexivity]. Qed.

(** ** Buttons outside the strips *)

(** C2 (as amended): a note-on on channel 0 at the address of
    - a transport button sets the latch of that button to "velocity is 127"
      and notifies the button with that value;
    - the bank buttons Flip and Edit does the same with their latches;
    - the bank buttons Previous, Next and PreviousChannel, and every
      modifier button, notifies the button and leaves the state as it was
      (these buttons have no latch);
    - a navigation button notifies the button, and for the four arrows
      leaves the state as it was;
    - a marker, utility or automation button changes nothing and notifies
      nothing (the class has no hook for them). *)
Theorem dispatchNote_buttons :
  (forall b velocity now s,
      transport_latch b (fst (dispatchPacket (NoteOn 0 (transport_note b) velocity) now s))
      = (velocity =? 127) /\
      snd (dispatchPacket (NoteOn 0 (transport_note b) velocity) now s)
      = [handleTransportButton b (velocity =? 127)]) /\
  (forall velocity now s,
      bank_flip (_bank (fst (dispatchPacket
                               (NoteOn 0 (bank_note BankButton.Flip) velocity) now s)))
      = (velocity =? 127) /\
      snd (dispatchPacket (NoteOn 0 (bank_note BankButton.Flip) velocity) now s)
      = [handleBankButton BankButton.Flip (velocity =? 127)]) /\
  (forall velocity now s,
      bank_edit (_bank (fst (dispatchPacket
                               (NoteOn 0 (bank_note BankButton.Edit) velocity) now s)))
      = (velocity =? 127) /\
      snd (dispatchPacket (NoteOn 0 (bank_note BankButton.Edit) velocity) now s)
      = [handleBankButton BankButton.Edit (velocity =? 127)]) /\
  (forall b velocity now s,
      In b [BankButton.Previous; BankButton.Next; BankButton.PreviousChannel] ->
      dispatchPacket (NoteOn 0 (bank_note b) velocity) now s
      = (s, [handleBankButton b (velocity =? 127)])) /\
  (forall b velocity now s,
      dispatchPacket (NoteOn 0 (modifier_note b) velocity) now s
      = (s, [handleModifierButton b (velocity =? 127)])) /\
  (forall b velocity now s,
      snd (dispatchPacket (NoteOn 0 (navigation_note b) velocity) now s)
      = [handleNavigationButton b (velocity =? 127)]) /\
  (forall b velocity now s,
      In b [NavigationButton.Up; NavigationButton.Down;
            NavigationButton.Left; NavigationButton.Right] ->
      fst (dispatchPacket (NoteOn 0 (navigation_note b) velocity) now s) = s) /\
  (forall note velocity now s,
      In note (marker_notes ++ utility_notes ++ automation_notes) ->
      dispatchPacket (NoteOn 0 note velocity) now s = (s, [])).
Proof.
  repeat split.
  - destruct b; reflexivity.
  - destruct b; reflexivity.
  - intros b velocity now s Hb. simpl in Hb.
    repeat (destruct Hb as [<-|Hb]; [reflexivity|]). contradiction.
  - destruct b; reflexivity.
  - destruct b; reflexivity.
  - intros b velocity now s Hb. simpl in Hb.
    repeat (destruct Hb as [<-|Hb]; [reflexivity|]). contradiction.
  - intros note velocity now s Hn. simpl in Hn.
    repeat (destruct Hn as [<-|Hn]; [reflexivity|]). contradiction.
Qed.

(** C2 (as stated) fails: the note-on of a marker button (Home) updates no
    latch and notifies nothing. *)
Lemma dispatchNote_marker_home :
  In Mackie.Marker.Home marker_notes /\
  dispatchPacket (NoteOn 0 Mackie.Marker.Home 127) 0 reset = (reset, []).
Proof. split; [simpl; tauto|reflexivity]. Qed.

(** ** Malformed system exclusive frames *)

Lemma byte_at_range buffer i :
  Forall (fun b => 0 <= b <= 255) buffer -> 0 <= byte_at buffer i <= 255.
Proof.
  intros Hall. unfold byte_at.
  destruct (nth_in_or_default (Z.to_nat i) buffer 0) as [Hin| ->]; [|lia].
  rewrite List.Forall_forall in Hall. apply Hall, Hin.
Qed.

(** C4: a frame that is shorter than the 8 bytes of the smallest message,
    or whose vendor prefix differs from 00 00 66, or whose unit id is
    neither 20 nor 21, or whose start offset plus text length exceeds the
    112 bytes of the display, leaves the whole state as it was and notifies
    nothing. *)
Theorem dispatchSystemExclusive_malformed (buffer : list Z) (global_2 : bool)
    (s : State) :
  sysex_input buffer ->
  Z.of_nat (length buffer) < 8 \/
  take 3 (drop 1 buffer) <> Mackie.Message.Vendor \/
  (byte_at buffer 4 <> Mackie.Message.Device.Control /\
   byte_at buffer 4 <> Mackie.Message.Device.ControlXT) \/
  112 < sysex_start buffer + sysex_text_length buffer ->
  dispatchSystemExclusive buffer global_2 s = Some (s, []).
Proof.
  intros [Hbytes Hlen] Hbad. unfold dispatchSystemExclusive.
  unfold Mackie.Message.Header.Message, Mackie.Message.Header.Vendor,
    Mackie.Message.Header.Device, Mackie.Message.Header.Type_,
    Mackie.Message.Display.Header.Text, Mackie.Message.Display.Header.Index.
  change (1 + 5 + 1 + 1) with 8. change (1 + 0) with 1. change (1 + 3) with 4.
  destruct (Z.ltb_spec (Z.of_nat (length buffer)) 8) as [|Hge]; [reflexivity|].
  change (Z.to_nat 1) with 1%nat.
  destruct (bool_decide_reflect
              (take 3 (drop 1 buffer) = Mackie.Message.Vendor)) as [Hv|];
    [|reflexivity].
  cbn [negb].
  destruct (Z.eqb_spec (byte_at buffer 4) Mackie.Message.Device.Control) as [Hd|Hd];
    destruct (Z.eqb_spec (byte_at buffer 4) Mackie.Message.Device.ControlXT) as [Hx|Hx];
    cbn [negb andb]; try reflexivity.
  all: destruct (byte_at buffer (1 + 4) =? Mackie.Message.Type_.Display); [|reflexivity].
  all: destruct (Z.ltb_spec (Z.of_nat (length buffer)) (1 + 1)); [reflexivity|].
  all: change (1 + 5 + 0) with 6; fold (sysex_start buffer).
  all: replace (Z.of_nat (length buffer) - 2 - 5 - 1)
         with (sysex_text_length buffer) by (unfold sysex_text_length; lia).
  all: assert (Hs : 0 <= sysex_start buffer <= 255) by (apply byte_at_range, Hbytes).
  all: assert (Hl : 0 <= sysex_text_length buffer <= 2 ^ 32 - 264)
         by (unfold sysex_text_length; lia).
  all: rewrite wrap32_small by (change (2 ^ 32) with 4294967296 in *; lia).
  all: destruct (Z.ltb_spec (56 * 2) (sysex_start buffer + sysex_text_length buffer));
    [reflexivity|].
  all: exfalso; destruct Hbad as [?|[?|[[? ?]|?]]]; try lia; try contradiction.
Qed.

Lemma dispatchSystemExclusive_malformed_witness :
  dispatchSystemExclusive
    [0xf0; 0x00; 0x00; 0x66; 0x14; 0x12; 110; 65; 66; 67; 0xf7] false reset
  = Some (reset, []).
Proof.
  apply (dispatchSystemExclusive_malformed
           [0xf0; 0x00; 0x00; 0x66; 0x14; 0x12; 110; 65; 66; 67; 0xf7] false reset).
  - split.
    + repeat constructor; lia.
    + apply Z.leb_le. reflexivity.
  - right. right. right. apply Z.ltb_lt. reflexivity.
Defined.

(** ** The display *)

Lemma wf_strip_at s i :
  wf_state s -> 0 <= i < 8 -> wf_strip (strip_at s i).
Proof.
  intros (_ & Hlen & Hall) Hi. unfold strip_at.
  apply Forall_lookup_total_1; [exact Hall|lia].
Qed.

Lemma length_block_bytes bytes row strip :
  length bytes = 112%nat -> 0 <= row <= 1 -> 0 <= strip <= 7 ->
  length (block_bytes bytes row strip) = 7%nat.
Proof.
  intros Hlen Hr Hs. unfold block_bytes.
  rewrite length_take, length_drop, Hlen. lia.
Qed.

Lemma strip_cache_update s strip0 row0 bytes strip row :
  wf_state s ->
  0 <= strip0 < 8 -> 0 <= row0 < 2 -> 0 <= strip < 8 -> 0 <= row < 2 ->
  strip_cache (update_strip strip0 (set_strip_cache row0 bytes) s) strip row
  = if (strip =? strip0) && (row =? row0) then bytes else strip_cache s strip row.
Proof.
  intros Hwf Hs0 Hr0 Hs Hr. unfold strip_cache.
  destruct (Z.eqb_spec strip strip0) as [->|Hne]; cbn [andb].
  - rewrite strip_at_update_eq by (destruct Hwf as (_ & -> & _); lia).
    destruct (wf_strip_at s strip0 Hwf Hs0) as [Hrows _].
    unfold set_strip_cache. cbn [strip_display with_strip_display].
    rewrite nth_lookup.
    destruct (Z.eqb_spec row row0) as [->|Hrne].
    + rewrite list_lookup_insert_eq by lia. reflexivity.
    + rewrite list_lookup_insert_ne by lia. rewrite <- nth_lookup. reflexivity.
  - rewrite strip_at_update_ne by lia. reflexivity.
Qed.

Lemma wf_state_update_cache s strip0 row0 bytes :
  wf_state s -> length bytes = 7%nat ->
  wf_state (update_strip strip0 (set_strip_cache row0 bytes) s).
Proof.
  intros (Hd & Hlen & Hall) Hb. unfold wf_state, update_strip.
  cbn [_display _strips with_strips]. split; [exact Hd|]. split.
  - rewrite length_alter. exact Hlen.
  - apply Forall_alter; [exact Hall|].
    intros st _ [Hrows Hcols]. unfold wf_strip, set_strip_cache.
    cbn [strip_display with_strip_display]. split.
    + rewrite length_insert. exact Hrows.
    + apply Forall_insert; assumption.
Qed.

Lemma wf_state_update_strip i f s :
  (forall st, strip_display (f st) = strip_display st) ->
  wf_state s -> wf_state (update_strip i f s).
Proof.
  intros Hf (Hd & Hlen & Hall). unfold wf_state, update_strip.
  cbn [_display _strips with_strips]. split; [exact Hd|]. split.
  - rewrite length_alter. exact Hlen.
  - apply Forall_alter; [exact Hall|].
    intros st _ Hst. unfold wf_strip. rewrite Hf. exact Hst.
Qed.

(** An assignment to a member of a strip outside its cache. *)
Lemma strip_cache_update_strip i f s strip row :
  (forall st, strip_display (f st) = strip_display st) ->
  strip_cache (update_strip i f s) strip row = strip_cache s strip row.
Proof.
  intros Hf. unfold strip_cache, strip_at, update_strip. cbn [_strips with_strips].
  destruct (decide (Z.to_nat strip = Z.to_nat i)) as [->|Hne].
  - destruct (decide (Z.to_nat i < length (_strips s))%nat).
    + rewrite list_lookup_total_alter_eq by lia. rewrite Hf. reflexivity.
    + rewrite !list_lookup_total_alt, list_lookup_alter_eq.
      rewrite lookup_ge_None_2 by lia. reflexivity.
  - rewrite list_lookup_total_alter_ne by congruence. reflexivity.
Qed.

Lemma count_events_cons f e evs :
  count_events f (e :: evs)
  = ((if f e then 1 else 0) + count_events f evs)%nat.
Proof. unfold count_events. cbn [List.filter]. destruct (f e); reflexivity. Qed.

Lemma is_strip_display_block g b b0 :
  0 <= b < 16 -> 0 <= b0 < 16 ->
  is_strip_display (b mod 8) (b / 8) (handleStripDisplay g (b0 mod 8) (b0 / 8))
  = (b =? b0).
Proof.
  intros Hb Hb0. cbn [is_strip_display].
  destruct (Z.eqb_spec b b0) as [->|Hne].
  - rewrite !Z.eqb_refl. reflexivity.
  - destruct (Z.eqb_spec (b0 mod 8) (b mod 8)); [|reflexivity].
    destruct (Z.eqb_spec (b0 / 8) (b / 8)); [|reflexivity].
    exfalso. apply Hne.
    rewrite (Z.div_mod b 8), (Z.div_mod b0 8) by lia. congruence.
Qed.

(** The loop over blocks [first + i .. first + i + n - 1], all of them
    inside the display: it returns, keeps the display, and settles each
    block of the range as C3 says while leaving the other blocks alone. *)
Lemma display_blocks_spec global global_2 first n i s :
  wf_state s ->
  0 <= first + i ->
  first + i + Z.of_nat n <= 16 ->
  exists s' evs,
    display_blocks global global_2 first n i s = Some (s', evs) /\
    _display s' = _display s /\
    wf_state s' /\
    forall b, 0 <= b < 16 ->
      if (first + i <=? b) && (b <? first + i + Z.of_nat n) then
        strip_cache s' (b mod 8) (b / 8)
        = block_bytes (display_strip (_display s)) (b / 8) (b mod 8) /\
        List.filter (is_strip_display (b mod 8) (b / 8)) evs
        = (if bool_decide (block_bytes (display_strip (_display s)) (b / 8) (b mod 8)
                           = strip_cache s (b mod 8) (b / 8))
           then []
           else [handleStripDisplay (nth (Z.to_nat (b / 8)) global false)
                   (b mod 8) (b / 8)])
      else
        strip_cache s' (b mod 8) (b / 8) = strip_cache s (b mod 8) (b / 8) /\
        List.filter (is_strip_display (b mod 8) (b / 8)) evs = [].
Proof.
  revert i s. induction n as [|n IH]; intros i s Hwf Hlo Hhi.
  - exists s, []. cbn [display_blocks].
    split; [reflexivity|]. split; [reflexivity|]. split; [exact Hwf|].
    intros b Hb.
    replace ((first + i <=? b) && (b <? first + i + Z.of_nat 0)) with false
      by (symmetry; apply andb_false_iff; destruct (Z.leb_spec (first + i) b);
          [right; apply Z.ltb_ge; lia|left; reflexivity]).
    split; reflexivity.
  - cbn [display_blocks].
    set (b0 := first + i) in *.
    assert (Hb0 : 0 <= b0 < 16) by lia.
    rewrite (wrap8_small (b0 mod 8)) by dlia.
    rewrite (wrap8_small (b0 / 8)) by dlia.
    replace (2 <=? b0 / 8) with false by (symmetry; apply Z.leb_gt; dlia).
    set (cur0 := block_bytes (display_strip (_display s)) (b0 / 8) (b0 mod 8)).
    assert (Hcur0 : length cur0 = 7%nat).
    { apply length_block_bytes; [apply Hwf|dlia|dlia]. }
    destruct (bool_decide_reflect (cur0 = strip_cache s (b0 mod 8) (b0 / 8))) as [Heq|Hne].
    + destruct (IH (i + 1) s Hwf) as (s' & evs & Hrun & Hd & Hwf' & Hblocks); [lia|lia|].
      exists s', evs. split; [exact Hrun|]. split; [exact Hd|]. split; [exact Hwf'|].
      intros b Hb. specialize (Hblocks b Hb).
      replace (first + (i + 1)) with (b0 + 1) in Hblocks by lia.
      replace (b0 + Z.of_nat (S n)) with (b0 + 1 + Z.of_nat n) by lia.
      destruct (Z.eq_dec b b0) as [->|Hbne].
      * replace ((b0 + 1 <=? b0) && (b0 <? b0 + 1 + Z.of_nat n)) with false in Hblocks
          by (symmetry; apply andb_false_iff; left; apply Z.leb_gt; lia).
        replace ((b0 <=? b0) && (b0 <? b0 + 1 + Z.of_nat n)) with true
          by (symmetry; apply andb_true_iff; split; [apply Z.leb_le|apply Z.ltb_lt]; lia).
        destruct Hblocks as [Hc Hn]. fold cur0 in Hc |- *.
        rewrite Hc, Hn. rewrite bool_decide_eq_true_2 by exact Heq.
        split; [symmetry; exact Heq|reflexivity].
      * replace (b0 <=? b) with (b0 + 1 <=? b)
          by (destruct (Z.leb_spec (b0 + 1) b); symmetry;
              [apply Z.leb_le|apply Z.leb_gt]; lia).
        exact Hblocks.
    + set (s1 := update_strip (b0 mod 8) (set_strip_cache (b0 / 8) cur0) s).
      assert (Hwf1 : wf_state s1) by (apply wf_state_update_cache; assumption).
      destruct (IH (i + 1) s1 Hwf1) as (s' & evs & Hrun & Hd & Hwf' & Hblocks); [lia|lia|].
      rewrite Hrun.
      exists s', (handleStripDisplay (nth (Z.to_nat (b0 / 8)) global false)
                    (b0 mod 8) (b0 / 8) :: evs).
      split; [reflexivity|]. split; [exact Hd|]. split; [exact Hwf'|].
      intros b Hb. specialize (Hblocks b Hb).
      change (display_strip (_display s1)) with (display_strip (_display s)) in Hblocks.
      replace (first + (i + 1)) with (b0 + 1) in Hblocks by lia.
      replace (b0 + Z.of_nat (S n)) with (b0 + 1 + Z.of_nat n) by lia.
      cbn [List.filter]. rewrite is_strip_display_block by assumption.
      unfold s1 in Hblocks.
      rewrite strip_cache_update in Hblocks by (first [assumption | dlia]).
      destruct (Z.eqb_spec b b0) as [->|Hbne].
      * rewrite !Z.eqb_refl in Hblocks. cbn [andb] in Hblocks.
        replace ((b0 + 1 <=? b0) && (b0 <? b0 + 1 + Z.of_nat n)) with false in Hblocks
          by (symmetry; apply andb_false_iff; left; apply Z.leb_gt; lia).
        replace ((b0 <=? b0) && (b0 <? b0 + 1 + Z.of_nat n)) with true
          by (symmetry; apply andb_true_iff; split; [apply Z.leb_le|apply Z.ltb_lt]; lia).
        destruct Hblocks as [Hc Hn]. fold cur0 in Hc |- *.
        rewrite Hc, Hn. rewrite bool_decide_eq_false_2 by exact Hne.
        split; reflexivity.
      * replace ((b mod 8 =? b0 mod 8) && (b / 8 =? b0 / 8)) with false in Hblocks.
        2:{ symmetry. apply andb_false_iff.
            destruct (Z.eqb_spec (b mod 8) (b0 mod 8)); [|left; reflexivity].
            destruct (Z.eqb_spec (b / 8) (b0 / 8)); [|right; reflexivity].
            exfalso. apply Hbne.
            rewrite (Z.div_mod b 8), (Z.div_mod b0 8) by lia. congruence. }
        replace (b0 <=? b) with (b0 + 1 <=? b)
          by (destruct (Z.leb_spec (b0 + 1) b); symmetry;
              [apply Z.leb_le|apply Z.leb_gt]; lia).
        exact Hblocks.
Qed.

(** The loop over [n + m] blocks is the loop over [n] blocks followed by
    the loop over the [m] blocks after them. *)
Lemma display_blocks_app global global_2 first n m i s :
  display_blocks global global_2 first (n + m) i s
  = match display_blocks global global_2 first n i s with
    | Some (s1, evs1) =>
        match display_blocks global global_2 first m (i + Z.of_nat n) s1 with
        | Some (s2, evs2) => Some (s2, evs1 ++ evs2)
        | None => None
        end
    | None => None
    end.
Proof.
  revert i s. induction n as [|n IH]; intros i s.
  - cbn [Nat.add display_blocks]. replace (i + Z.of_nat 0) with i by lia.
    destruct (display_blocks global global_2 first m i s) as [[s2 evs2]|]; reflexivity.
  - cbn [Nat.add display_blocks].
    replace (i + Z.of_nat (S n)) with (i + 1 + Z.of_nat n) by lia.
    repeat match goal with
           | |- context [if ?b then _ else _] => destruct b
           | |- context [match ring_of_bytes ?b with _ => _ end] =>
               destruct (ring_of_bytes b) as [[? ?]|]
           end;
      try reflexivity; try apply IH.
    all: rewrite IH.
    all: repeat match goal with
           | |- context [match display_blocks ?g ?g2 ?f ?k ?j ?s1 with _ => _ end] =>
               destruct (display_blocks g g2 f k j s1) as [[? ?]|]
           end.
    all: reflexivity.
Qed.

(** Block 16, behind the arrays, in a state whose members behind
    [_display.strip] hold zero bytes: the 7 bytes differ from those behind
    the cache of strip 0 when the ring of strip 0 is lit (a mode other
    than [Off], or the centre dot); the copy then clears the ring mode and
    the centre dot, and [handleStripDisplay] is called with row 2. *)
Lemma display_blocks_behind global global_2 first i s :
  first + i = 16 ->
  display_untouched s ->
  display_blocks global global_2 first 1 i s
  = Some (if ring_lit (strip_at s 0)
          then (update_strip 0 (set_vpot_ring VPotMode.Off false) s,
                [handleStripDisplay global_2 0 2])
          else (s, [])).
Proof.
  intros Hb [Hm Ht]. cbn [display_blocks]. rewrite Hb.
  change (wrap8 (16 mod 8)) with 0. change (wrap8 (16 / 8)) with 2.
  cbn [Z.leb Z.eqb andb Z.compare Pos.compare Pos.compare_cont Pos.eqb].
  unfold behind_display, behind_cache, ring_lit. rewrite Hm, Ht.
  destruct (vpot_mode (vpot (strip_at s 0))), (vpot_center (vpot (strip_at s 0)));
    reflexivity.
Qed.

Lemma dispatchSystemExclusive_display buffer global_2 s :
  sysex_input buffer ->
  display_frame buffer ->
  let bytes := display_after buffer (display_strip (_display s)) in
  dispatchSystemExclusive buffer global_2 s
  = display_blocks [row_global bytes 0; row_global bytes 8] global_2
      (sysex_start buffer / 7)
      (Z.to_nat (1 + ((sysex_start buffer + sysex_text_length buffer) / 7
                      - sysex_start buffer / 7)))
      0 (with_display (with_display_strip bytes (_display s)) s).
Proof.
  intros [Hbytes Hlen] (Hge & Hv & Hd & Ht & Hfit) bytes.
  assert (Hs : 0 <= sysex_start buffer <= 255) by (apply byte_at_range, Hbytes).
  assert (Hl : 0 <= sysex_text_length buffer) by (unfold sysex_text_length; lia).
  unfold dispatchSystemExclusive.
  unfold Mackie.Message.Header.Message, Mackie.Message.Header.Vendor,
    Mackie.Message.Header.Device, Mackie.Message.Header.Type_,
    Mackie.Message.Display.Header.Text, Mackie.Message.Display.Header.Index.
  change (1 + 5 + 1 + 1) with 8. change (1 + 0) with 1. change (1 + 3) with 4.
  change (1 + 4) with 5. change (1 + 5 + 0) with 6. change (1 + 5 + 1) with 7.
  change (Z.to_nat 1) with 1%nat. change (Z.to_nat 7) with 7%nat.
  replace (Z.of_nat (length buffer) <? 8) with false by (symmetry; apply Z.ltb_ge; lia).
  rewrite bool_decide_eq_true_2 by exact Hv. cbn [negb].
  replace (negb (byte_at buffer 4 =? Mackie.Message.Device.Control) &&
           negb (byte_at buffer 4 =? Mackie.Message.Device.ControlXT)) with false.
  2:{ symmetry. destruct Hd as [-> | ->]; reflexivity. }
  rewrite Ht, Z.eqb_refl.
  replace (Z.of_nat (length buffer) <? 1 + 1) with false
    by (symmetry; apply Z.ltb_ge; lia).
  fold (sysex_start buffer).
  replace (Z.of_nat (length buffer) - 2 - 5 - 1)
    with (sysex_text_length buffer) by (unfold sysex_text_length; lia).
  rewrite wrap32_small by (change (2 ^ 32) with 4294967296; lia).
  replace (56 * 2 <? sysex_start buffer + sysex_text_length buffer) with false
    by (symmetry; apply Z.ltb_ge; lia).
  rewrite (wrap8_small (sysex_start buffer / 7)) by dlia.
  rewrite (wrap8_small ((sysex_start buffer + sysex_text_length buffer) / 7)) by dlia.
  rewrite wrap8_small by dlia.
  reflexivity.
Qed.

(** A frame is dropped with nothing written, or it is a display frame. *)
Lemma dispatchSystemExclusive_cases buffer global_2 s :
  sysex_input buffer ->
  dispatchSystemExclusive buffer global_2 s = Some (s, []) \/ display_frame buffer.
Proof.
  intros [Hbytes Hlen].
  assert (Hs : 0 <= sysex_start buffer <= 255) by (apply byte_at_range, Hbytes).
  unfold dispatchSystemExclusive, display_frame.
  unfold Mackie.Message.Header.Message, Mackie.Message.Header.Vendor,
    Mackie.Message.Header.Device, Mackie.Message.Header.Type_,
    Mackie.Message.Display.Header.Text, Mackie.Message.Display.Header.Index.
  change (1 + 5 + 1 + 1) with 8. change (1 + 5 + 0) with 6.
  change (1 + 0) with 1. change (1 + 3) with 4. change (1 + 4) with 5.
  change (Z.to_nat 1) with 1%nat.
  fold (sysex_start buffer).
  destruct (Z.ltb_spec (Z.of_nat (length buffer)) 8) as [|Hge]; [left; reflexivity|].
  replace (Z.of_nat (length buffer) - 2 - 5 - 1)
    with (sysex_text_length buffer) by (unfold sysex_text_length; lia).
  assert (Hl : 0 <= sysex_text_length buffer <= 2 ^ 32 - 264)
    by (unfold sysex_text_length; lia).
  rewrite wrap32_small by (change (2 ^ 32) with 4294967296 in *; lia).
  destruct (bool_decide_reflect (take 3 (drop 1 buffer) = Mackie.Message.Vendor))
    as [Hv|]; cbn [negb]; [|left; reflexivity].
  destruct (Z.eqb_spec (byte_at buffer 4) Mackie.Message.Device.Control) as [Hd|Hd];
    cbn [negb andb].
  - destruct (Z.eqb_spec (byte_at buffer 5) Mackie.Message.Type_.Display) as [Ht|];
      [|left; reflexivity].
    destruct (Z.ltb_spec (Z.of_nat (length buffer)) (1 + 1)); [left; reflexivity|].
    destruct (Z.ltb_spec (56 * 2) (sysex_start buffer + sysex_text_length buffer));
      [left; reflexivity|].
    right. split; [lia|]. split; [exact Hv|]. split; [left; exact Hd|].
    split; [exact Ht|lia].
  - destruct (Z.eqb_spec (byte_at buffer 4) Mackie.Message.Device.ControlXT) as [Hx|];
      cbn [negb]; [|left; reflexivity].
    destruct (Z.eqb_spec (byte_at buffer 5) Mackie.Message.Type_.Display) as [Ht|];
      [|left; reflexivity].
    destruct (Z.ltb_spec (Z.of_nat (length buffer)) (1 + 1)); [left; reflexivity|].
    destruct (Z.ltb_spec (56 * 2) (sysex_start buffer + sysex_text_length buffer));
      [left; reflexivity|].
    right. split; [lia|]. split; [exact Hv|]. split; [right; exact Hx|].
    split; [exact Ht|lia].
Qed.

Lemma length_display_after buffer old :
  sysex_input buffer -> display_frame buffer -> length old = 112%nat ->
  length (display_after buffer old) = 112%nat.
Proof.
  intros [Hbytes Hlen] (Hge & _ & _ & _ & Hfit) Hold.
  assert (Hs : 0 <= sysex_start buffer <= 255) by (apply byte_at_range, Hbytes).
  unfold display_after. rewrite !length_app, !length_take, !length_drop, Hold.
  unfold sysex_text_length in *. lia.
Qed.

Lemma wf_state_reset : wf_state reset.
Proof.
  split; [reflexivity|]. split; [reflexivity|].
  apply Forall_replicate. split; [reflexivity|].
  apply Forall_replicate. reflexivity.
Qed.

Lemma display_untouched_reset : display_untouched reset.
Proof. split; reflexivity. Qed.

(** Row 2 is the row of no block of the display. *)
Lemma is_strip_display_behind g b :
  0 <= b < 16 ->
  is_strip_display (b mod 8) (b / 8) (handleStripDisplay g 0 2) = false.
Proof.
  intros Hb. cbn [is_strip_display]. apply andb_false_iff. right.
  apply Z.eqb_neq. dlia.
Qed.

(** The whole loop of a display frame: the blocks of the display from
    [first] to [last], and block 16 behind them when the text ends at the
    last byte of the display. *)
Lemma display_frame_blocks buffer global_2 s :
  sysex_input buffer ->
  wf_state s ->
  display_untouched s ->
  display_frame buffer ->
  let bytes := display_after buffer (display_strip (_display s)) in
  let first := sysex_start buffer / 7 in
  let last := (sysex_start buffer + sysex_text_length buffer) / 7 in
  exists s' evs,
    dispatchSystemExclusive buffer global_2 s = Some (s', evs) /\
    _display s' = with_display_strip bytes (_display s) /\
    wf_state s' /\
    forall b, 0 <= b < 16 ->
      if (first <=? b) && (b <=? last) then
        strip_cache s' (b mod 8) (b / 8) = block_bytes bytes (b / 8) (b mod 8) /\
        List.filter (is_strip_display (b mod 8) (b / 8)) evs
        = (if bool_decide (block_bytes bytes (b / 8) (b mod 8)
                           = strip_cache s (b mod 8) (b / 8))
           then []
           else [handleStripDisplay (row_global bytes (8 * (b / 8))) (b mod 8) (b / 8)])
      else
        strip_cache s' (b mod 8) (b / 8) = strip_cache s (b mod 8) (b / 8) /\
        List.filter (is_strip_display (b mod 8) (b / 8)) evs = [].
Proof.
  intros Hin Hwf Hun Hframe bytes first last.
  pose proof Hin as [Hbytes Hlen]. pose proof Hframe as (Hge & _ & _ & _ & Hfit).
  assert (Hs : 0 <= sysex_start buffer <= 255) by (apply byte_at_range, Hbytes).
  assert (Hl : 0 <= sysex_text_length buffer) by (unfold sysex_text_length; lia).
  rewrite (dispatchSystemExclusive_display buffer global_2 s Hin Hframe).
  fold bytes first last.
  set (global := [row_global bytes 0; row_global bytes 8]).
  set (s1 := with_display (with_display_strip bytes (_display s)) s).
  assert (Hwf1 : wf_state s1).
  { destruct Hwf as (Hd & Hn & Hall). split; [|split; assumption].
    apply length_display_after; assumption. }
  assert (Hfirst : 0 <= first <= last /\ last <= 16) by (subst first last; dlia).
  assert (Hflag : forall b, 0 <= b < 16 ->
            nth (Z.to_nat (b / 8)) global false = row_global bytes (8 * (b / 8))).
  { intros b Hb. assert (Hrow : b / 8 = 0 \/ b / 8 = 1) by dlia.
    destruct Hrow as [-> | ->]; reflexivity. }
  set (n := Z.to_nat (Z.min 16 (last + 1) - first)).
  destruct (display_blocks_spec global global_2 first n 0 s1 Hwf1)
    as (s' & evs & Hrun & Hd & Hwf' & Hblocks); [lia|lia|].
  assert (Hvisited : forall b, 0 <= b < 16 ->
            (first + 0 <=? b) && (b <? first + 0 + Z.of_nat n)
            = (first <=? b) && (b <=? last)).
  { intros b Hb.
    destruct (Z.leb_spec first b), (Z.leb_spec b last),
      (Z.leb_spec (first + 0) b), (Z.ltb_spec b (first + 0 + Z.of_nat n));
      try reflexivity; lia. }
  destruct (Z.eq_dec last 16) as [Hlast|Hlast].
  - replace (Z.to_nat (1 + (last - first))) with (n + 1)%nat by lia.
    rewrite display_blocks_app, Hrun.
    rewrite display_blocks_behind; [|lia|].
    2:{ unfold display_untouched. rewrite Hd. exact Hun. }
    destruct (ring_lit (strip_at s' 0)).
    + exists (update_strip 0 (set_vpot_ring VPotMode.Off false) s'),
        (evs ++ [handleStripDisplay global_2 0 2]).
      split; [reflexivity|]. split; [exact Hd|].
      split; [apply wf_state_update_strip; [reflexivity|exact Hwf']|].
      intros b Hb. specialize (Hblocks b Hb).
      rewrite Hvisited, Hflag in Hblocks by exact Hb.
      rewrite strip_cache_update_strip by reflexivity.
      rewrite List.filter_app. cbn [List.filter].
      rewrite is_strip_display_behind by exact Hb. rewrite app_nil_r.
      exact Hblocks.
    + exists s', (evs ++ []). split; [reflexivity|]. split; [exact Hd|].
      split; [exact Hwf'|].
      intros b Hb. specialize (Hblocks b Hb).
      rewrite Hvisited, Hflag in Hblocks by exact Hb.
      rewrite app_nil_r. exact Hblocks.
  - replace (Z.to_nat (1 + (last - first))) with n by lia.
    exists s', evs. split; [exact Hrun|]. split; [exact Hd|]. split; [exact Hwf'|].
    intros b Hb. specialize (Hblocks b Hb).
    rewrite Hvisited, Hflag in Hblocks by exact Hb.
    exact Hblocks.
Qed.

(** C3: for every display frame that passes the tests of
    [dispatchSystemExclusive] (8 bytes or more, the vendor prefix, a unit
    id, the display type, a text that ends within the 112 bytes of the
    display), the frame returns, the display holds the old bytes with the
    text copied in, and for each 7-byte block the range of the text
    touches: the cache of its strip and row ends equal to the new content
    of the block, and the notifications raised for that strip and row are
    none when the new content equals the old cache, and exactly one, the
    [handleStripDisplay] with the global flag of the row, when it
    differs. This includes the frames whose text ends at the last byte of
    the display, where the loop goes on to block 16 behind the display:
    that block is no touched block, and what the loop does there changes
    no cache and raises no notification for a strip and row of the
    display. *)
Theorem display_frame_notifications (buffer : list Z) (global_2 : bool) (s : State) :
  sysex_input buffer ->
  wf_state s ->
  display_untouched s ->
  display_frame buffer ->
  exists s' evs,
    dispatchSystemExclusive buffer global_2 s = Some (s', evs) /\
    display_strip (_display s') = display_after buffer (display_strip (_display s)) /\
    forall b, touched buffer b ->
      let new := block_bytes (display_strip (_display s')) (b / 8) (b mod 8) in
      strip_cache s' (b mod 8) (b / 8) = new /\
      List.filter (is_strip_display (b mod 8) (b / 8)) evs
      = (if bool_decide (new = strip_cache s (b mod 8) (b / 8))
         then []
         else [handleStripDisplay
                 (row_global (display_strip (_display s')) (8 * (b / 8)))
                 (b mod 8) (b / 8)]) /\
      count_events (is_strip_display (b mod 8) (b / 8)) evs
      = (if bool_decide (new = strip_cache s (b mod 8) (b / 8)) then 0 else 1)%nat.
Proof.
  intros Hin Hwf Hun Hframe.
  pose proof Hin as [Hbytes Hlen]. pose proof Hframe as (Hge & _ & _ & _ & Hfit).
  assert (Hs : 0 <= sysex_start buffer <= 255) by (apply byte_at_range, Hbytes).
  assert (Hl : 0 <= sysex_text_length buffer) by (unfold sysex_text_length; lia).
  destruct (display_frame_blocks buffer global_2 s Hin Hwf Hun Hframe)
    as (s' & evs & Hrun & Hd & _ & Hblocks).
  exists s', evs. split; [exact Hrun|]. rewrite Hd. split; [reflexivity|].
  intros b [Hb1 Hb2] new.
  assert (Hb : 0 <= b < 16) by lia.
  specialize (Hblocks b Hb).
  replace ((sysex_start buffer / 7 <=? b) &&
           (b <=? (sysex_start buffer + sysex_text_length buffer) / 7))
    with true in Hblocks.
  2:{ symmetry. apply andb_true_iff. split; apply Z.leb_le; dlia. }
  destruct Hblocks as [Hc Hn].
  cbn [display_strip with_display_strip] in new |- *. fold new in Hc, Hn.
  split; [exact Hc|]. split; [exact Hn|].
  unfold count_events. rewrite Hn. destruct (bool_decide _); reflexivity.
Qed.

(** The second frame of Ableton after a reset, whose text ends at the last
    byte of the display: the 'C' of its third strip changes block 10. *)
Lemma display_frame_notifications_witness :
  exists s' evs,
    dispatchSystemExclusive ableton_second_row false reset = Some (s', evs) /\
    strip_cache s' 2 1 = [32; 32; 0x43; 32; 32; 32; 32] /\
    count_events (is_strip_display 2 1) evs = 1%nat.
Proof.
  destruct (display_frame_notifications ableton_second_row false reset)
    as (s' & evs & Hrun & Hd & Hblocks).
  - split.
    + unfold ableton_second_row. cbn [replicate app]. repeat constructor; lia.
    + apply Z.leb_le. reflexivity.
  - exact wf_state_reset.
  - exact display_untouched_reset.
  - unfold display_frame. split; [apply Z.leb_le; reflexivity|].
    split; [reflexivity|]. split; [left; reflexivity|].
    split; [reflexivity|]. apply Z.leb_le. reflexivity.
  - exists s', evs. split; [exact Hrun|].
    destruct (Hblocks 10) as (Hc & _ & Hn).
    + split; apply Z.ltb_lt; reflexivity.
    + rewrite Hd in Hc, Hn. split; [exact Hc|exact Hn].
Defined.

(** ** The shape of the state *)

Lemma loop_meters_wf n i now s :
  wf_state s -> wf_state (fst (loop_meters n i now s)).
Proof.
  revert i s. induction n as [|n IH]; intros i s Hwf; cbn [loop_meters].
  - exact Hwf.
  - destruct (fle _ _); [apply IH, Hwf|].
    destruct (_ <? _); [apply IH, Hwf|].
    specialize (IH (i + 1) (update_strip i (with_meter zero_meter) s)).
    destruct (loop_meters n (i + 1) now (update_strip i (with_meter zero_meter) s))
      as [s2 evs]. cbn [fst] in *.
    apply IH, wf_state_update_strip; [reflexivity|exact Hwf].
Qed.

Lemma loop_wf now now_meter s : wf_state s -> wf_state (fst (loop now now_meter s)).
Proof.
  intros Hwf. unfold loop.
  destruct (_ && _).
  - pose proof (loop_meters_wf 8 0 now_meter (with_active_usec 0 s) Hwf) as H.
    destruct (loop_meters 8 0 now_meter (with_active_usec 0 s)). exact H.
  - pose proof (loop_meters_wf 8 0 now_meter s Hwf) as H.
    destruct (loop_meters 8 0 now_meter s). exact H.
Qed.

Lemma dispatchPacket_wf packet now s :
  wf_state s -> wf_state (fst (dispatchPacket packet now s)).
Proof.
  intros Hwf.
  destruct packet; cbn [dispatchPacket];
    unfold dispatchNote, dispatchControlChange, dispatchAftertouchChannel,
      dispatchPitchBend;
    repeat match goal with
           | |- context [if ?b then _ else _] => destruct b
           | |- context [let '(_, _) := ?p in _] => destruct p
           end;
    cbn [fst];
    repeat (apply wf_state_update_strip; [reflexivity|]);
    first [exact Hwf | exact wf_state_reset].
Qed.

(** No packet writes [_display.mode] or [_display.time.type]. *)
Lemma dispatchPacket_untouched packet now s :
  display_untouched s -> display_untouched (fst (dispatchPacket packet now s)).
Proof.
  intros Hun.
  destruct packet; cbn [dispatchPacket];
    unfold dispatchNote, dispatchControlChange, dispatchAftertouchChannel,
      dispatchPitchBend;
    repeat match goal with
           | |- context [if ?b then _ else _] => destruct b
           | |- context [let '(_, _) := ?p in _] => destruct p
           end;
    cbn [fst];
    first [exact Hun | exact display_untouched_reset].
Qed.

(** The meter loop keeps the display members. *)
Lemma loop_meters_display n i now s :
  _display (fst (loop_meters n i now s)) = _display s.
Proof.
  revert i s. induction n as [|n IH]; intros i s; cbn [loop_meters].
  - reflexivity.
  - destruct (fle _ _); [apply IH|].
    destruct (_ <? _); [apply IH|].
    specialize (IH (i + 1) (update_strip i (with_meter zero_meter) s)).
    destruct (loop_meters n (i + 1) now (update_strip i (with_meter zero_meter) s))
      as [s2 evs]. cbn [fst] in *. exact IH.
Qed.

(** A tick keeps the display members. *)
Lemma loop_display now_active now_meter s :
  _display (fst (loop now_active now_meter s)) = _display s.
Proof.
  unfold loop. destruct (_ && _).
  - pose proof (loop_meters_display 8 0 now_meter (with_active_usec 0 s)) as Hd.
    destruct (loop_meters 8 0 now_meter (with_active_usec 0 s)) as [s2 evs2].
    exact Hd.
  - pose proof (loop_meters_display 8 0 now_meter s) as Hd.
    destruct (loop_meters 8 0 now_meter s) as [s2 evs2]. exact Hd.
Qed.

(** Every frame returns, and keeps the shape of the state. *)
Lemma dispatchSystemExclusive_returns buffer global_2 s :
  sysex_input buffer ->
  wf_state s ->
  display_untouched s ->
  exists s' evs,
    dispatchSystemExclusive buffer global_2 s = Some (s', evs) /\
    wf_state s' /\ display_untouched s'.
Proof.
  intros Hin Hwf Hun.
  destruct (dispatchSystemExclusive_cases buffer global_2 s Hin) as [Hdrop|Hframe].
  - exists s, []. split; [exact Hdrop|]. split; assumption.
  - destruct (display_frame_blocks buffer global_2 s Hin Hwf Hun Hframe)
      as (s' & evs & Hrun & Hd & Hwf' & _).
    exists s', evs. split; [exact Hrun|]. split; [exact Hwf'|].
    unfold display_untouched. rewrite Hd. exact Hun.
Qed.

(** Every call with a well-typed argument returns. *)
Lemma step_returns i s :
  input_ok i ->
  wf_state s ->
  display_untouched s ->
  exists s' evs,
    step i s = Some (s', evs) /\ wf_state s' /\ display_untouched s'.
Proof.
  intros Hok Hwf Hun. destruct i as [packet now|buffer global_2|now now_meter];
    cbn [step].
  - exists (fst (dispatchPacket packet now s)), (snd (dispatchPacket packet now s)).
    split; [rewrite <- surjective_pairing; reflexivity|].
    split; [apply dispatchPacket_wf, Hwf|apply dispatchPacket_untouched, Hun].
  - apply dispatchSystemExclusive_returns; assumption.
  - exists (fst (loop now now_meter s)), (snd (loop now now_meter s)).
    split; [rewrite <- surjective_pairing; reflexivity|].
    split; [apply loop_wf, Hwf|].
    unfold display_untouched. rewrite loop_display. exact Hun.
Qed.

(** Every run of calls with well-typed arguments returns. *)
Lemma run_returns inputs s :
  Forall input_ok inputs ->
  wf_state s ->
  display_untouched s ->
  exists s' evs,
    run inputs s = Some (s', evs) /\ wf_state s' /\ display_untouched s'.
Proof.
  intros Hok. revert s. induction Hok as [|i rest Hi Hrest IH]; intros s Hwf Hun.
  - exists s, []. split; [reflexivity|]. split; assumption.
  - destruct (step_returns i s Hi Hwf Hun) as (s1 & evs1 & Hstep & Hwf1 & Hun1).
    destruct (IH s1 Hwf1 Hun1) as (s2 & evs2 & Hrun & Hwf2 & Hun2).
    exists s2, (evs1 ++ evs2). cbn [run]. rewrite Hstep, Hrun.
    split; [reflexivity|]. split; assumption.
Qed.

(** Every state the codec reaches from [reset] has the array sizes of the
    class. *)
Theorem run_wf inputs s' evs :
  Forall input_ok inputs ->
  run inputs reset = Some (s', evs) ->
  wf_state s'.
Proof.
  intros Hok Hrun.
  destruct (run_returns inputs reset Hok wf_state_reset display_untouched_reset)
    as (s2 & evs2 & Hrun2 & Hwf2 & _).
  rewrite Hrun2 in Hrun. injection Hrun as <- <-. exact Hwf2.
Qed.

(** ** The heartbeat *)

Lemma count_events_app f evs1 evs2 :
  count_events f (evs1 ++ evs2) = (count_events f evs1 + count_events f evs2)%nat.
Proof. unfold count_events. rewrite List.filter_app, length_app. reflexivity. Qed.

(** The meter loop neither touches the heartbeat nor raises a timeout. *)
Lemma loop_meters_heartbeat n i now s :
  _active_usec (fst (loop_meters n i now s)) = _active_usec s /\
  count_events is_timeout (snd (loop_meters n i now s)) = 0%nat.
Proof.
  revert i s. induction n as [|n IH]; intros i s; cbn [loop_meters].
  - split; reflexivity.
  - destruct (fle _ _); [apply IH|].
    destruct (_ <? _); [apply IH|].
    destruct (loop_meters n (i + 1) now (update_strip i (with_meter zero_meter) s))
      as [s2 evs] eqn:Hrec.
    specialize (IH (i + 1) (update_strip i (with_meter zero_meter) s)).
    rewrite Hrec in IH. cbn [fst snd] in *. exact IH.
Qed.

(** A tick raises the timeout when a heartbeat is recorded and more than
    5 seconds old, and then clears it; any other tick raises no timeout
    and keeps the time stamp. *)
Lemma loop_heartbeat now now_meter s :
  _active_usec (fst (loop now now_meter s))
  = (if (0 <? _active_usec s) && (5000 * 1000 <? wrap_ulong (now - _active_usec s))
     then 0 else _active_usec s) /\
  count_events is_timeout (snd (loop now now_meter s))
  = (if (0 <? _active_usec s) && (5000 * 1000 <? wrap_ulong (now - _active_usec s))
     then 1%nat else 0%nat).
Proof.
  unfold loop.
  destruct ((0 <? _active_usec s) && (5000 * 1000 <? wrap_ulong (now - _active_usec s))).
  - pose proof (loop_meters_heartbeat 8 0 now_meter (with_active_usec 0 s)) as [Ha Hc].
    destruct (loop_meters 8 0 now_meter (with_active_usec 0 s)) as [s2 evs2].
    cbn [fst snd] in *. rewrite count_events_app, Hc. split; [exact Ha|reflexivity].
  - pose proof (loop_meters_heartbeat 8 0 now_meter s) as [Ha Hc].
    destruct (loop_meters 8 0 now_meter s) as [s2 evs2].
    cbn [fst snd] in *. rewrite count_events_app, Hc. split; [exact Ha|reflexivity].
Qed.


Lemma dispatchNote_ping velocity now s :
  dispatchNote 15 Mackie.Protocol.Ping velocity now s = (with_active_usec now s, []).
Proof. reflexivity. Qed.











(** Before the 5 seconds are over the tick keeps the heartbeat and raises
    nothing. *)
Lemma heartbeat_not_lapsed (s : State) (now : Z) (now_meter : Z -> Z) :
  wrap_ulong (now - _active_usec s) <= 5000 * 1000 ->
  _active_usec (fst (loop now now_meter s)) = _active_usec s /\
  count_events is_timeout (snd (loop now now_meter s)) = 0%nat.
Proof.
  intros Hle. pose proof (loop_heartbeat now now_meter s) as [Ha Hc].
  replace (5000 * 1000 <? wrap_ulong (now - _active_usec s)) with false in *
    by (symmetry; apply Z.ltb_ge; exact Hle).
  rewrite andb_false_r in *. split; assumption.
Qed.

(** A ping that arrives when the clock reads 0 records nothing: the time
    stamp 0 is the absent heartbeat. *)
Lemma heartbeat_at_clock_zero velocity s :
  _active_usec (fst (dispatchPacket (NoteOn 15 Mackie.Protocol.Ping velocity) 0 s)) = 0.
Proof. reflexivity. Qed.

(** ** The faders: binary32 rounding *)

(** Iterating over a positive number is iterating over its value. *)
Lemma iter_pos_nat {A} (f : A -> A) p x :
  SpecFloat.iter_pos f p x = Nat.iter (Pos.to_nat p) f x.
Proof.
  revert x. induction p as [p IH|p IH|]; intros x; cbn [SpecFloat.iter_pos].
  - rewrite !IH, Pos2Nat.inj_xI.
    replace (S (2 * Pos.to_nat p)) with (Pos.to_nat p + (Pos.to_nat p + 1))%nat by lia.
    rewrite !Nat.iter_add. reflexivity.
  - rewrite !IH, Pos2Nat.inj_xO.
    replace (2 * Pos.to_nat p)%nat with (Pos.to_nat p + Pos.to_nat p)%nat by lia.
    rewrite Nat.iter_add. reflexivity.
  - reflexivity.
Qed.

(** One shift of a rounding record: the mantissa is halved, the round
    bit is the bit shifted out, the sticky bit collects the rest. *)
Lemma shr_1_spec m r s :
  0 <= m ->
  shr_1 {| shr_m := m; shr_r := r; shr_s := s |}
  = {| shr_m := m / 2; shr_r := Z.odd m; shr_s := r || s |}.
Proof.
  intros Hm. rewrite <- Z.div2_div.
  destruct m as [|[p|p|]|p]; try reflexivity; lia.
Qed.

(** The remainder of a division by [2 * a], split at [a]. *)
Lemma mod_double m a :
  0 < a -> m mod (2 * a) = m mod a + a * (if Z.odd (m / a) then 1 else 0).
Proof.
  intros Ha. rewrite (Z.mul_comm 2 a), Z.rem_mul_r by lia.
  rewrite Zodd_mod.
  pose proof (Z.mod_pos_bound (m / a) 2).
  destruct (Z.eqb_spec ((m / a) mod 2) 1) as [->|Hne]; [reflexivity|].
  replace ((m / a) mod 2) with 0 by lia. reflexivity.
Qed.

(** [n] right shifts of an exact record: the mantissa is divided by [2^n],
    the round bit says whether the remainder reaches half of [2^n], and
    the sticky bit whether anything lies below the round bit. *)
Lemma iter_shr_1_location (n : nat) m :
  0 <= m ->
  let mrs := Nat.iter (S n) shr_1 {| shr_m := m; shr_r := false; shr_s := false |} in
  let a := 2 ^ Z.of_nat n in
  shr_m mrs = m / (2 * a) /\
  shr_r mrs = Z.odd (m / a) /\
  (shr_s mrs = false <-> m mod a = 0).
Proof.
  intros Hm. induction n as [|n IH].
  - cbn [Nat.iter]. rewrite shr_1_spec by exact Hm. cbn [shr_m shr_r shr_s].
    change (2 ^ Z.of_nat 0) with 1. rewrite Z.div_1_r, Z.mod_1_r.
    split; [reflexivity|]. split; [reflexivity|]. split; reflexivity.
  - cbv zeta in IH |- *.
    set (mrs := Nat.iter (S n) shr_1 {| shr_m := m; shr_r := false; shr_s := false |}) in *.
    change (Nat.iter (S (S n)) shr_1 {| shr_m := m; shr_r := false; shr_s := false |})
      with (shr_1 mrs).
    destruct IH as (Hm1 & Hr1 & Hs1).
    assert (Ha : 0 < 2 ^ Z.of_nat n) by (apply Z.pow_pos_nonneg; lia).
    assert (Hpow : 2 ^ Z.of_nat (S n) = 2 * 2 ^ Z.of_nat n).
    { rewrite Nat2Z.inj_succ, Z.pow_succ_r by lia. reflexivity. }
    destruct mrs as [m1 r1 s1]. cbn [shr_m shr_r shr_s] in *.
    assert (H1 : 0 <= m1) by (rewrite Hm1; apply Z.div_pos; lia).
    rewrite shr_1_spec by exact H1. cbn [shr_m shr_r shr_s].
    rewrite Hpow. split; [|split].
    + rewrite Hm1, Z.div_div by lia. f_equal. ring.
    + rewrite Hm1. reflexivity.
    + rewrite mod_double by exact Ha. rewrite <- Hr1.
      pose proof (Z.mod_pos_bound m (2 ^ Z.of_nat n) Ha).
      split.
      * intros Hor. apply orb_false_iff in Hor as [-> Hs]. apply Hs1 in Hs. lia.
      * intros Hz. destruct r1; [lia|]. cbn [orb]. apply Hs1. lia.
Qed.

(** A shift by [n], positive or not, of an exact record, followed by
    rounding to nearest even: the exponent, the bounds of the rounded
    mantissa, and when it is rounded up. *)
Lemma shr_round_spec m e n :
  0 <= m ->
  let N := Z.max n 0 in
  let mrs := fst (shr {| shr_m := m; shr_r := false; shr_s := false |} e n) in
  let M := round_nearest_even (shr_m mrs) (loc_of_shr_record mrs) in
  snd (shr {| shr_m := m; shr_r := false; shr_s := false |} e n) = e + N /\
  shr_m mrs = m / 2 ^ N /\
  m / 2 ^ N <= M <= m / 2 ^ N + 1 /\
  (m mod 2 ^ N = 0 -> M = m / 2 ^ N) /\
  (M = m / 2 ^ N + 1 -> 2 ^ N <= 2 * (m mod 2 ^ N)) /\
  (2 ^ N < 2 * (m mod 2 ^ N) -> M = m / 2 ^ N + 1).
Proof.
  intros Hm N mrs M. subst N mrs M. unfold shr.
  destruct n as [|p|p]; cbn [fst snd shr_m].
  - change (Z.max 0 0) with 0. rewrite Z.add_0_r, Z.pow_0_r, Z.div_1_r, Z.mod_1_r.
    cbn [loc_of_shr_record round_nearest_even].
    repeat split; try reflexivity; lia.
  - replace (Z.max (Z.pos p) 0) with (Z.pos p) by lia.
    rewrite iter_pos_nat.
    destruct (Pos2Nat.is_succ p) as [k Hk]. rewrite Hk.
    destruct (iter_shr_1_location k m Hm) as (Hm1 & Hr1 & Hs1).
    assert (Hp : Z.pos p = Z.succ (Z.of_nat k)) by lia.
    assert (Ha : 0 < 2 ^ Z.of_nat k) by (apply Z.pow_pos_nonneg; lia).
    assert (Hpow : 2 ^ Z.pos p = 2 * 2 ^ Z.of_nat k).
    { rewrite Hp, Z.pow_succ_r by lia. reflexivity. }
    rewrite Hpow.
    pose proof (mod_double m (2 ^ Z.of_nat k) Ha) as Hmod.
    pose proof (Z.mod_pos_bound m (2 ^ Z.of_nat k) Ha) as Hbound.
    destruct (Nat.iter (S k) shr_1 {| shr_m := m; shr_r := false; shr_s := false |})
      as [m1 r1 s1]. cbn [shr_m shr_r shr_s] in *.
    rewrite <- Hr1 in Hmod. rewrite <- Hm1.
    split; [reflexivity|]. split; [reflexivity|].
    assert (Hsticky : s1 = true -> m mod 2 ^ Z.of_nat k <> 0).
    { intros -> Hz. apply Hs1 in Hz. discriminate. }
    assert (Hsticky' : s1 = false -> m mod 2 ^ Z.of_nat k = 0) by apply Hs1.
    destruct r1, s1; cbn [loc_of_shr_record round_nearest_even];
      try (specialize (Hsticky eq_refl)); try (specialize (Hsticky' eq_refl));
      try (destruct (Z.even m1)); repeat split; intros; lia.
  - replace (Z.max (Z.neg p) 0) with 0 by lia.
    rewrite Z.add_0_r, Z.pow_0_r, Z.div_1_r, Z.mod_1_r.
    cbn [loc_of_shr_record round_nearest_even].
    repeat split; try reflexivity; lia.
Qed.

(** The number of binary digits of a mantissa. *)
Lemma digits2_pos_bounds p :
  2 ^ (Z.pos (digits2_pos p) - 1) <= Z.pos p < 2 ^ Z.pos (digits2_pos p).
Proof.
  induction p as [p IH|p IH|]; cbn [digits2_pos]; rewrite ?Pos2Z.inj_succ.
  - replace (Z.succ (Z.pos (digits2_pos p)) - 1) with (Z.succ (Z.pos (digits2_pos p) - 1)) by lia.
    rewrite !Z.pow_succ_r by lia. lia.
  - replace (Z.succ (Z.pos (digits2_pos p)) - 1) with (Z.succ (Z.pos (digits2_pos p) - 1)) by lia.
    rewrite !Z.pow_succ_r by lia. lia.
  - cbn. lia.
Qed.

(** The exponent binary32 rounds a value of exponent [e] at. *)
Lemma fexp_binary32 e : fexp prec emax e = Z.max (e - 24) (-149).
Proof. reflexivity. Qed.

(** The number of binary digits of a positive integer. *)
Lemma Zdigits2_bounds M :
  0 <= M ->
  (M = 0 /\ Zdigits2 M = 0) \/
  (0 < M /\ 2 ^ (Zdigits2 M - 1) <= M < 2 ^ Zdigits2 M /\ 1 <= Zdigits2 M).
Proof.
  intros HM. destruct M as [|p|p]; [left; split; reflexivity| |lia].
  right. cbn [Zdigits2]. split; [lia|]. split; [apply digits2_pos_bounds|lia].
Qed.

(** Powers of two: positivity and monotonicity. *)
Lemma pow2_pos n : 0 <= n -> 0 < 2 ^ n.
Proof. intros Hn. apply Z.pow_pos_nonneg; lia. Qed.

Lemma pow2_lt_inv a b : 0 <= b -> 2 ^ a < 2 ^ b -> a < b.
Proof. intros Hb H. apply (Z.pow_lt_mono_r_iff 2); [lia|exact Hb|exact H]. Qed.

Lemma pow2_le_inv a b : 0 <= b -> 2 ^ a <= 2 ^ b -> a <= b.
Proof. intros Hb H. apply (Z.pow_le_mono_r_iff 2); [lia|exact Hb|exact H]. Qed.


(** A product by a non-negative factor keeps the order. *)
Lemma mul_le_or a b A : 0 <= A -> a <= b \/ (b + 1) * A <= a * A.
Proof.
  intros HA. destruct (Z.le_gt_cases a b) as [|Hgt]; [left; assumption|right].
  apply Z.mul_le_mono_nonneg_r; lia.
Qed.

(** Rounding [x] at [A1] to [M1] and then cutting [M1] at [A2] to [m2],
    against the multiples [K * A2 * A1]: the result lies on the same side
    of each as [x], and within half of [A1] of [x]. *)
Lemma round_twice_order x A1 A2 q1 rem M1 m2 r2 K :
  0 < A1 -> 0 < A2 ->
  x = A1 * q1 + rem -> 0 <= rem < A1 ->
  M1 = A2 * m2 + r2 -> 0 <= r2 < A2 ->
  q1 <= M1 <= q1 + 1 ->
  (rem = 0 -> M1 = q1) ->
  (M1 = q1 + 1 -> A1 <= 2 * rem) ->
  (A1 < 2 * rem -> M1 = q1 + 1) ->
  (K * A2 * A1 <= x -> K <= m2) /\
  (x <= K * A2 * A1 -> m2 <= K) /\
  (K <= m2 -> 2 * (K * A2 * A1) <= 2 * x + A1) /\
  (2 * (K * A2 * A1) < 2 * x + A1 -> K <= m2).
Proof.
  intros HA1 HA2 Hx Hrem HM1 Hr2 Hq Hexact Hup Hgt.
  set (W := K * A2).
  assert (Hdown : W <= M1 -> K <= m2).
  { intros H. destruct (mul_le_or K m2 A2) as [|Hc]; [lia|assumption|].
    fold W in Hc. lia. }
  assert (Hback : K <= m2 -> W <= M1).
  { intros H. destruct (mul_le_or m2 (K - 1) A2) as [|Hc]; [lia|lia|].
    replace (K - 1 + 1) with K in Hc by lia. fold W in Hc. lia. }
  assert (Hover : m2 <= K \/ W + 1 <= M1).
  { destruct (mul_le_or m2 K A2) as [|Hc]; [lia|left; assumption|right].
    subst W. lia. }
  pose proof (mul_le_or W q1 A1 ltac:(lia)) as Hlow.
  pose proof (mul_le_or q1 (W - 1) A1 ltac:(lia)) as Hhigh.
  replace (W - 1 + 1) with W in Hhigh by lia.
  pose proof (mul_le_or q1 W A1 ltac:(lia)) as Hhigh0.
  pose proof (mul_le_or (q1 + 1) (W - 1) A1 ltac:(lia)) as Hhigh1.
  replace (W - 1 + 1) with W in Hhigh1 by lia.
  pose proof (mul_le_or W (q1 + 1) A1 ltac:(lia)) as Hlow1.
  split; [|split; [|split]].
  - intros H. apply Hdown. lia.
  - intros H. destruct Hover as [|Hc]; [assumption|exfalso].
    destruct (Z.eq_dec rem 0) as [Hz|Hnz]; [specialize (Hexact Hz)|]; lia.
  - intros H. apply Hback in H.
    destruct (Z.eq_dec M1 (q1 + 1)) as [Heq|Hne]; [specialize (Hup Heq)|]; lia.
  - intros H. apply Hdown.
    destruct Hlow as [|Hc]; [lia|].
    assert (Hr : A1 < 2 * rem) by lia. specialize (Hgt Hr). lia.
Qed.

(** Rounding the exact value [mx * 2^ex], below [2^14], to binary32. The
    result is zero or a positive float [M * 2^E] with [E] negative. It
    lies on the same side as the exact value of every integer [j], and
    within half a unit of the exponent [E1] the value is rounded at: an
    integer [j] at or below the result is at most [2^(E1-1)] above the
    exact value, and the result reaches every integer less than
    [2^(E1-1)] above the exact value. *)
Lemma binary_round_aux_exact sx mx ex :
  ex <= -10 ->
  Z.pos mx < 2 ^ (14 - ex) ->
  let E1 := Z.max ex (Z.max (Z.pos (digits2_pos mx) + ex - 24) (-149)) in
  exists M E,
    binary_round_aux prec emax sx (Z.pos mx) ex loc_Exact
    = match M with Z.pos m => S754_finite sx m E | _ => S754_zero sx end /\
    0 <= M /\ E1 <= E <= -9 /\ ex <= E1 <= -10 /\
    forall j, 0 <= j ->
      (j * 2 ^ (- ex) <= Z.pos mx -> j * 2 ^ (- E) <= M) /\
      (Z.pos mx <= j * 2 ^ (- ex) -> M <= j * 2 ^ (- E)) /\
      (j * 2 ^ (- E) <= M -> 2 * j * 2 ^ (- ex) <= 2 * Z.pos mx + 2 ^ (E1 - ex)) /\
      (2 * j * 2 ^ (- ex) < 2 * Z.pos mx + 2 ^ (E1 - ex) -> j * 2 ^ (- E) <= M).
Proof.
  intros Hex Hmx E1.
  unfold binary_round_aux, shr_fexp.
  change (shr_record_of_loc (Z.pos mx) loc_Exact)
    with {| shr_m := Z.pos mx; shr_r := false; shr_s := false |}.
  set (n1 := fexp prec emax (Zdigits2 (Z.pos mx) + ex) - ex).
  destruct (shr_round_spec (Z.pos mx) ex n1)
    as (He1 & Hm1 & HM1 & HM1x & HM1up & HM1gt); [lia|].
  destruct (shr {| shr_m := Z.pos mx; shr_r := false; shr_s := false |} ex n1)
    as [mrs1 e1]. cbn [fst snd] in He1, Hm1, HM1, HM1x, HM1up, HM1gt.
  set (M1 := round_nearest_even (shr_m mrs1) (loc_of_shr_record mrs1)) in *.
  change (shr_record_of_loc M1 loc_Exact)
    with {| shr_m := M1; shr_r := false; shr_s := false |}.
  set (n2 := fexp prec emax (Zdigits2 M1 + e1) - e1).
  set (N1 := Z.max n1 0) in *.
  assert (HN1 : 0 <= N1) by lia.
  pose proof (pow2_pos N1 HN1) as HA1.
  assert (Hq1 : 0 <= Z.pos mx / 2 ^ N1) by (apply Z.div_pos; lia).
  destruct (shr_round_spec M1 e1 n2) as (He2 & Hm2 & _); [lia|].
  destruct (shr {| shr_m := M1; shr_r := false; shr_s := false |} e1 n2)
    as [mrs2 e2]. cbn [fst snd] in He2, Hm2.
  set (N2 := Z.max n2 0) in *.
  assert (HN2 : 0 <= N2) by lia.
  pose proof (pow2_pos N2 HN2) as HA2.
  (* the exponents *)
  pose proof (digits2_pos_bounds mx) as Hd1.
  assert (Hd1' : Z.pos (digits2_pos mx) + ex <= 14).
  { assert (Z.pos (digits2_pos mx) - 1 < 14 - ex); [|lia].
    apply pow2_lt_inv; lia. }
  assert (HE1 : e1 = E1).
  { subst e1 N1 n1 E1. rewrite fexp_binary32. cbn [Zdigits2]. lia. }
  assert (He1' : ex <= e1 <= -10) by (subst E1; lia).
  assert (Hq1' : Z.pos mx / 2 ^ N1 < 2 ^ (14 - e1)).
  { apply Z.div_lt_upper_bound; [lia|].
    rewrite <- Z.pow_add_r by lia.
    replace (N1 + (14 - e1)) with (14 - ex) by lia. exact Hmx. }
  assert (Hd2 : Zdigits2 M1 + e1 <= 15).
  { destruct (Zdigits2_bounds M1) as [[_ ->]|(Hpos & Hb & _)]; [lia|lia|].
    assert (Zdigits2 M1 - 1 <= 14 - e1); [|lia].
    apply pow2_le_inv; lia. }
  assert (He2' : e1 <= e2 <= -9).
  { subst e2 N2 n2. rewrite fexp_binary32. lia. }
  assert (HM2 : 0 <= shr_m mrs2) by (rewrite Hm2; apply Z.div_pos; lia).
  exists (shr_m mrs2), e2.
  split; [|split; [exact HM2|split; [lia|split; [lia|]]]].
  - destruct (shr_m mrs2) as [|m|m]; [reflexivity| |lia].
    replace (e2 <=? emax - prec) with true; [reflexivity|].
    symmetry. apply Z.leb_le. unfold emax, prec. lia.
  - intros j Hj.
    assert (Hpow : 2 ^ (- ex) = 2 ^ (- e2) * 2 ^ N2 * 2 ^ N1).
    { rewrite <- !Z.pow_add_r by lia. f_equal. lia. }
    replace (E1 - ex) with N1 by lia.
    pose proof (pow2_pos (- e2)) as HB.
    pose proof (Z.div_mod (Z.pos mx) (2 ^ N1)) as Hdm.
    pose proof (Z.mod_pos_bound (Z.pos mx) (2 ^ N1) HA1) as Hmb.
    pose proof (Z.div_mod M1 (2 ^ N2)) as Hdm2.
    pose proof (Z.mod_pos_bound M1 (2 ^ N2) HA2) as Hmb2.
    rewrite <- Hm2 in Hdm2.
    set (q1 := Z.pos mx / 2 ^ N1) in *.
    set (rem := Z.pos mx mod 2 ^ N1) in *.
    set (K := j * 2 ^ (- e2)).
    set (A1 := 2 ^ N1) in *. set (A2 := 2 ^ N2) in *.
    assert (HK : 0 <= K) by (subst K; apply Z.mul_nonneg_nonneg; lia).
    replace (j * (2 ^ (- e2) * A2 * A1)) with (K * A2 * A1) by (subst K; ring).
    replace (2 * j * (2 ^ (- e2) * A2 * A1)) with (2 * (K * A2 * A1)) by (subst K; ring).
    rewrite Hpow.
    replace (j * (2 ^ (- e2) * A2 * A1)) with (K * A2 * A1) by (subst K; ring).
    replace (2 * j * (2 ^ (- e2) * A2 * A1)) with (2 * (K * A2 * A1)) by (subst K; ring).
    apply (round_twice_order (Z.pos mx) A1 A2 q1 rem M1 (shr_m mrs2) (M1 mod A2) K);
      try assumption; [apply Hdm; lia|apply Hdm2; lia].
Qed.

(** The decoder's division, checked at every step of a fader. *)
Lemma decode_steps : forallb decode_step_ok (seqZ 1 16368) = true.
Proof. vm_compute. reflexivity. Qed.

Lemma decode_step k :
  1 <= k <= 16368 ->
  let decoded := float_to_Q (pitch_bend_fraction (k - 8192)) in
  (decoded - (k # 16368) <= 1 # 33554432)%Q /\
  ((k # 16368) - decoded < 2 ^ Z.log2 k # 274609471488)%Q.
Proof.
  intros Hk decoded.
  assert (Hok : decode_step_ok k = true).
  { pose proof decode_steps as Ht. rewrite forallb_forall in Ht. apply Ht.
    apply list_elem_of_In, elem_of_seqZ. lia. }
  unfold decode_step_ok in Hok. fold decoded in Hok.
  apply andb_true_iff in Hok as [Hup Hdown]. split.
  - apply Qle_bool_iff. exact Hup.
  - apply Qnot_le_lt. intros Hle. apply Qle_bool_iff in Hle.
    rewrite Hle in Hdown. discriminate.
Qed.

(** A binary32 value that is at most 1. *)
Lemma fraction_at_most_one m e :
  valid_binary prec emax (S754_finite false m e) = true ->
  fle (S754_finite false m e) (float_of_Z 1) = true ->
  e <= -23 /\ Z.pos m <= 2 ^ (- e).
Proof.
  intros Hvalid Hle.
  change (float_of_Z 1) with (S754_finite false 8388608 (-23)) in Hle.
  unfold fle, SFleb, SFcompare in Hle.
  destruct (Z.compare_spec e (-23)) as [->|Hlt|Hgt].
  - split; [lia|]. change (2 ^ (- -23)) with 8388608.
    clear Hvalid. rewrite Pos.compare_cont_spec in Hle. cbn [Pos.switch_Eq] in Hle.
    apply Pos2Z.pos_le_pos, Pos.compare_le_iff. intros Hgt.
    rewrite Hgt in Hle. discriminate.
  - split; [lia|].
    unfold valid_binary, bounded, canonical_mantissa in Hvalid.
    apply andb_true_iff in Hvalid as [Hc _]. apply Z.eqb_eq in Hc.
    rewrite fexp_binary32 in Hc.
    pose proof (digits2_pos_bounds m) as [_ Hd].
    apply Z.lt_le_incl, Z.lt_le_trans with (2 ^ Z.pos (digits2_pos m)); [exact Hd|].
    apply Z.pow_le_mono_r; lia.
  - discriminate.
Qed.

(** The step [k] that [setStripFader] picks for the fraction [m * 2^e],
    against the exact product [16368 * m * 2^e]: [k] is at most [2^-11]
    above it, and the product stays [2^(log2 k - 24)] below [k + 1]. *)
Lemma setStripFader_step strip m e :
  0 <= strip <= 7 ->
  valid_binary prec emax (S754_finite false m e) = true ->
  fle (S754_finite false m e) (float_of_Z 1) = true ->
  exists k,
    0 <= k <= 16368 /\
    setStripFader strip (S754_finite false m e) = Some (PitchBend strip (k - 8192)) /\
    2048 * k * 2 ^ (- e) <= 2048 * (16368 * Z.pos m) + 2 ^ (- e) /\
    (k = 0 -> 16368 * Z.pos m < 2 ^ (- e)) /\
    (1 <= k ->
     16777216 * (16368 * Z.pos m) + 2 ^ Z.log2 k * 2 ^ (- e)
     <= (k + 1) * 16777216 * 2 ^ (- e)).
Proof.
  intros Hstrip Hvalid Hle.
  destruct (fraction_at_most_one m e Hvalid Hle) as [He Hm].
  assert (HT : 0 < 2 ^ (- e)) by (apply pow2_pos; lia).
  assert (Hex : 2 ^ (- (-10 + e)) = 1024 * 2 ^ (- e)).
  { replace (- (-10 + e)) with (10 + - e) by lia.
    rewrite Z.pow_add_r by lia. reflexivity. }
  assert (Hmx : Z.pos (16760832 * m) < 2 ^ (14 - (-10 + e))).
  { replace (14 - (-10 + e)) with (24 + - e) by lia.
    rewrite Z.pow_add_r, Pos2Z.inj_mul by lia.
    change (2 ^ 24) with 16777216. nia. }
  destruct (binary_round_aux_exact false (16760832 * m) (-10 + e))
    as (M & E & Hr & HM & HE & HE1 & Hmono); [lia|exact Hmx|].
  set (E1 := Z.max (-10 + e)
               (Z.max (Z.pos (digits2_pos (16760832 * m)) + (-10 + e) - 24) (-149))) in *.
  assert (HB : 0 < 2 ^ (- E)) by (apply pow2_pos; lia).
  set (k := M / 2 ^ (- E)).
  pose proof (Z.div_mod M (2 ^ (- E))) as Hdm.
  pose proof (Z.mod_pos_bound M (2 ^ (- E)) HB) as Hmb.
  fold k in Hdm.
  assert (Hk0 : 0 <= k) by (apply Z.div_pos; lia).
  rewrite Hex, (Pos2Z.inj_mul 16760832 m) in Hmono.
  assert (Hk1 : k <= 16368).
  { destruct (Hmono 16368) as (_ & Hup & _); [lia|].
    apply Z.div_le_upper_bound; [lia|]. rewrite Z.mul_comm. apply Hup. lia. }
  assert (HN1 : 2 ^ (E1 - (-10 + e)) <= 2 ^ (- e)).
  { apply Z.pow_le_mono_r; lia. }
  exists k. split; [lia|]. split; [|split; [|split]].
  - unfold setStripFader, fmul.
    change (float_of_Z fader_range) with (S754_finite false 16760832 (-10)).
    cbn [SFmul xorb]. rewrite Hr.
    unfold float_to_int16.
    match goal with
    | |- context [ftrunc ?x] => assert (Htr : ftrunc x = Some k)
    end.
    { destruct M as [|m0|m0]; [| |lia].
      - subst k. rewrite Z.div_0_l by lia. reflexivity.
      - cbn [ftrunc cond_Zopp].
        replace (0 <=? E) with false by (symmetry; apply Z.leb_gt; lia).
        rewrite Z.shiftr_div_pow2 by lia. reflexivity. }
    rewrite Htr.
    replace (-32768 <=? k) with true by (symmetry; apply Z.leb_le; lia).
    replace (k <=? 32767) with true by (symmetry; apply Z.leb_le; lia).
    cbn [andb]. unfold setPitchBend.
    rewrite wrap8_small by lia.
    rewrite !(wrap_int16_small (k - 8192)) by lia. reflexivity.
  - destruct (Hmono k) as (_ & _ & Hnear & _); [lia|].
    assert (Hk : k * 2 ^ (- E) <= M) by lia.
    specialize (Hnear Hk). lia.
  - intros Hz.
    destruct (Z.lt_ge_cases (16368 * Z.pos m) (2 ^ (- e))) as [|Hge];
      [assumption|exfalso].
    destruct (Hmono 1) as (Hlo & _); [lia|].
    assert (1 * 2 ^ (- E) <= M) by (apply Hlo; lia). nia.
  - intros Hk.
    assert (Hnot : ~ (k + 1) * 2 ^ (- E) <= M) by nia.
    destruct (Hmono (k + 1)) as (_ & _ & _ & Hreach); [lia|].
    assert (Hfar : 2 * Z.pos 16760832 * Z.pos m + 2 ^ (E1 - (-10 + e))
                   <= 2 * (k + 1) * (1024 * 2 ^ (- e))).
    { destruct (Z.le_gt_cases (2 * (Z.pos 16760832 * Z.pos m) + 2 ^ (E1 - (-10 + e)))
                  (2 * (k + 1) * (1024 * 2 ^ (- e)))) as [|Hgt]; [lia|].
      exfalso. apply Hnot, Hreach. lia. }
    pose proof (Z.log2_spec k ltac:(lia)) as [Hlog _].
    pose proof (Z.log2_nonneg k) as Hlog0.
    assert (Hlog13 : Z.log2 k <= 13).
    { assert (Z.log2 k < 14); [|lia]. apply Z.log2_lt_pow2; [lia|].
      change (2 ^ 14) with 16384. lia. }
    destruct (Z.le_gt_cases (k * 2 ^ (- e)) (16368 * Z.pos m)) as [Hxk|Hxk].
    + (* the product is at least [k]: it has the binary digits of [k] *)
      assert (Hdig : Z.log2 k + 1 - (-10 + e)
                     <= Z.pos (digits2_pos (16760832 * m))).
      { pose proof (digits2_pos_bounds (16760832 * m)) as [_ Hd].
        assert (Z.log2 k - (-10 + e) < Z.pos (digits2_pos (16760832 * m))); [|lia].
        apply pow2_lt_inv; [lia|].
        apply Z.le_lt_trans with (Z.pos (16760832 * m)); [|exact Hd].
        replace (Z.log2 k - (-10 + e)) with (Z.log2 k + (10 + - e)) by lia.
        rewrite !Z.pow_add_r, Pos2Z.inj_mul by lia.
        change (2 ^ 10) with 1024. nia. }
      assert (HE1' : Z.log2 k - 23 <= E1) by (subst E1; lia).
      assert (Hpow : 2 ^ Z.log2 k * 2 ^ (- 13 - e) <= 2 ^ (E1 - (-10 + e))).
      { rewrite <- Z.pow_add_r by lia. apply Z.pow_le_mono_r; lia. }
      assert (HT' : 2 ^ (- e) = 8192 * 2 ^ (- 13 - e)).
      { replace (- e) with (13 + (- 13 - e)) at 1 by lia.
        rewrite Z.pow_add_r by lia. reflexivity. }
      rewrite HT' in *. nia.
    + assert (Hpow : 2 ^ Z.log2 k <= 16777216).
      { change 16777216 with (2 ^ 24). apply Z.pow_le_mono_r; lia. }
      nia.
Qed.

(** The two step facts of [setStripFader_step], as rationals. *)
Lemma step_above a P k :
  2048 * k * Z.pos P <= 2048 * (16368 * a) + Z.pos P ->
  ((k # 16368) - (a # P) <= 1 # 33521664)%Q.
Proof.
  intros H. unfold Qle, Qminus, Qplus, Qopp. cbn [Qnum Qden].
  rewrite !Pos2Z.inj_mul. lia.
Qed.

Lemma step_below a P k L :
  16777216 * (16368 * a) + L * Z.pos P <= (k + 1) * 16777216 * Z.pos P ->
  ((a # P) + (L # 274609471488) <= (k # 16368) + (1 # 16368))%Q.
Proof.
  intros H. unfold Qle, Qplus. cbn [Qnum Qden].
  rewrite !Pos2Z.inj_mul. lia.
Qed.

(** C5 (as amended): for every strip 0 to 7 and every binary32 fraction
    from 0 to 1, [setStripFader] builds a pitch bend on the channel of the
    strip, and dispatching it stores and notifies a fraction that differs
    from the original by less than [1/16368]: one step of the 16368 steps
    the encoder truncates to. *)
Theorem fader_round_trip (strip : Z) (fraction : float) (now : Z) (s : State) :
  0 <= strip <= 7 ->
  valid_binary prec emax fraction = true ->
  fle fzero fraction = true ->
  fle fraction (float_of_Z 1) = true ->
  exists value,
    setStripFader strip fraction = Some (PitchBend strip value) /\
    dispatchPacket (PitchBend strip value) now s
    = (update_strip strip (set_fader_position (pitch_bend_fraction value)) s,
       [handleStripFader strip (pitch_bend_fraction value)]) /\
    (Qabs (float_to_Q (pitch_bend_fraction value) - float_to_Q fraction)
     < 1 # 16368)%Q.
Proof.
  intros Hstrip Hvalid H0 H1.
  assert (Hdispatch : forall value,
             dispatchPacket (PitchBend strip value) now s
             = (update_strip strip (set_fader_position (pitch_bend_fraction value)) s,
                [handleStripFader strip (pitch_bend_fraction value)])).
  { intros value. cbn [dispatchPacket]. unfold dispatchPitchBend.
    replace (0 <=? strip) with true by (symmetry; apply Z.leb_le; lia).
    replace (strip <=? 7) with true by (symmetry; apply Z.leb_le; lia).
    reflexivity. }
  destruct fraction as [sg|sg| |sg m e].
  - exists (-8192). split; [|split; [apply Hdispatch|]].
    + unfold setStripFader, setPitchBend. rewrite wrap8_small by lia.
      destruct sg; reflexivity.
    + reflexivity.
  - destruct sg; discriminate.
  - discriminate.
  - destruct sg; [discriminate|].
    destruct (setStripFader_step strip m e Hstrip Hvalid H1)
      as (k & Hk & Henc & Habove & Hzero & Hbelow).
    destruct (fraction_at_most_one m e Hvalid H1) as [He _].
    exists (k - 8192). split; [exact Henc|]. split; [apply Hdispatch|].
    cbn [float_to_Q cond_Zopp].
    replace (0 <=? e) with false by (symmetry; apply Z.leb_gt; lia).
    set (P := Z.to_pos (2 ^ (- e))).
    assert (HP : Z.pos P = 2 ^ (- e)).
    { subst P. apply Z2Pos.id. apply pow2_pos. lia. }
    rewrite <- HP in Habove, Hzero, Hbelow.
    apply Qabs_Qlt_condition.
    destruct (Z.eq_dec k 0) as [->|Hnz].
    + specialize (Hzero eq_refl).
      change (float_to_Q (pitch_bend_fraction (0 - 8192))) with (0 # 1)%Q.
      unfold Qlt, Qminus, Qplus, Qopp. cbn [Qnum Qden]. split; lia.
    + destruct (decode_step k ltac:(lia)) as [Hup Hdown].
      apply step_above in Habove.
      apply step_below in Hbelow; [|lia].
      set (D := float_to_Q (pitch_bend_fraction (k - 8192))) in *.
      split; lra.
Qed.

(** The fraction 0.5 on strip 3. *)
Lemma fader_round_trip_witness :
  exists value,
    setStripFader 3 (S754_finite false 8388608 (-24)) = Some (PitchBend 3 value) /\
    dispatchPacket (PitchBend 3 value) 0 reset
    = (update_strip 3 (set_fader_position (pitch_bend_fraction value)) reset,
       [handleStripFader 3 (pitch_bend_fraction value)]) /\
    (Qabs (float_to_Q (pitch_bend_fraction value)
           - float_to_Q (S754_finite false 8388608 (-24)))
     < 1 # 16368)%Q.
Proof.
  apply (fader_round_trip 3 (S754_finite false 8388608 (-24)) 0 reset).
  - lia.
  - reflexivity.
  - reflexivity.
  - reflexivity.
Defined.

(** C5 (as stated) fails: the fraction [2049 * 2^-25] is encoded as step 0
    (the product [16368 * fraction] is below 1 and is truncated) and
    decoded as 0, which is more than [1/16384] away. *)
Lemma fader_round_trip_exceeds_one_16384th :
  valid_binary prec emax fraction_2049 = true /\
  fle fzero fraction_2049 = true /\
  fle fraction_2049 (float_of_Z 1) = true /\
  setStripFader 0 fraction_2049 = Some (PitchBend 0 (-8192)) /\
  pitch_bend_fraction (-8192) = fzero /\
  (1 # 16384
   < Qabs (float_to_Q (pitch_bend_fraction (-8192)) - float_to_Q fraction_2049))%Q.
Proof. repeat split. Qed.

(** ** Encoders against the decoder *)

(** A strip index from 0 to 7 is one of eight. *)
Lemma strip_cases strip :
  0 <= strip <= 7 ->
  strip = 0 \/ strip = 1 \/ strip = 2 \/ strip = 3 \/
  strip = 4 \/ strip = 5 \/ strip = 6 \/ strip = 7.
Proof. lia. Qed.

(** X1: for every strip 0 to 7, every strip button and either position,
    the packet of [setStripButton], dispatched, raises exactly the
    notification of that strip, button and position, sets the latch of
    the button to the position and keeps the other latches of the strip,
    the other strips and the members outside the strips. *)
Theorem strip_button_round_trip (strip : Z) (button : StripButton.t) (on : bool)
    (now : Z) (s : State) :
  length (_strips s) = 8%nat ->
  0 <= strip <= 7 ->
  let r := dispatchPacket (setStripButton strip button on) now s in
  snd r = [handleStripButton strip button on] /\
  strip_latch button (strip_at (fst r) strip) = on /\
  (forall b, b <> button ->
     strip_latch b (strip_at (fst r) strip) = strip_latch b (strip_at s strip)) /\
  (forall j : nat, j <> Z.to_nat strip -> _strips (fst r) !! j = _strips s !! j) /\
  same_globals s (fst r).
Proof.
  intros Hlen Hstrip r. subst r.
  assert (Hin : 0 <= strip < Z.of_nat (length (_strips s))) by lia.
  assert (Hnote : forall f : bool -> Strip -> Strip,
             dispatchPacket (setStripButton strip button on) now s
             = (update_strip strip (f on) s, [handleStripButton strip button on]) ->
             (forall st, strip_latch button (f on st) = on) ->
             (forall b st, b <> button -> strip_latch b (f on st) = strip_latch b st) ->
             snd (dispatchPacket (setStripButton strip button on) now s)
             = [handleStripButton strip button on] /\
             strip_latch button
               (strip_at (fst (dispatchPacket (setStripButton strip button on) now s)) strip)
             = on /\
             (forall b, b <> button ->
                strip_latch b
                  (strip_at (fst (dispatchPacket (setStripButton strip button on) now s)) strip)
                = strip_latch b (strip_at s strip)) /\
             (forall j : nat, j <> Z.to_nat strip ->
                _strips (fst (dispatchPacket (setStripButton strip button on) now s)) !! j
                = _strips s !! j) /\
             same_globals s (fst (dispatchPacket (setStripButton strip button on) now s))).
  { intros f -> Hset Hkeep. cbn [fst snd].
    split; [reflexivity|]. rewrite strip_at_update_eq by exact Hin.
    split; [apply Hset|]. split; [intros b Hb; apply Hkeep, Hb|].
    split; [|repeat split].
    intros j Hj. apply strips_update_ne. lia. }
  destruct button.
  - apply (Hnote set_button_arm); [|reflexivity|].
    + each_strip Hstrip; destruct on; reflexivity.
    + intros b st Hb. destruct b; try reflexivity. congruence.
  - apply (Hnote set_button_mute); [|reflexivity|].
    + each_strip Hstrip; destruct on; reflexivity.
    + intros b st Hb. destruct b; try reflexivity. congruence.
  - apply (Hnote set_button_select); [|reflexivity|].
    + each_strip Hstrip; destruct on; reflexivity.
    + intros b st Hb. destruct b; try reflexivity. congruence.
  - apply (Hnote set_button_solo); [|reflexivity|].
    + each_strip Hstrip; destruct on; reflexivity.
    + intros b st Hb. destruct b; try reflexivity. congruence.
  - apply (Hnote set_fader_touch); [|reflexivity|].
    + each_strip Hstrip; destruct on; reflexivity.
    + intros b st Hb. destruct b; try reflexivity. congruence.
  - apply (Hnote set_vpot_click); [|reflexivity|].
    + each_strip Hstrip; destruct on; reflexivity.
    + intros b st Hb. destruct b; try reflexivity. congruence.
Qed.

(** An assignment to a member of strip [i]. *)
Lemma only_strip_update i f s : only_strip i s (update_strip i f s).
Proof.
  split; [|repeat split]. intros j Hj. apply strips_update_ne. lia.
Qed.

(** Nothing written. *)
Lemma only_strip_refl i s : only_strip i s s.
Proof. split; [|repeat split]. reflexivity. Qed.

(** A note of a per-strip range writes the strip of its slot. *)
Lemma dispatchNote_slot note base velocity now s :
  note_base note = Some base ->
  only_strip (note - base) s (fst (dispatchNote 0 note velocity now s)).
Proof.
  unfold note_base, dispatchNote. cbn [Z.eqb].
  repeat match goal with
         | |- context [in_strip_range ?b note] =>
             destruct (in_strip_range b note);
             [intros [= <-]; cbn [fst]; apply only_strip_update|]
         end.
  discriminate.
Qed.

(** A rotary LED controller writes the strip of its slot. *)
Lemma dispatchControlChange_slot controller value s :
  in_strip_range Mackie.ChannelStrip.VPot.LED controller = true ->
  only_strip (controller - Mackie.ChannelStrip.VPot.LED) s
    (fst (dispatchControlChange 0 controller value s)).
Proof.
  intros Hrange. unfold dispatchControlChange. cbn [Z.eqb negb].
  replace ((Mackie.Display.Time.Digit <=? controller) &&
           (controller <=? Mackie.Display.Time.Digit + 9)) with false.
  2:{ unfold in_strip_range, Mackie.ChannelStrip.VPot.LED in Hrange.
      unfold Mackie.Display.Time.Digit. lia. }
  rewrite Hrange.
  destruct (Z.land value 15 =? 0); [cbn [fst]; apply only_strip_update|].
  destruct (vpot_led _ _) as [mode fraction]. cbn [fst]. apply only_strip_update.
Qed.

(** Two writes to the same strip. *)
Lemma only_strip_trans i s1 s2 s3 :
  only_strip i s1 s2 -> only_strip i s2 s3 -> only_strip i s1 s3.
Proof.
  intros [H1 (A1 & B1 & C1 & D1 & E1 & F1)] [H2 (A2 & B2 & C2 & D2 & E2 & F2)].
  split.
  - intros j Hj. rewrite H2, H1 by exact Hj. reflexivity.
  - repeat split; congruence.
Qed.

(** A channel pressure writes the strip of its high nibble. *)
Lemma dispatchAftertouchChannel_slot pressure now s :
  only_strip (Z.shiftr pressure 4) s (fst (dispatchAftertouchChannel 0 pressure now s)).
Proof.
  unfold dispatchAftertouchChannel. cbn [Z.eqb negb].
  destruct (7 <? Z.shiftr pressure 4); [apply only_strip_refl|].
  destruct ((0 <=? Z.land pressure 15) && (Z.land pressure 15 <=? 12));
    [cbn [fst]; eapply only_strip_trans; apply only_strip_update|].
  destruct (Z.land pressure 15 =? 13);
    [cbn [fst]; eapply only_strip_trans; apply only_strip_update|].
  destruct (Z.land pressure 15 =? 14);
    [cbn [fst]; eapply only_strip_trans; apply only_strip_update|].
  destruct (Z.land pressure 15 =? 15);
    [cbn [fst]; eapply only_strip_trans; apply only_strip_update|].
  cbn [fst]. apply only_strip_update.
Qed.

(** A pitch bend on the channels 0 to 7 writes the strip of its channel. *)
Lemma dispatchPitchBend_slot channel value s :
  (0 <=? channel) && (channel <=? 7) = true ->
  only_strip channel s (fst (dispatchPitchBend channel value s)).
Proof.
  intros H. unfold dispatchPitchBend. rewrite H. cbn [fst]. apply only_strip_update.
Qed.

(** The packet of a per-strip slot changes nothing but its strip. *)
Lemma dispatchPacket_slot packet range i now s :
  strip_slot packet = Some (range, i) ->
  only_strip i s (fst (dispatchPacket packet now s)).
Proof.
  destruct packet as [channel note velocity|channel note|channel controller value
                     |channel pressure|channel value|status channel];
    cbn [strip_slot dispatchPacket].
  - destruct (Z.eqb_spec channel 0) as [->|]; [|discriminate].
    destruct (note_base note) as [base|] eqn:Hbase; [|discriminate].
    intros [= <- <-]. apply dispatchNote_slot, Hbase.
  - destruct (Z.eqb_spec channel 0) as [->|]; [|discriminate].
    destruct (note_base note) as [base|] eqn:Hbase; [|discriminate].
    intros [= <- <-]. apply dispatchNote_slot, Hbase.
  - destruct (Z.eqb_spec channel 0) as [->|]; [|discriminate]. cbn [andb].
    destruct (in_strip_range _ controller) eqn:Hrange; [|discriminate].
    intros [= <- <-]. apply dispatchControlChange_slot, Hrange.
  - destruct (Z.eqb_spec channel 0) as [->|]; [|discriminate]. cbn [andb].
    destruct (_ <=? 7); [|discriminate].
    intros [= <- <-]. apply dispatchAftertouchChannel_slot.
  - destruct ((0 <=? channel) && (channel <=? 7)) eqn:Hc; [|discriminate].
    intros [= <- <-]. apply dispatchPitchBend_slot, Hc.
  - discriminate.
Qed.

(** X2: a packet that addresses a per-strip slot changes nothing but the
    strip of its slot, and the packet [setStripIndex] makes of it for a
    strip [k] from 0 to 7 changes nothing but strip [k]. *)
Theorem strip_packet_isolation (packet : Packet) (range : StripRange.t) (i k now : Z)
    (s : State) :
  strip_slot packet = Some (range, i) ->
  0 <= k <= 7 ->
  only_strip i s (fst (dispatchPacket packet now s)) /\
  exists q, setStripIndex packet k = Some q /\
            only_strip k s (fst (dispatchPacket q now s)).
Proof.
  intros Hslot Hk. split.
  - eapply dispatchPacket_slot, Hslot.
  - destruct (setStripIndex_supported packet range i k Hslot Hk) as (q & Hq & Hslotq & _).
    exists q. split; [exact Hq|]. eapply dispatchPacket_slot, Hslotq.
Qed.

(** The Select note of strip 2, and the same note retargeted to strip 5. *)
Lemma strip_packet_isolation_witness :
  only_strip 2 reset (fst (dispatchPacket (NoteOn 0 26 127) 0 reset)) /\
  exists q, setStripIndex (NoteOn 0 26 127) 5 = Some q /\
            only_strip 5 reset (fst (dispatchPacket q 0 reset)).
Proof.
  apply (strip_packet_isolation (NoteOn 0 26 127) (StripRange.Note 24) 2 5 0 reset).
  - reflexivity.
  - lia.
Defined.

(** The Select button of strip 3, pressed after a reset. *)
Lemma strip_button_round_trip_witness :
  let r := dispatchPacket (setStripButton 3 StripButton.Select true) 0 reset in
  snd r = [handleStripButton 3 StripButton.Select true] /\
  strip_latch StripButton.Select (strip_at (fst r) 3) = true /\
  (forall b, b <> StripButton.Select ->
     strip_latch b (strip_at (fst r) 3) = strip_latch b (strip_at reset 3)) /\
  (forall j : nat, j <> Z.to_nat 3 -> _strips (fst r) !! j = _strips reset !! j) /\
  same_globals reset (fst r).
Proof.
  apply (strip_button_round_trip 3 StripButton.Select true 0 reset).
  - reflexivity.
  - lia.
Defined.

(** A function number from 0 to 15 is one of sixteen. *)
Lemma function_cases function :
  0 <= function <= 15 ->
  In function [0; 1; 2; 3; 4; 5; 6; 7; 8; 9; 10; 11; 12; 13; 14; 15].
Proof. intros H. cbn [In]. lia. Qed.

(** X3: three encoders have no decoder: the packets of [setTouch] (the
    touch of the main fader), of [setFunctionButton] for the functions 0
    to 15 and of [setBankButton] for the next-channel button change
    nothing and raise nothing when they are dispatched. *)
Theorem encoded_but_not_decoded (on : bool) (function now : Z) (s : State) :
  0 <= function <= 15 ->
  dispatchPacket (setTouch on) now s = (s, []) /\
  dispatchPacket (setFunctionButton function on) now s = (s, []) /\
  dispatchPacket (setBankButton BankButton.NextChannel on) now s = (s, []).
Proof.
  intros Hf. split; [destruct on; reflexivity|]. split; [|destruct on; reflexivity].
  apply function_cases in Hf. cbn [In] in Hf.
  repeat (destruct Hf as [<-|Hf]; [destruct on; reflexivity|]).
  destruct Hf.
Qed.

(** The function button F7, pressed. *)
Lemma encoded_but_not_decoded_witness :
  dispatchPacket (setTouch true) 0 reset = (reset, []) /\
  dispatchPacket (setFunctionButton 6 true) 0 reset = (reset, []) /\
  dispatchPacket (setBankButton BankButton.NextChannel true) 0 reset = (reset, []).
Proof. apply (encoded_but_not_decoded true 6 0 reset). lia. Defined.

(** X4: a packet the decoder does not look at (a note on a channel other
    than 0 that is not the ping note on channel 15, a controller or a
    channel pressure off channel 0, a pitch bend off channels 0 to 8,
    any other status) changes nothing and raises nothing. *)
Theorem dispatchPacket_not_addressed (packet : Packet) (now : Z) (s : State) :
  addressed packet = false ->
  dispatchPacket packet now s = (s, []).
Proof.
  destruct packet as [channel note velocity|channel note|channel controller value
                     |channel pressure|channel value|status channel];
    cbn [addressed dispatchPacket]; intros H.
  - apply orb_false_iff in H as [H0 H15]. unfold dispatchNote. rewrite H0.
    destruct (channel =? 15) eqn:Hc; [|reflexivity].
    cbn [andb] in H15. rewrite H15. reflexivity.
  - apply orb_false_iff in H as [H0 H15]. unfold dispatchNote. rewrite H0.
    destruct (channel =? 15) eqn:Hc; [|reflexivity].
    cbn [andb] in H15. rewrite H15. reflexivity.
  - unfold dispatchControlChange. rewrite H. reflexivity.
  - unfold dispatchAftertouchChannel. rewrite H. reflexivity.
  - unfold dispatchPitchBend.
    destruct ((0 <=? channel) && (channel <=? 7)) eqn:H7; [lia|].
    destruct (Z.eqb_spec channel 8); [lia|reflexivity].
  - reflexivity.
Qed.

(** The Select note of strip 0 on channel 3. *)
Lemma dispatchPacket_not_addressed_witness :
  dispatchPacket (NoteOn 3 24 127) 0 reset = (reset, []).
Proof. apply (dispatchPacket_not_addressed (NoteOn 3 24 127) 0 reset). reflexivity. Defined.

(** The level [setStripMeter] computes for the fraction [m * 2^e]: an
    integer from 0 to 12 less than 1 away from [12 * m * 2^e]. *)
Lemma meter_level m e :
  valid_binary prec emax (S754_finite false m e) = true ->
  fle (S754_finite false m e) (float_of_Z 1) = true ->
  exists value,
    0 <= value <= 12 /\
    float_to_uint8 (fmul (S754_finite false m e) (float_of_Z 12)) = Some value /\
    (value - 1) * 2 ^ (- e) < 12 * Z.pos m < (value + 1) * 2 ^ (- e).
Proof.
  intros Hvalid Hle.
  destruct (fraction_at_most_one m e Hvalid Hle) as [He Hm].
  assert (HT : 0 < 2 ^ (- e)) by (apply pow2_pos; lia).
  assert (Hex : 2 ^ (- (e + -20)) = 1048576 * 2 ^ (- e)).
  { replace (- (e + -20)) with (20 + - e) by lia.
    rewrite Z.pow_add_r by lia. reflexivity. }
  assert (Hmx : Z.pos (m * 12582912) < 2 ^ (14 - (e + -20))).
  { replace (14 - (e + -20)) with (34 + - e) by lia.
    rewrite Z.pow_add_r, Pos2Z.inj_mul by lia.
    change (2 ^ 34) with 17179869184. nia. }
  destruct (binary_round_aux_exact false (m * 12582912) (e + -20))
    as (M & E & Hr & HM & HE & HE1 & Hmono); [lia|exact Hmx|].
  assert (HB : 0 < 2 ^ (- E)) by (apply pow2_pos; lia).
  set (value := M / 2 ^ (- E)).
  pose proof (Z.div_mod M (2 ^ (- E)) ltac:(lia)) as Hdm.
  pose proof (Z.mod_pos_bound M (2 ^ (- E)) HB) as Hmb.
  fold value in Hdm.
  assert (Hv0 : 0 <= value) by (apply Z.div_pos; lia).
  rewrite Hex, (Pos2Z.inj_mul m 12582912) in Hmono.
  assert (Hv1 : value <= 12).
  { destruct (Hmono 12) as (_ & Hup & _); [lia|].
    apply Z.div_le_upper_bound; [lia|]. rewrite Z.mul_comm. apply Hup. lia. }
  exists value. split; [lia|]. split; [|split].
  - unfold fmul.
    change (float_of_Z 12) with (S754_finite false 12582912 (-20)).
    cbn [SFmul xorb]. rewrite Hr.
    unfold float_to_uint8.
    match goal with
    | |- context [ftrunc ?x] => assert (Htr : ftrunc x = Some value)
    end.
    { destruct M as [|m0|m0]; [| |lia].
      - subst value. rewrite Z.div_0_l by lia. reflexivity.
      - cbn [ftrunc cond_Zopp].
        replace (0 <=? E) with false by (symmetry; apply Z.leb_gt; lia).
        rewrite Z.shiftr_div_pow2 by lia. reflexivity. }
    rewrite Htr.
    replace (0 <=? value) with true by (symmetry; apply Z.leb_le; lia).
    replace (value <=? 255) with true by (symmetry; apply Z.leb_le; lia).
    reflexivity.
  - (* an integer at or above the product is at or above the level *)
    destruct (Z.lt_ge_cases ((value - 1) * 2 ^ (- e)) (12 * Z.pos m)) as [|Hge];
      [assumption|exfalso].
    destruct (Z.le_gt_cases 1 value) as [H1|H1].
    + destruct (Hmono (value - 1)) as (_ & Hup & _); [lia|].
      assert (M <= (value - 1) * 2 ^ (- E)) by (apply Hup; lia). nia.
    + lia.
  - destruct (Z.lt_ge_cases (12 * Z.pos m) ((value + 1) * 2 ^ (- e))) as [|Hge];
      [assumption|exfalso].
    destruct (Hmono (value + 1)) as (Hlo & _); [lia|].
    assert ((value + 1) * 2 ^ (- E) <= M) by (apply Hlo; lia). nia.
Qed.

(** The packet of [setStripMeter] for a level that fits the low nibble. *)
Lemma setStripMeter_level strip fraction level :
  0 <= strip <= 7 -> 0 <= level <= 15 ->
  float_to_uint8 (fmul fraction (float_of_Z 12)) = Some level ->
  setStripMeter strip fraction = Some (AftertouchChannel 0 (16 * strip + level)).
Proof.
  intros Hs Hl Hconv. unfold setStripMeter. rewrite Hconv.
  unfold setAftertouchChannel. rewrite meter_byte_add by lia.
  rewrite (wrap8_small 0), wrap8_small by lia. reflexivity.
Qed.

(** The step [setStripFader] sends for the fraction [m * 2^e] decodes to
    less than one step away from the fraction. *)
Lemma setStripFader_error m e :
  valid_binary prec emax (S754_finite false m e) = true ->
  fle (S754_finite false m e) (float_of_Z 1) = true ->
  exists k,
    0 <= k <= 16368 /\
    setStripFader 0 (S754_finite false m e) = Some (PitchBend 0 (k - 8192)) /\
    (Qabs (float_to_Q (pitch_bend_fraction (k - 8192))
           - float_to_Q (S754_finite false m e)) < 1 # 16368)%Q.
Proof.
  intros Hvalid H1.
  destruct (setStripFader_step 0 m e ltac:(lia) Hvalid H1)
    as (k & Hk & Henc & Habove & Hzero & Hbelow).
  destruct (fraction_at_most_one m e Hvalid H1) as [He _].
  exists k. split; [exact Hk|]. split; [exact Henc|].
  cbn [float_to_Q cond_Zopp].
  replace (0 <=? e) with false by (symmetry; apply Z.leb_gt; lia).
  set (P := Z.to_pos (2 ^ (- e))).
  assert (HP : Z.pos P = 2 ^ (- e)).
  { subst P. apply Z2Pos.id. apply pow2_pos. lia. }
  rewrite <- HP in Habove, Hzero, Hbelow.
  apply Qabs_Qlt_condition.
  destruct (Z.eq_dec k 0) as [->|Hnz].
  - specialize (Hzero eq_refl).
    change (float_to_Q (pitch_bend_fraction (0 - 8192))) with (0 # 1)%Q.
    unfold Qlt, Qminus, Qplus, Qopp. cbn [Qnum Qden]. split; lia.
  - destruct (decode_step k ltac:(lia)) as [Hup Hdown].
    apply step_above in Habove.
    apply step_below in Hbelow; [|lia].
    set (D := float_to_Q (pitch_bend_fraction (k - 8192))) in *.
    split; lra.
Qed.

(** [setFader] is [setStripFader] on channel 8. *)
Lemma setFader_of_strip fraction value :
  setStripFader 0 fraction = Some (PitchBend 0 value) ->
  setFader fraction = Some (PitchBend 8 value).
Proof.
  unfold setStripFader, setFader.
  destruct (float_to_int16 _) as [range|]; [|discriminate].
  unfold setPitchBend. intros [= <-]. reflexivity.
Qed.

(** X5: for every binary32 fraction from 0 to 1, [setFader] builds a
    pitch bend on channel 8, and dispatching it stores the decoded
    fraction in the main fader, raises [handleFader] with it and changes
    nothing else; the decoded fraction differs from the original by less
    than [1/16368]. *)
Theorem main_fader_round_trip (fraction : float) (now : Z) (s : State) :
  valid_binary prec emax fraction = true ->
  fle fzero fraction = true ->
  fle fraction (float_of_Z 1) = true ->
  exists value,
    setFader fraction = Some (PitchBend 8 value) /\
    dispatchPacket (PitchBend 8 value) now s
    = (with_main_fader (pitch_bend_fraction value) s,
       [handleFader (pitch_bend_fraction value)]) /\
    (Qabs (float_to_Q (pitch_bend_fraction value) - float_to_Q fraction)
     < 1 # 16368)%Q.
Proof.
  intros Hvalid H0 H1.
  destruct fraction as [sg|sg| |sg m e].
  - exists (-8192). split; [destruct sg; reflexivity|]. split; reflexivity.
  - destruct sg; discriminate.
  - discriminate.
  - destruct sg; [discriminate|].
    destruct (setStripFader_error m e Hvalid H1) as (k & Hk & Henc & Herr).
    exists (k - 8192). split; [apply setFader_of_strip, Henc|].
    split; [reflexivity|exact Herr].
Qed.

(** The fraction 0.75. *)
Lemma main_fader_round_trip_witness :
  exists value,
    setFader (S754_finite false 12582912 (-24)) = Some (PitchBend 8 value) /\
    dispatchPacket (PitchBend 8 value) 0 reset
    = (with_main_fader (pitch_bend_fraction value) reset,
       [handleFader (pitch_bend_fraction value)]) /\
    (Qabs (float_to_Q (pitch_bend_fraction value)
           - float_to_Q (S754_finite false 12582912 (-24)))
     < 1 # 16368)%Q.
Proof.
  apply (main_fader_round_trip (S754_finite false 12582912 (-24)) 0 reset);
    reflexivity.
Defined.

(** Dispatching the meter level [level] of strip [strip]. *)
Lemma dispatch_meter_level strip level now s :
  length (_strips s) = 8%nat ->
  0 <= strip <= 7 -> 0 <= level <= 12 ->
  let r := dispatchPacket (AftertouchChannel 0 (16 * strip + level)) now s in
  let fraction := fdiv (float_of_Z level) (float_of_Z 12) in
  snd r = [handleStripMeter strip fraction (meter_overload (meter (strip_at s strip)))] /\
  meter (strip_at (fst r) strip)
  = {| meter_fraction := fraction;
       meter_overload := meter_overload (meter (strip_at s strip));
       meter_usec := now |}.
Proof.
  intros Hlen Hs Hl r fraction. subst r.
  pose proof (meter_byte_index strip level Hs ltac:(lia)) as Hi.
  pose proof (meter_byte_value strip level Hs ltac:(lia)) as Hv.
  rewrite meter_byte_add, wrap8_small in Hi, Hv by lia.
  cbn [dispatchPacket]. unfold dispatchAftertouchChannel. cbn [Z.eqb negb].
  rewrite Hi, Hv.
  replace (7 <? strip) with false by (symmetry; apply Z.ltb_ge; lia).
  replace (0 <=? level) with true by (symmetry; apply Z.leb_le; lia).
  replace (level <=? 12) with true by (symmetry; apply Z.leb_le; lia).
  cbn [andb fst snd app].
  rewrite !strip_at_update_eq by (rewrite ?length_strips_update; lia).
  split; reflexivity.
Qed.

(** X6: for every strip 0 to 7 and every binary32 fraction from 0 to 1,
    [setStripMeter] sends a level from 0 to 12 that is less than 1 away
    from [12 * fraction], in the channel pressure [16 * strip + level];
    dispatching it stores [level / 12] (in binary32) with the time stamp
    in the meter of the strip, keeps the overload flag, and raises one
    [handleStripMeter] with the stored fraction and flag. *)
Theorem strip_meter_round_trip (strip : Z) (fraction : float) (now : Z) (s : State) :
  length (_strips s) = 8%nat ->
  0 <= strip <= 7 ->
  valid_binary prec emax fraction = true ->
  fle fzero fraction = true ->
  fle fraction (float_of_Z 1) = true ->
  exists level,
    0 <= level <= 12 /\
    setStripMeter strip fraction = Some (AftertouchChannel 0 (16 * strip + level)) /\
    (Qabs (inject_Z level - 12 * float_to_Q fraction) < 1)%Q /\
    let r := dispatchPacket (AftertouchChannel 0 (16 * strip + level)) now s in
    let decoded := fdiv (float_of_Z level) (float_of_Z 12) in
    snd r = [handleStripMeter strip decoded (meter_overload (meter (strip_at s strip)))] /\
    meter (strip_at (fst r) strip)
    = {| meter_fraction := decoded;
         meter_overload := meter_overload (meter (strip_at s strip));
         meter_usec := now |}.
Proof.
  intros Hlen Hstrip Hvalid H0 H1.
  destruct fraction as [sg|sg| |sg m e].
  - exists 0. split; [lia|]. split; [|split].
    + apply setStripMeter_level; [exact Hstrip|lia|reflexivity].
    + reflexivity.
    + apply dispatch_meter_level; [exact Hlen|exact Hstrip|lia].
  - destruct sg; discriminate.
  - discriminate.
  - destruct sg; [discriminate|].
    destruct (meter_level m e Hvalid H1) as (level & Hl & Hconv & Hlo & Hhi).
    destruct (fraction_at_most_one m e Hvalid H1) as [He _].
    exists level. split; [exact Hl|].
    split; [apply setStripMeter_level; [exact Hstrip|lia|exact Hconv]|]. split.
    + cbn [float_to_Q cond_Zopp].
      replace (0 <=? e) with false by (symmetry; apply Z.leb_gt; lia).
      set (P := Z.to_pos (2 ^ (- e))).
      assert (HP : Z.pos P = 2 ^ (- e)).
      { subst P. apply Z2Pos.id. apply pow2_pos. lia. }
      rewrite <- HP in Hlo, Hhi.
      apply Qabs_Qlt_condition.
      unfold Qlt, Qminus, Qplus, Qopp, Qmult, inject_Z. cbn [Qnum Qden].
      split; lia.
    + apply dispatch_meter_level; [exact Hlen|exact Hstrip|exact Hl].
Qed.

(** The fraction 0.5 on strip 2. *)
Lemma strip_meter_round_trip_witness :
  exists level,
    0 <= level <= 12 /\
    setStripMeter 2 (S754_finite false 8388608 (-24))
    = Some (AftertouchChannel 0 (16 * 2 + level)) /\
    (Qabs (inject_Z level - 12 * float_to_Q (S754_finite false 8388608 (-24))) < 1)%Q /\
    let r := dispatchPacket (AftertouchChannel 0 (16 * 2 + level)) 1000 reset in
    let decoded := fdiv (float_of_Z level) (float_of_Z 12) in
    snd r = [handleStripMeter 2 decoded (meter_overload (meter (strip_at reset 2)))] /\
    meter (strip_at (fst r) 2)
    = {| meter_fraction := decoded;
         meter_overload := meter_overload (meter (strip_at reset 2));
         meter_usec := 1000 |}.
Proof.
  apply (strip_meter_round_trip 2 (S754_finite false 8388608 (-24)) 1000 reset).
  - reflexivity.
  - lia.
  - reflexivity.
  - reflexivity.
  - reflexivity.
Defined.

(** The decoder sees a pitch bend value through its clamp. *)
Lemma pitch_bend_fraction_step value :
  pitch_bend_fraction value = pitch_bend_fraction (pitch_bend_step value - 8192).
Proof.
  unfold pitch_bend_fraction, pitch_bend_step.
  destruct (Z.ltb_spec 8176 value) as [Hhi|Hhi].
  - replace (Z.max 0 (Z.min 16368 (value + 8192)) - 8192) with 8176 by lia.
    reflexivity.
  - destruct (Z.ltb_spec value (-8192)) as [Hlo|Hlo].
    + replace (Z.max 0 (Z.min 16368 (value + 8192)) - 8192) with (-8192) by lia.
      reflexivity.
    + replace (Z.max 0 (Z.min 16368 (value + 8192)) - 8192) with value by lia.
      replace (8176 <? value) with false by (symmetry; apply Z.ltb_ge; lia).
      replace (value <? -8192) with false by (symmetry; apply Z.ltb_ge; lia).
      reflexivity.
Qed.

(** The decoded fraction of step [k] lies within [2^-11] of a step below
    [k / 16368] and [2^-25] above it. *)
Lemma decode_bounds k :
  1 <= k <= 16368 ->
  ((k # 16368) - (1 # 33521664) < float_to_Q (pitch_bend_fraction (k - 8192)) /\
   float_to_Q (pitch_bend_fraction (k - 8192)) <= (k # 16368) + (1 # 33554432))%Q.
Proof.
  intros Hk. destruct (decode_step k Hk) as [Hup Hdown].
  pose proof (Z.log2_spec k ltac:(lia)) as [Hlog _].
  assert (Hlog13 : 2 ^ Z.log2 k <= 8192).
  { change 8192 with (2 ^ 13). apply Z.pow_le_mono_r; [lia|].
    assert (Z.log2 k < 14); [|lia]. apply Z.log2_lt_pow2; [lia|].
    change (2 ^ 14) with 16384. lia. }
  assert (Hq : (2 ^ Z.log2 k # 274609471488 <= 1 # 33521664)%Q).
  { unfold Qle. cbn [Qnum Qden]. lia. }
  set (D := float_to_Q (pitch_bend_fraction (k - 8192))) in *.
  split; lra.
Qed.

(** X7: the fraction a pitch bend value decodes to lies between 0 and 1;
    it is 0 for every value at or below -8192 and 1 for every value at or
    above 8176 (the clamp), and between the two it increases strictly
    with the value. *)
Theorem pitch_bend_fraction_range (value value' : Z) :
  (0 <= float_to_Q (pitch_bend_fraction value) <= 1)%Q /\
  (value <= -8192 -> pitch_bend_fraction value = fzero) /\
  (8176 <= value -> pitch_bend_fraction value = float_of_Z 1) /\
  (-8192 <= value -> value < value' -> value' <= 8176 ->
   (float_to_Q (pitch_bend_fraction value)
    < float_to_Q (pitch_bend_fraction value'))%Q).
Proof.
  assert (Hpos : forall k, 1 <= k <= 16368 ->
            (0 < float_to_Q (pitch_bend_fraction (k - 8192)))%Q).
  { intros k Hk. destruct (decode_bounds k Hk) as [Hlo _].
    assert (Hq : (1 # 16368 <= k # 16368)%Q) by (unfold Qle; cbn [Qnum Qden]; lia).
    lra. }
  split; [|split; [|split]].
  - rewrite pitch_bend_fraction_step.
    assert (Hk : 0 <= pitch_bend_step value <= 16368) by (unfold pitch_bend_step; lia).
    destruct (Z.eq_dec (pitch_bend_step value) 0) as [->|H0];
      [split; apply Qle_bool_iff; reflexivity|].
    destruct (Z.eq_dec (pitch_bend_step value) 16368) as [->|H1];
      [split; apply Qle_bool_iff; reflexivity|].
    destruct (decode_bounds (pitch_bend_step value) ltac:(lia)) as [Hlo Hhi].
    specialize (Hpos (pitch_bend_step value) ltac:(lia)).
    assert (Hq : (pitch_bend_step value # 16368 <= 16367 # 16368)%Q)
      by (unfold Qle; cbn [Qnum Qden]; lia).
    split; lra.
  - intros Hv. rewrite pitch_bend_fraction_step.
    replace (pitch_bend_step value) with 0 by (unfold pitch_bend_step; lia).
    reflexivity.
  - intros Hv. rewrite pitch_bend_fraction_step.
    replace (pitch_bend_step value) with 16368 by (unfold pitch_bend_step; lia).
    reflexivity.
  - intros Hlo Hlt Hhi.
    replace value with (value + 8192 - 8192) by lia.
    replace value' with (value' + 8192 - 8192) by lia.
    set (k := value + 8192). set (k' := value' + 8192).
    assert (Hk : 0 <= k < k' /\ k' <= 16368) by lia.
    destruct (Z.eq_dec k 0) as [->|H0]; [apply (Hpos k'); lia|].
    destruct (decode_bounds k ltac:(lia)) as [_ Hup].
    destruct (decode_bounds k' ltac:(lia)) as [Hdown _].
    assert (Hq : ((k # 16368) + (1 # 16368) <= k' # 16368)%Q)
      by (unfold Qle, Qplus; cbn [Qnum Qden]; lia).
    lra.
Qed.

(** A value converted to [int16_t] twice. *)
Lemma wrap_int16_idem z : wrap_int16 (wrap_int16 z) = wrap_int16 z.
Proof.
  apply wrap_int16_small. unfold wrap_int16.
  pose proof (Z.mod_pos_bound (z + 32768) 65536). lia.
Qed.

(** X8: retargeting the packet of a strip encoder is encoding for the
    target strip: for strips [i] and [k] from 0 to 7, [setStripIndex] at
    [k] maps the packet of [setStripButton], [setStripVPotDisplay],
    [setStripFader] and [setStripMeter] for strip [i] (fader and meter at
    a binary32 fraction from 0 to 1) to the packet the same encoder
    builds for strip [k]. *)
Theorem setStripIndex_encoders (i k : Z) (button : StripButton.t) (on : bool)
    (value : Z) (fraction : float) :
  0 <= i <= 7 ->
  0 <= k <= 7 ->
  valid_binary prec emax fraction = true ->
  fle fzero fraction = true ->
  fle fraction (float_of_Z 1) = true ->
  setStripIndex (setStripButton i button on) k = Some (setStripButton k button on) /\
  setStripIndex (setStripVPotDisplay i value) k = Some (setStripVPotDisplay k value) /\
  (exists packet, setStripFader i fraction = Some packet /\
                  setStripIndex packet k = setStripFader k fraction) /\
  (exists packet, setStripMeter i fraction = Some packet /\
                  setStripIndex packet k = setStripMeter k fraction).
Proof.
  intros Hi Hk Hvalid H0 H1. split; [|split; [|split]].
  - apply strip_cases in Hi.
    destruct Hi as [->|[->|[->|[->|[->|[->|[->| ->]]]]]]];
      destruct button, on; reflexivity.
  - unfold setStripVPotDisplay, setControlChange, Mackie.ChannelStrip.VPot.LED.
    rewrite (wrap8_small 0), (wrap8_small (48 + i)), (wrap8_small (48 + k)) by lia.
    cbn [setStripIndex Z.eqb negb].
    replace (in_strip_range Mackie.ChannelStrip.VPot.LED (48 + i)) with true.
    2:{ symmetry. unfold in_strip_range, Mackie.ChannelStrip.VPot.LED.
        apply andb_true_iff. split; apply Z.leb_le; lia. }
    unfold setControlChange, Mackie.ChannelStrip.VPot.LED.
    rewrite (wrap8_small 0), (wrap8_small (48 + k)), wrap8_idem by lia. reflexivity.
  - assert (Hsome : exists packet, setStripFader i fraction = Some packet).
    { destruct fraction as [sg|sg| |sg m e].
      - eexists. unfold setStripFader. destruct sg; reflexivity.
      - destruct sg; discriminate.
      - discriminate.
      - destruct sg; [discriminate|].
        destruct (setStripFader_step i m e Hi Hvalid H1) as (step & _ & Henc & _).
        eexists. exact Henc. }
    destruct Hsome as [packet Hpacket]. exists packet. split; [exact Hpacket|].
    revert Hpacket. unfold setStripFader.
    destruct (float_to_int16 _) as [range|]; [|discriminate].
    intros [= <-]. unfold setPitchBend. rewrite (wrap8_small i) by lia.
    cbn [setStripIndex].
    replace ((0 <=? i) && (i <=? 7)) with true
      by (symmetry; apply andb_true_iff; split; apply Z.leb_le; lia).
    unfold setPitchBend. rewrite !wrap_int16_idem. reflexivity.
  - assert (Hlevel : exists level, 0 <= level <= 12 /\
              float_to_uint8 (fmul fraction (float_of_Z 12)) = Some level).
    { destruct fraction as [sg|sg| |sg m e].
      - exists 0. split; [lia|reflexivity].
      - destruct sg; discriminate.
      - discriminate.
      - destruct sg; [discriminate|].
        destruct (meter_level m e Hvalid H1) as (level & Hl & Hconv & _).
        exists level. split; assumption. }
    destruct Hlevel as (level & Hl & Hconv).
    exists (AftertouchChannel 0 (16 * i + level)).
    split; [apply setStripMeter_level; [exact Hi|lia|exact Hconv]|].
    rewrite (setStripMeter_level k fraction level) by (try exact Hconv; lia).
    pose proof (meter_byte_index i level Hi ltac:(lia)) as Hidx.
    pose proof (meter_byte_value i level Hi ltac:(lia)) as Hval.
    rewrite meter_byte_add, wrap8_small in Hidx, Hval by lia.
    cbn [setStripIndex Z.eqb negb]. rewrite Hidx, Hval.
    replace (7 <? i) with false by (symmetry; apply Z.ltb_ge; lia).
    unfold setAftertouchChannel. rewrite meter_byte_add by lia.
    rewrite (wrap8_small 0), wrap8_small by lia. reflexivity.
Qed.

(** From strip 1 to strip 6, at the fraction 0.5. *)
Lemma setStripIndex_encoders_witness :
  setStripIndex (setStripButton 1 StripButton.Mute true) 6
  = Some (setStripButton 6 StripButton.Mute true) /\
  setStripIndex (setStripVPotDisplay 1 0x56) 6 = Some (setStripVPotDisplay 6 0x56) /\
  (exists packet, setStripFader 1 (S754_finite false 8388608 (-24)) = Some packet /\
     setStripIndex packet 6 = setStripFader 6 (S754_finite false 8388608 (-24))) /\
  (exists packet, setStripMeter 1 (S754_finite false 8388608 (-24)) = Some packet /\
                  setStripIndex packet 6
                  = setStripMeter 6 (S754_finite false 8388608 (-24))).
Proof.
  apply (setStripIndex_encoders 1 6 StripButton.Mute true 0x56
           (S754_finite false 8388608 (-24))); try lia; reflexivity.
Defined.

(** X9: the fader encoders stay inside the range the decoder does not
    clamp: for every binary32 fraction from 0 to 1, [setStripFader] and
    [setFader] build the same pitch bend value, from -8192 to 8176; the
    fraction 0 gives -8192 and the fraction 1 gives 8176. *)
Theorem fader_encoder_range (strip : Z) (fraction : float) :
  0 <= strip <= 7 ->
  valid_binary prec emax fraction = true ->
  fle fzero fraction = true ->
  fle fraction (float_of_Z 1) = true ->
  (exists value,
     -8192 <= value <= 8176 /\
     setStripFader strip fraction = Some (PitchBend strip value) /\
     setFader fraction = Some (PitchBend 8 value)) /\
  setStripFader strip fzero = Some (PitchBend strip (-8192)) /\
  setStripFader strip (float_of_Z 1) = Some (PitchBend strip 8176).
Proof.
  intros Hstrip Hvalid H0 H1.
  assert (Hends : setStripFader strip fzero = Some (PitchBend strip (-8192)) /\
                  setStripFader strip (float_of_Z 1) = Some (PitchBend strip 8176)).
  { unfold setStripFader, setPitchBend. rewrite wrap8_small by lia.
    split; reflexivity. }
  split; [|exact Hends].
  destruct fraction as [sg|sg| |sg m e].
  - exists (-8192). split; [lia|]. split; [|destruct sg; reflexivity].
    unfold setStripFader, setPitchBend. rewrite wrap8_small by lia.
    destruct sg; reflexivity.
  - destruct sg; discriminate.
  - discriminate.
  - destruct sg; [discriminate|].
    destruct (setStripFader_step strip m e Hstrip Hvalid H1) as (k & Hk & Henc & _).
    destruct (setStripFader_step 0 m e ltac:(lia) Hvalid H1) as (k0 & Hk0 & Henc0 & _).
    exists (k - 8192). split; [lia|]. split; [exact Henc|].
    apply setFader_of_strip.
    assert (k0 = k); [|subst k0; exact Henc0].
    revert Henc Henc0. unfold setStripFader.
    destruct (float_to_int16 _) as [range|]; [|discriminate].
    unfold setPitchBend. intros [= _ Hv] [= Hv0]. lia.
Qed.

(** The fraction 0.5 on strip 3. *)
Lemma fader_encoder_range_witness :
  (exists value,
     -8192 <= value <= 8176 /\
     setStripFader 3 (S754_finite false 8388608 (-24)) = Some (PitchBend 3 value) /\
     setFader (S754_finite false 8388608 (-24)) = Some (PitchBend 8 value)) /\
  setStripFader 3 fzero = Some (PitchBend 3 (-8192)) /\
  setStripFader 3 (float_of_Z 1) = Some (PitchBend 3 8176).
Proof.
  apply (fader_encoder_range 3 (S754_finite false 8388608 (-24)));
    try lia; reflexivity.
Defined.

(** Dispatching the overload nibble 14 (set) or 15 (clear) of strip
    [strip]. *)
Lemma dispatch_meter_overload strip (flag : bool) now s :
  length (_strips s) = 8%nat ->
  0 <= strip <= 7 ->
  let nibble := if flag then 14 else 15 in
  let r := dispatchPacket (AftertouchChannel 0 (16 * strip + nibble)) now s in
  let old := meter (strip_at s strip) in
  snd r = (if Bool.eqb (meter_overload old) flag then []
           else [handleStripMeterOverload strip flag])
          ++ [handleStripMeter strip (meter_fraction old) flag] /\
  meter (strip_at (fst r) strip)
  = {| meter_fraction := meter_fraction old; meter_overload := flag;
       meter_usec := now |} /\
  length (_strips (fst r)) = 8%nat.
Proof.
  intros Hlen Hs nibble r old. subst r.
  assert (Hn : 14 <= nibble <= 15) by (subst nibble; destruct flag; lia).
  pose proof (meter_byte_index strip nibble Hs ltac:(lia)) as Hi.
  pose proof (meter_byte_value strip nibble Hs ltac:(lia)) as Hv.
  rewrite meter_byte_add, wrap8_small in Hi, Hv by lia.
  cbn [dispatchPacket]. unfold dispatchAftertouchChannel. cbn [Z.eqb negb].
  rewrite Hi, Hv.
  replace (7 <? strip) with false by (symmetry; apply Z.ltb_ge; lia).
  fold old. subst nibble.
  destruct flag; cbn [Z.leb Z.eqb Pos.eqb Z.compare Pos.compare Pos.compare_cont andb
                        fst snd];
    rewrite !length_strips_update;
    rewrite !strip_at_update_eq by (rewrite ?length_strips_update; lia);
    fold old; destruct (meter_overload old); repeat split; try reflexivity;
    exact Hlen.
Qed.

(** X10: the overload notification is raised on a change only. After the
    overload nibble (14 sets, 15 clears) of a strip has been dispatched,
    the same nibble again raises [handleStripMeter] alone, and the
    opposite nibble raises [handleStripMeterOverload] with the new flag
    and then [handleStripMeter]; the meter fraction is the one from
    before throughout. *)
Theorem overload_edge_triggered (strip t t' : Z) (flag : bool) (s : State) :
  length (_strips s) = 8%nat ->
  0 <= strip <= 7 ->
  let nibble (b : bool) := if b then 14 else 15 in
  let s1 := fst (dispatchPacket (AftertouchChannel 0 (16 * strip + nibble flag)) t s) in
  let fraction := meter_fraction (meter (strip_at s strip)) in
  meter_overload (meter (strip_at s1 strip)) = flag /\
  snd (dispatchPacket (AftertouchChannel 0 (16 * strip + nibble flag)) t' s1)
  = [handleStripMeter strip fraction flag] /\
  snd (dispatchPacket (AftertouchChannel 0 (16 * strip + nibble (negb flag))) t' s1)
  = [handleStripMeterOverload strip (negb flag);
     handleStripMeter strip fraction (negb flag)].
Proof.
  intros Hlen Hs nibble s1 fraction.
  destruct (dispatch_meter_overload strip flag t s Hlen Hs) as (_ & Hm & Hlen1).
  fold (nibble flag) in Hm, Hlen1. fold s1 in Hm, Hlen1.
  destruct (dispatch_meter_overload strip flag t' s1 Hlen1 Hs) as (Hev & _).
  destruct (dispatch_meter_overload strip (negb flag) t' s1 Hlen1 Hs) as (Hev' & _).
  fold (nibble flag) in Hev. fold (nibble (negb flag)) in Hev'.
  rewrite Hm in Hev, Hev'. cbn [meter_overload meter_fraction] in Hev, Hev'.
  rewrite Hm. cbn [meter_overload].
  split; [reflexivity|]. split.
  - rewrite Hev. destruct flag; reflexivity.
  - rewrite Hev'. destruct flag; reflexivity.
Qed.

(** Strip 5, overload set. *)
Lemma overload_edge_triggered_witness :
  let nibble (b : bool) := if b then 14 else 15 in
  let s1 := fst (dispatchPacket (AftertouchChannel 0 (16 * 5 + nibble true)) 10 reset) in
  let fraction := meter_fraction (meter (strip_at reset 5)) in
  meter_overload (meter (strip_at s1 5)) = true /\
  snd (dispatchPacket (AftertouchChannel 0 (16 * 5 + nibble true)) 20 s1)
  = [handleStripMeter 5 fraction true] /\
  snd (dispatchPacket (AftertouchChannel 0 (16 * 5 + nibble (negb true))) 20 s1)
  = [handleStripMeterOverload 5 (negb true); handleStripMeter 5 fraction (negb true)].
Proof.
  apply (overload_edge_triggered 5 10 20 true reset).
  - reflexivity.
  - lia.
Defined.

(** Every rotary LED byte from 0 to 127, by computation. *)
Lemma vpot_decode_table : forallb vpot_decode_ok (seqZ 0 128) = true.
Proof. vm_compute. reflexivity. Qed.

(** The test of ring modes decides equality. *)
Lemma VPotMode_eqb_eq a b : VPotMode_eqb a b = true -> a = b.
Proof. destruct a, b; (reflexivity || discriminate). Qed.

(** [dispatchControlChange] on a rotary LED controller. *)
Lemma dispatchControlChange_vpot strip value s :
  0 <= strip <= 7 ->
  dispatchControlChange 0 (Mackie.ChannelStrip.VPot.LED + strip) value s
  = let '(shown, center, fraction) := vpot_decode value in
    (update_strip strip (set_vpot_display shown center fraction) s,
     [handleStripVPotDisplayValue (Mackie.ChannelStrip.VPot.LED + strip
                                   - Mackie.ChannelStrip.VPot.LED) value;
      handleStripVPotDisplay (Mackie.ChannelStrip.VPot.LED + strip
                              - Mackie.ChannelStrip.VPot.LED) shown center fraction]).
Proof.
  intros Hs. unfold dispatchControlChange, vpot_decode. cbn [Z.eqb negb].
  replace ((Mackie.Display.Time.Digit <=? Mackie.ChannelStrip.VPot.LED + strip) &&
           (Mackie.ChannelStrip.VPot.LED + strip <=? Mackie.Display.Time.Digit + 9))
    with false.
  2:{ unfold Mackie.ChannelStrip.VPot.LED, Mackie.Display.Time.Digit. lia. }
  replace (in_strip_range Mackie.ChannelStrip.VPot.LED
             (Mackie.ChannelStrip.VPot.LED + strip)) with true.
  2:{ symmetry. unfold in_strip_range. apply andb_true_iff.
      split; apply Z.leb_le; lia. }
  replace (Mackie.ChannelStrip.VPot.LED + strip - Mackie.ChannelStrip.VPot.LED)
    with strip by lia.
  destruct (Z.land value 15 =? 0); [reflexivity|].
  destruct (vpot_led _ _) as [shown fraction]. reflexivity.
Qed.

(** The test for the float [+0] decides equality with it. *)
Lemma is_fzero_eq x : is_fzero x = true -> x = fzero.
Proof. destruct x as [[|]| | |]; (reflexivity || discriminate). Qed.

(** X11: for every strip 0 to 7 and every value from 0 to 127, the packet
    of [setStripVPotDisplay], dispatched, raises the raw value first and
    then the interpretation, which it also stores in the strip (keeping
    the click latch): the centre dot is bit 6, the ring is off at
    position 0, a pan in the mode Boost and a bar otherwise, and the
    fraction is a number (no infinity, no NaN) within [2^-23] of
    [position / 11] (Single, Bar), [(position - 6) / 5] (Boost) or
    [position / 6] (Spread). Where that value is 0, at position 0 and at
    the centre position 6 of a pan, the fraction is the float [+0]
    itself. *)
Theorem vpot_display_round_trip (strip value now : Z) (s : State) :
  0 <= strip <= 7 ->
  0 <= value <= 127 ->
  let position := value mod 16 in
  let mode := (value / 16) mod 4 in
  let center := 64 <=? value in
  exists fraction,
    dispatchPacket (setStripVPotDisplay strip value) now s
    = (update_strip strip
         (set_vpot_display (vpot_shown mode position) center fraction) s,
       [handleStripVPotDisplayValue strip value;
        handleStripVPotDisplay strip (vpot_shown mode position) center fraction]) /\
    is_number fraction = true /\
    (Qabs (float_to_Q fraction - vpot_exact mode position) <= 1 # 8388608)%Q /\
    (position = 0 -> fraction = fzero) /\
    ((vpot_exact mode position == 0)%Q -> fraction = fzero).
Proof.
  intros Hs Hv position mode center.
  assert (Hok : vpot_decode_ok value = true).
  { pose proof vpot_decode_table as Ht. rewrite forallb_forall in Ht. apply Ht.
    apply list_elem_of_In, elem_of_seqZ. lia. }
  unfold vpot_decode_ok in Hok.
  unfold setStripVPotDisplay, setControlChange.
  rewrite (wrap8_small 0), (wrap8_small value) by lia.
  rewrite wrap8_small by (unfold Mackie.ChannelStrip.VPot.LED; lia).
  cbn [dispatchPacket]. rewrite dispatchControlChange_vpot by exact Hs.
  destruct (vpot_decode value) as [[shown c] fraction].
  apply andb_true_iff in Hok as [Hok Hzero].
  apply andb_true_iff in Hok as [Hok Hnumber].
  apply andb_true_iff in Hok as [Hok Herr].
  apply andb_true_iff in Hok as [Hshown Hcenter].
  apply VPotMode_eqb_eq in Hshown. apply Bool.eqb_prop in Hcenter.
  apply Qle_bool_iff in Herr. fold position mode in Hshown, Herr, Hzero.
  subst shown c. exists fraction. fold center.
  replace (Mackie.ChannelStrip.VPot.LED + strip - Mackie.ChannelStrip.VPot.LED)
    with strip by lia.
  split; [reflexivity|]. split; [exact Hnumber|]. split; [exact Herr|].
  assert (Hexact : (vpot_exact mode position == 0)%Q -> fraction = fzero).
  { intros Hq. apply Qeq_bool_iff in Hq. rewrite Hq in Hzero.
    apply is_fzero_eq, Hzero. }
  split; [|exact Hexact].
  intros Hp. apply Hexact. unfold vpot_exact. rewrite Hp. reflexivity.
Qed.

(** Strip 4, the pan at its centre with the centre dot lit. *)
Lemma vpot_display_round_trip_witness :
  exists fraction,
    dispatchPacket (setStripVPotDisplay 4 0x56) 0 reset
    = (update_strip 4
         (set_vpot_display (vpot_shown ((0x56 / 16) mod 4) (0x56 mod 16))
            (64 <=? 0x56) fraction) reset,
       [handleStripVPotDisplayValue 4 0x56;
        handleStripVPotDisplay 4 (vpot_shown ((0x56 / 16) mod 4) (0x56 mod 16))
          (64 <=? 0x56) fraction]) /\
    is_number fraction = true /\
    (Qabs (float_to_Q fraction - vpot_exact ((0x56 / 16) mod 4) (0x56 mod 16))
     <= 1 # 8388608)%Q /\
    (0x56 mod 16 = 0 -> fraction = fzero) /\
    ((vpot_exact ((0x56 / 16) mod 4) (0x56 mod 16) == 0)%Q -> fraction = fzero).
Proof. apply (vpot_display_round_trip 4 0x56 0 reset); lia. Defined.

(** ** The monitor in closed form *)

(** The meter loop over the strips [i .. i + n - 1]: each strip is judged
    on its own state and clock reading, whatever the loop did before. *)
Lemma loop_meters_spec n i now s :
  0 <= i ->
  i + Z.of_nat n <= Z.of_nat (length (_strips s)) ->
  let r := loop_meters n i now s in
  snd r = map (fun j => handleStripMeter j fzero false)
              (List.filter (fun j => meter_lapsed (now j) (strip_at s j))
                 (seqZ i (Z.of_nat n))) /\
  same_globals s (fst r) /\
  length (_strips (fst r)) = length (_strips s) /\
  forall j, 0 <= j ->
    strip_at (fst r) j
    = if (i <=? j) && (j <? i + Z.of_nat n) && meter_lapsed (now j) (strip_at s j)
      then with_meter zero_meter (strip_at s j)
      else strip_at s j.
Proof.
  revert i s. induction n as [|n IH]; intros i s Hi Hlen; cbn zeta.
  - cbn [loop_meters fst snd]. split; [reflexivity|]. split; [repeat split|].
    split; [reflexivity|]. intros j Hj. change (Z.of_nat 0) with 0.
    destruct (Z.leb_spec i j), (Z.ltb_spec j (i + 0)); try reflexivity. lia.
  - rewrite seqZ_cons by lia.
    replace (Z.pred (Z.of_nat (S n))) with (Z.of_nat n) by lia.
    replace (Z.succ i) with (i + 1) by lia.
    cbn [loop_meters List.filter]. unfold meter_lapsed at 1.
    assert (Hkeep : forall s1,
               (forall j, 0 <= j -> j <> i -> strip_at s1 j = strip_at s j) ->
               List.filter (fun j => meter_lapsed (now j) (strip_at s1 j))
                 (seqZ (i + 1) (Z.of_nat n))
               = List.filter (fun j => meter_lapsed (now j) (strip_at s j))
                   (seqZ (i + 1) (Z.of_nat n))).
    { intros s1 Hs1. apply List.filter_ext_in. intros j Hj.
      apply list_elem_of_In, elem_of_seqZ in Hj. rewrite Hs1 by lia. reflexivity. }
    assert (Hrange : forall j, j <> i ->
               (i + 1 <=? j) && (j <? i + 1 + Z.of_nat n)
               = (i <=? j) && (j <? i + Z.of_nat (S n))).
    { intros j Hne.
      destruct (Z.leb_spec (i + 1) j), (Z.ltb_spec j (i + 1 + Z.of_nat n)),
        (Z.leb_spec i j), (Z.ltb_spec j (i + Z.of_nat (S n)));
        try reflexivity; lia. }
    assert (Hhere : (i + 1 <=? i) && (i <? i + 1 + Z.of_nat n) = false).
    { destruct (Z.leb_spec (i + 1) i); [lia|reflexivity]. }
    assert (Hin : (i <=? i) && (i <? i + Z.of_nat (S n)) = true).
    { destruct (Z.leb_spec i i), (Z.ltb_spec i (i + Z.of_nat (S n)));
        try reflexivity; lia. }
    destruct (fle (meter_fraction (meter (strip_at s i))) fzero) eqn:Hzero;
      [|destruct (wrap_ulong (now i - meter_usec (meter (strip_at s i))) <? 1000 * 1000)
          eqn:Hfresh]; cbn [negb andb].
    + destruct (IH (i + 1) s ltac:(lia) ltac:(lia)) as (Hev & Hg & Hl & Hst).
      split; [exact Hev|]. split; [exact Hg|]. split; [exact Hl|].
      intros j Hj. rewrite (Hst j Hj).
      destruct (Z.eq_dec j i) as [->|Hne].
      * rewrite Hhere. unfold meter_lapsed. rewrite Hzero. cbn [negb andb].
        rewrite andb_false_r. reflexivity.
      * rewrite (Hrange j Hne). reflexivity.
    + destruct (IH (i + 1) s ltac:(lia) ltac:(lia)) as (Hev & Hg & Hl & Hst).
      split; [exact Hev|]. split; [exact Hg|]. split; [exact Hl|].
      intros j Hj. rewrite (Hst j Hj).
      destruct (Z.eq_dec j i) as [->|Hne].
      * rewrite Hhere. unfold meter_lapsed. rewrite Hfresh. cbn [negb andb].
        rewrite !andb_false_r. reflexivity.
      * rewrite (Hrange j Hne). reflexivity.
    + set (s1 := update_strip i (with_meter zero_meter) s).
      assert (Hs1 : forall j, 0 <= j -> j <> i -> strip_at s1 j = strip_at s j).
      { intros j Hj Hne. apply strip_at_update_ne; lia. }
      destruct (IH (i + 1) s1 ltac:(lia)
                  ltac:(subst s1; rewrite length_strips_update; lia))
        as (Hev & Hg & Hl & Hst).
      destruct (loop_meters n (i + 1) now s1) as [s2 evs]. cbn [fst snd] in *.
      split; [cbn [map]; rewrite Hev, (Hkeep s1 Hs1); reflexivity|].
      split; [exact Hg|].
      split; [rewrite Hl; apply length_strips_update|].
      intros j Hj. rewrite (Hst j Hj).
      destruct (Z.eq_dec j i) as [->|Hne].
      * rewrite Hhere, Hin. cbn [andb].
        unfold meter_lapsed. rewrite Hzero, Hfresh. cbn [negb andb].
        subst s1. apply strip_at_update_eq. lia.
      * rewrite (Hs1 j Hj Hne), (Hrange j Hne). reflexivity.
Qed.

(** The heartbeat and the strips after [loop]. *)
Lemma loop_closed_form_aux now_active now_meter s :
  length (_strips s) = 8%nat ->
  _active_usec (fst (loop now_active now_meter s))
  = (if heartbeat_lapsed now_active s then 0 else _active_usec s) /\
  forall j, 0 <= j <= 7 ->
    strip_at (fst (loop now_active now_meter s)) j
    = if meter_lapsed (now_meter j) (strip_at s j)
      then with_meter zero_meter (strip_at s j) else strip_at s j.
Proof.
  intros Hlen. unfold loop. fold (heartbeat_lapsed now_active s).
  assert (Hin : forall j, 0 <= j <= 7 -> (0 <=? j) && (j <? 0 + Z.of_nat 8) = true).
  { intros j Hj. change (0 + Z.of_nat 8) with 8.
    destruct (Z.leb_spec 0 j), (Z.ltb_spec j 8); try reflexivity; lia. }
  destruct (heartbeat_lapsed now_active s).
  - destruct (loop_meters_spec 8 0 now_meter (with_active_usec 0 s))
      as (_ & (Ha & _) & _ & Hst); [lia|cbn [_strips with_active_usec]; lia|].
    destruct (loop_meters 8 0 now_meter (with_active_usec 0 s)) as [s2 evs2].
    cbn [fst snd] in *. split; [exact Ha|].
    intros j Hj. rewrite Hst, (Hin j Hj) by lia. reflexivity.
  - destruct (loop_meters_spec 8 0 now_meter s)
      as (_ & (Ha & _) & _ & Hst); [lia|lia|].
    destruct (loop_meters 8 0 now_meter s) as [s2 evs2].
    cbn [fst snd] in *. split; [exact Ha|].
    intros j Hj. rewrite Hst, (Hin j Hj) by lia. reflexivity.
Qed.

(** X12: [loop] in closed form. It raises the timeout first, if the
    heartbeat has lapsed, and then [handleStripMeter i 0 false] for each
    strip whose meter has lapsed, in the order of the strips; it clears
    the heartbeat and the whole meter of those strips (overload flag
    included) and leaves every other member as it was. Each strip is
    judged on its own state and its own clock reading. *)
Theorem loop_closed_form (now_active : Z) (now_meter : Z -> Z) (s : State) :
  length (_strips s) = 8%nat ->
  let r := loop now_active now_meter s in
  let lapsed j := meter_lapsed (now_meter j) (strip_at s j) in
  snd r = (if heartbeat_lapsed now_active s then [handleTimeout] else [])
          ++ map (fun j => handleStripMeter j fzero false)
               (List.filter lapsed (seqZ 0 8)) /\
  _active_usec (fst r) = (if heartbeat_lapsed now_active s then 0 else _active_usec s) /\
  (forall j, 0 <= j <= 7 ->
     strip_at (fst r) j
     = if lapsed j then with_meter zero_meter (strip_at s j) else strip_at s j) /\
  _display (fst r) = _display s /\ _main_fader (fst r) = _main_fader s /\
  _bank (fst r) = _bank s /\ _transport (fst r) = _transport s /\
  _navigation (fst r) = _navigation s.
Proof.
  intros Hlen r lapsed. subst r. unfold loop. fold (heartbeat_lapsed now_active s).
  assert (Hin : forall j, 0 <= j <= 7 -> (0 <=? j) && (j <? 0 + Z.of_nat 8) = true).
  { intros j Hj. change (0 + Z.of_nat 8) with 8.
    destruct (Z.leb_spec 0 j), (Z.ltb_spec j 8); try reflexivity; lia. }
  destruct (heartbeat_lapsed now_active s).
  - destruct (loop_meters_spec 8 0 now_meter (with_active_usec 0 s))
      as (Hev & (Ha & Hd & Hm & Hb & Ht & Hn) & _ & Hst);
      [lia|cbn [_strips with_active_usec]; lia|].
    destruct (loop_meters 8 0 now_meter (with_active_usec 0 s)) as [s2 evs2].
    cbn [fst snd] in *. split; [rewrite Hev; reflexivity|].
    split; [exact Ha|]. split; [|repeat split; assumption].
    intros j Hj. rewrite Hst, (Hin j Hj) by lia. reflexivity.
  - destruct (loop_meters_spec 8 0 now_meter s)
      as (Hev & (Ha & Hd & Hm & Hb & Ht & Hn) & _ & Hst); [lia|lia|].
    destruct (loop_meters 8 0 now_meter s) as [s2 evs2].
    cbn [fst snd] in *. split; [rewrite Hev; reflexivity|].
    split; [exact Ha|]. split; [|repeat split; assumption].
    intros j Hj. rewrite Hst, (Hin j Hj) by lia. reflexivity.
Qed.

(** Strip 2 at level 6, a second after its update. *)
Lemma loop_closed_form_witness :
  let s := fst (dispatchPacket (AftertouchChannel 0 0x26) 5000 reset) in
  let r := loop 0 (fun _ => 1005000) s in
  let lapsed j := meter_lapsed 1005000 (strip_at s j) in
  snd r = (if heartbeat_lapsed 0 s then [handleTimeout] else [])
          ++ map (fun j => handleStripMeter j fzero false)
               (List.filter lapsed (seqZ 0 8)) /\
  _active_usec (fst r) = (if heartbeat_lapsed 0 s then 0 else _active_usec s) /\
  (forall j, 0 <= j <= 7 ->
     strip_at (fst r) j
     = if lapsed j then with_meter zero_meter (strip_at s j) else strip_at s j) /\
  _display (fst r) = _display s /\ _main_fader (fst r) = _main_fader s /\
  _bank (fst r) = _bank s /\ _transport (fst r) = _transport s /\
  _navigation (fst r) = _navigation s.
Proof.
  apply (loop_closed_form 0 (fun _ => 1005000)
           (fst (dispatchPacket (AftertouchChannel 0 0x26) 5000 reset))).
  reflexivity.
Defined.

(** Dispatching the meter level [level], 0 to 13, of strip [strip]. *)
Lemma dispatch_meter_level13 strip level now s :
  length (_strips s) = 8%nat ->
  0 <= strip <= 7 -> 0 <= level <= 13 ->
  let r := dispatchPacket (AftertouchChannel 0 (16 * strip + level)) now s in
  length (_strips (fst r)) = 8%nat /\
  meter (strip_at (fst r) strip)
  = {| meter_fraction := level_fraction level;
       meter_overload := meter_overload (meter (strip_at s strip));
       meter_usec := now |}.
Proof.
  intros Hlen Hs Hl r. subst r.
  pose proof (meter_byte_index strip level Hs ltac:(lia)) as Hi.
  pose proof (meter_byte_value strip level Hs ltac:(lia)) as Hv.
  rewrite meter_byte_add, wrap8_small in Hi, Hv by lia.
  cbn [dispatchPacket]. unfold dispatchAftertouchChannel, level_fraction.
  cbn [Z.eqb negb]. rewrite Hi, Hv.
  replace (7 <? strip) with false by (symmetry; apply Z.ltb_ge; lia).
  replace (0 <=? level) with true by (symmetry; apply Z.leb_le; lia).
  cbn [andb].
  destruct (Z.leb_spec level 12) as [H12|H12].
  - replace (level =? 13) with false by (symmetry; apply Z.eqb_neq; lia).
    cbn [fst]. rewrite !length_strips_update. split; [exact Hlen|].
    rewrite !strip_at_update_eq by (rewrite ?length_strips_update; lia).
    reflexivity.
  - replace level with 13 by lia. rewrite !Z.eqb_refl. cbn [fst].
    rewrite !length_strips_update. split; [exact Hlen|].
    rewrite !strip_at_update_eq by (rewrite ?length_strips_update; lia).
    reflexivity.
Qed.

(** The fraction of a level above 0 is above 0. *)
Lemma level_fraction_positive level :
  1 <= level <= 13 -> fle (level_fraction level) fzero = false.
Proof.
  intros H.
  assert (Hc : In level [1; 2; 3; 4; 5; 6; 7; 8; 9; 10; 11; 12; 13]) by (cbn [In]; lia).
  cbn [In] in Hc.
  repeat (destruct Hc as [<-|Hc]; [reflexivity|]). destruct Hc.
Qed.

(** X13: a meter level from 1 to 13 dispatched for a strip at the clock
    reading [t] decays at the first tick whose clock reading for the
    strip is a second or more past [t], in [unsigned long] arithmetic:
    that tick zeroes the meter and raises [handleStripMeter strip 0
    false]; an earlier tick keeps the meter and raises nothing for the
    strip. *)
Theorem meter_decays_after_one_second (strip level t now_active : Z)
    (now_meter : Z -> Z) (s : State) :
  length (_strips s) = 8%nat ->
  0 <= strip <= 7 ->
  1 <= level <= 13 ->
  let s1 := fst (dispatchPacket (AftertouchChannel 0 (16 * strip + level)) t s) in
  let r := loop now_active now_meter s1 in
  if wrap_ulong (now_meter strip - t) <? 1000 * 1000
  then meter (strip_at (fst r) strip) = meter (strip_at s1 strip) /\
       ~ In (handleStripMeter strip fzero false) (snd r)
  else meter (strip_at (fst r) strip) = zero_meter /\
       In (handleStripMeter strip fzero false) (snd r).
Proof.
  intros Hlen Hstrip Hlevel s1 r. set (t' := now_meter strip).
  assert (Hclock : now_meter strip = t') by reflexivity.
  destruct (dispatch_meter_level13 strip level t s Hlen Hstrip ltac:(lia))
    as [Hlen1 Hmeter]. fold s1 in Hlen1, Hmeter.
  assert (Hlapsed : meter_lapsed (now_meter strip) (strip_at s1 strip)
                    = negb (wrap_ulong (t' - t) <? 1000 * 1000)).
  { unfold meter_lapsed. rewrite Hmeter, Hclock. cbn [meter_fraction meter_usec].
    rewrite level_fraction_positive by exact Hlevel. reflexivity. }
  subst r. unfold loop.
  assert (Hmeters : forall s0,
             _strips s0 = _strips s1 ->
             let r := loop_meters 8 0 now_meter s0 in
             if wrap_ulong (t' - t) <? 1000 * 1000
             then meter (strip_at (fst r) strip) = meter (strip_at s1 strip) /\
                  ~ In (handleStripMeter strip fzero false) (snd r)
             else meter (strip_at (fst r) strip) = zero_meter /\
                  In (handleStripMeter strip fzero false) (snd r)).
  { intros s0 Hs0 r0. subst r0.
    assert (Hat : forall j, strip_at s0 j = strip_at s1 j)
      by (intros j; unfold strip_at; rewrite Hs0; reflexivity).
    destruct (loop_meters_spec 8 0 now_meter s0) as (Hev & _ & _ & Hst);
      [lia|rewrite Hs0; lia|].
    rewrite Hev, (Hst strip) by lia. rewrite !Hat, Hlapsed.
    replace ((0 <=? strip) && (strip <? 0 + Z.of_nat 8)) with true.
    2:{ change (0 + Z.of_nat 8) with 8.
        destruct (Z.leb_spec 0 strip), (Z.ltb_spec strip 8); try reflexivity; lia. }
    destruct (wrap_ulong (t' - t) <? 1000 * 1000); cbn [negb andb].
    - split; [reflexivity|]. intros Hin.
      apply in_map_iff in Hin as (j & Hj & Hfilter). injection Hj as ->.
      apply List.filter_In in Hfilter as [_ Hfilter].
      rewrite Hat, Hlapsed in Hfilter. discriminate.
    - split; [reflexivity|]. apply in_map_iff. exists strip. split; [reflexivity|].
      apply List.filter_In. split; [|rewrite Hat, Hlapsed; reflexivity].
      apply list_elem_of_In, elem_of_seqZ. lia. }
  destruct ((0 <? _active_usec s1) &&
            (5000 * 1000 <? wrap_ulong (now_active - _active_usec s1))).
  - specialize (Hmeters (with_active_usec 0 s1) eq_refl). cbn zeta in Hmeters.
    destruct (loop_meters 8 0 now_meter (with_active_usec 0 s1)) as [s2 evs2].
    cbn [fst snd] in *.
    destruct (wrap_ulong (t' - t) <? 1000 * 1000);
      destruct Hmeters as [Hm Hi]; (split; [exact Hm|]).
    + intros [Hc|Hc]; [discriminate|exact (Hi Hc)].
    + right. exact Hi.
  - specialize (Hmeters s1 eq_refl). cbn zeta in Hmeters.
    destruct (loop_meters 8 0 now_meter s1) as [s2 evs2].
    cbn [fst snd app] in *. exact Hmeters.
Qed.

(** Level 6 on strip 2 at clock 5000, a tick at clock 1005000. *)
Lemma meter_decays_after_one_second_witness :
  let s1 := fst (dispatchPacket (AftertouchChannel 0 (16 * 2 + 6)) 5000 reset) in
  let r := loop 0 (fun _ => 1005000) s1 in
  if wrap_ulong (1005000 - 5000) <? 1000 * 1000
  then meter (strip_at (fst r) 2) = meter (strip_at s1 2) /\
       ~ In (handleStripMeter 2 fzero false) (snd r)
  else meter (strip_at (fst r) 2) = zero_meter /\
       In (handleStripMeter 2 fzero false) (snd r).
Proof.
  apply (meter_decays_after_one_second 2 6 5000 0 (fun _ => 1005000) reset).
  - reflexivity.
  - lia.
  - lia.
Defined.

(** The meter loop does nothing when no meter of its range has lapsed. *)
Lemma loop_meters_stable n i now s :
  (forall j, i <= j < i + Z.of_nat n -> meter_lapsed (now j) (strip_at s j) = false) ->
  loop_meters n i now s = (s, []).
Proof.
  revert i. induction n as [|n IH]; intros i Hnone; [reflexivity|].
  cbn [loop_meters].
  pose proof (Hnone i ltac:(lia)) as Hi. unfold meter_lapsed in Hi.
  destruct (fle _ _); [apply IH; intros j Hj; apply Hnone; lia|].
  destruct (_ <? _); [apply IH; intros j Hj; apply Hnone; lia|].
  discriminate.
Qed.

(** X14: a second tick at the same clock readings finds nothing to do: it
    returns the state of the first and raises nothing. *)
Theorem loop_settles (now_active : Z) (now_meter : Z -> Z) (s : State) :
  length (_strips s) = 8%nat ->
  loop now_active now_meter (fst (loop now_active now_meter s))
  = (fst (loop now_active now_meter s), []).
Proof.
  intros Hlen.
  destruct (loop_closed_form_aux now_active now_meter s Hlen) as (Ha & Hst).
  set (s1 := fst (loop now_active now_meter s)) in *.
  unfold loop at 1.
  replace ((0 <? _active_usec s1) &&
           (5000 * 1000 <? wrap_ulong (now_active - _active_usec s1))) with false.
  2:{ symmetry. rewrite Ha. unfold heartbeat_lapsed.
      destruct ((0 <? _active_usec s) &&
                (5000 * 1000 <? wrap_ulong (now_active - _active_usec s))) eqn:Hl;
        [reflexivity|exact Hl]. }
  rewrite loop_meters_stable; [reflexivity|].
  intros j Hj. rewrite Hst by lia.
  destruct (meter_lapsed (now_meter j) (strip_at s j)) eqn:Hl; [|exact Hl].
  unfold meter_lapsed. reflexivity.
Qed.

(** Two ticks after a meter update. *)
Lemma loop_settles_witness :
  loop 0 (fun _ => 1005000)
    (fst (loop 0 (fun _ => 1005000)
            (fst (dispatchPacket (AftertouchChannel 0 0x26) 5000 reset))))
  = (fst (loop 0 (fun _ => 1005000)
            (fst (dispatchPacket (AftertouchChannel 0 0x26) 5000 reset))), []).
Proof.
  apply (loop_settles 0 (fun _ => 1005000)
           (fst (dispatchPacket (AftertouchChannel 0 0x26) 5000 reset))).
  reflexivity.
Defined.

(** The difference of two clock readings in [unsigned long] arithmetic is
    the time that passed, also when the clock wrapped around in between. *)
Lemma wrap_ulong_elapsed t d :
  0 <= t < 2 ^ 32 -> 0 <= d < 2 ^ 32 ->
  wrap_ulong (wrap_ulong (t + d) - t) = d.
Proof.
  unfold wrap_ulong, wrap32. change (2 ^ 32) with 4294967296. intros Ht Hd.
  Z.div_mod_to_equations. lia.
Qed.

(** X15: the watch survives the wrap-around of the clock. After a ping
    note recorded at the clock reading [t], a tick [d] microseconds later
    (its clock reads [(t + d) mod 2^32]) raises the timeout and clears
    the heartbeat exactly when [d] is more than 5 seconds, and keeps the
    heartbeat otherwise; a ping recorded when the clock reads 0 is lost,
    and no tick raises a timeout after it. *)
Theorem heartbeat_watch (t d velocity : Z) (now_meter : Z -> Z) (s : State) :
  0 <= t < 2 ^ 32 ->
  0 <= d < 2 ^ 32 ->
  let s1 := fst (dispatchPacket (NoteOn 15 Mackie.Protocol.Ping velocity) t s) in
  let r := loop (wrap_ulong (t + d)) now_meter s1 in
  let lapsed := (0 <? t) && (5000 * 1000 <? d) in
  count_events is_timeout (snd r) = (if lapsed then 1 else 0)%nat /\
  _active_usec (fst r) = (if lapsed then 0 else t).
Proof.
  intros Ht Hd s1 r lapsed. subst r s1.
  cbn [dispatchPacket]. rewrite dispatchNote_ping. cbn [fst].
  pose proof (loop_heartbeat (wrap_ulong (t + d)) now_meter (with_active_usec t s))
    as [Ha Hc].
  cbn [_active_usec with_active_usec] in Ha, Hc.
  rewrite (wrap_ulong_elapsed t d Ht Hd) in Ha, Hc. fold lapsed in Ha, Hc.
  split; [exact Hc|exact Ha].
Qed.

(** A ping a little before the clock wraps, and a tick 6 seconds later. *)
Lemma heartbeat_watch_witness :
  let s1 := fst (dispatchPacket (NoteOn 15 Mackie.Protocol.Ping 90) 4294000000 reset) in
  let r := loop (wrap_ulong (4294000000 + 6000000)) (fun _ => 0) s1 in
  let lapsed := (0 <? 4294000000) && (5000 * 1000 <? 6000000) in
  count_events is_timeout (snd r) = (if lapsed then 1 else 0)%nat /\
  _active_usec (fst r) = (if lapsed then 0 else 4294000000).
Proof.
  apply (heartbeat_watch 4294000000 6000000 90 (fun _ => 0) reset).
  - split; [lia|apply Z.ltb_lt; reflexivity].
  - split; [lia|apply Z.ltb_lt; reflexivity].
Defined.

(** X16: the controllers 120 (all sound off) and 123 (all notes off) on
    channel 0 clear the codec whatever their value and whatever the
    state, and raise nothing. In the cleared state a tick does nothing,
    every strip text reads as the empty string and the time display
    reads zero in the SMPTE type. *)
Theorem all_notes_off_resets (controller value now now_active : Z)
    (now_meter : Z -> Z) (s : State) :
  controller = CC.AllSoundOff \/ controller = CC.AllNotesOff ->
  dispatchPacket (ControlChange 0 controller value) now s = (reset, []) /\
  loop now_active now_meter reset = (reset, []) /\
  (forall strip row, 0 <= strip <= 7 -> 0 <= row <= 1 ->
     getStripDisplay reset strip row = replicate 8 0) /\
  getTime reset = (TimeType.SMPTE, (0, 0, 0, 0)).
Proof.
  intros Hc. split; [destruct Hc as [-> | ->]; reflexivity|].
  split; [reflexivity|]. split; [|reflexivity].
  intros strip row Hs Hr. apply strip_cases in Hs.
  assert (Hrow : row = 0 \/ row = 1) by lia.
  destruct Hs as [->|[->|[->|[->|[->|[->|[->| ->]]]]]]];
    destruct Hrow as [-> | ->]; reflexivity.
Qed.

(** All notes off while Play is lit. *)
Lemma all_notes_off_resets_witness :
  dispatchPacket (ControlChange 0 123 0) 0
    (fst (dispatchPacket (NoteOn 0 94 127) 0 reset)) = (reset, []) /\
  loop 0 (fun _ => 0) reset = (reset, []) /\
  (forall strip row, 0 <= strip <= 7 -> 0 <= row <= 1 ->
     getStripDisplay reset strip row = replicate 8 0) /\
  getTime reset = (TimeType.SMPTE, (0, 0, 0, 0)).
Proof.
  apply (all_notes_off_resets 123 0 0 0 (fun _ => 0)
           (fst (dispatchPacket (NoteOn 0 94 127) 0 reset))).
  right. reflexivity.
Defined.

(** ** The display in closed form *)

(** The strip and the row of a block determine the block. *)
Lemma block_index_eq b b0 :
  0 <= b < 16 -> 0 <= b0 < 16 ->
  (b mod 8 =? b0 mod 8) && (b / 8 =? b0 / 8) = (b =? b0).
Proof.
  intros Hb Hb0. destruct (Z.eqb_spec b b0) as [->|Hne].
  - rewrite !Z.eqb_refl. reflexivity.
  - destruct (Z.eqb_spec (b mod 8) (b0 mod 8)); [|reflexivity].
    destruct (Z.eqb_spec (b / 8) (b0 / 8)); [|reflexivity].
    exfalso. apply Hne.
    rewrite (Z.div_mod b 8), (Z.div_mod b0 8) by lia. congruence.
Qed.

(** The block loop in closed form: one notification for each block of
    the range that differs from its cache, in the order of the blocks,
    and nothing but the caches is written. *)
Lemma display_blocks_events global global_2 first n i s s' evs :
  wf_state s ->
  0 <= first + i ->
  first + i + Z.of_nat n <= 16 ->
  display_blocks global global_2 first n i s = Some (s', evs) ->
  evs = map (block_event global)
          (List.filter (block_changed (display_strip (_display s)) s)
             (seqZ (first + i) (Z.of_nat n))) /\
  same_globals s s' /\
  forall j, same_controls (strip_at s j) (strip_at s' j).
Proof.
  revert i s s' evs. induction n as [|n IH]; intros i s s' evs Hwf Hlo Hhi.
  - cbn [display_blocks]. intros [= <- <-].
    split; [reflexivity|]. split; repeat split.
  - rewrite seqZ_cons by lia.
    replace (Z.pred (Z.of_nat (S n))) with (Z.of_nat n) by lia.
    replace (Z.succ (first + i)) with (first + (i + 1)) by lia.
    cbn [display_blocks List.filter]. unfold block_changed at 1.
    set (b0 := first + i) in *.
    assert (Hb0 : 0 <= b0 < 16) by lia.
    rewrite (wrap8_small (b0 mod 8)) by dlia.
    rewrite (wrap8_small (b0 / 8)) by dlia.
    replace (2 <=? b0 / 8) with false by (symmetry; apply Z.leb_gt; dlia).
    set (cur0 := block_bytes (display_strip (_display s)) (b0 / 8) (b0 mod 8)).
    assert (Hcur0 : length cur0 = 7%nat).
    { apply length_block_bytes; [apply Hwf|dlia|dlia]. }
    destruct (bool_decide (cur0 = strip_cache s (b0 mod 8) (b0 / 8))); cbn [negb].
    + intros Hrun. apply (IH (i + 1) s s' evs Hwf); [lia|lia|exact Hrun].
    + set (s1 := update_strip (b0 mod 8) (set_strip_cache (b0 / 8) cur0) s).
      assert (Hwf1 : wf_state s1) by (apply wf_state_update_cache; assumption).
      destruct (display_blocks global global_2 first n (i + 1) s1)
        as [[s2 evs2]|] eqn:Hrun; [|discriminate].
      intros [= <- <-].
      destruct (IH (i + 1) s1 s2 evs2 Hwf1 ltac:(lia) ltac:(lia) Hrun)
        as (Hev & Hg & Hst).
      split; [|split].
      * cbn [map]. fold (block_event global b0). f_equal. rewrite Hev. f_equal.
        apply List.filter_ext_in. intros b Hb.
        apply list_elem_of_In, elem_of_seqZ in Hb.
        unfold block_changed. change (display_strip (_display s1))
          with (display_strip (_display s)).
        unfold s1. rewrite strip_cache_update by (first [assumption | dlia]).
        rewrite block_index_eq by lia.
        replace (b =? b0) with false by (symmetry; apply Z.eqb_neq; lia).
        reflexivity.
      * destruct Hg as (A & B & C & D & E & F). repeat split; assumption.
      * intros j. specialize (Hst j).
        assert (H1 : same_controls (strip_at s j) (strip_at s1 j)).
        { unfold s1, strip_at, update_strip. cbn [_strips with_strips].
          destruct (decide (Z.to_nat j = Z.to_nat (b0 mod 8))) as [->|Hne].
          - destruct (decide (Z.to_nat (b0 mod 8) < length (_strips s))%nat).
            + rewrite list_lookup_total_alter_eq by lia. repeat split.
            + rewrite !list_lookup_total_alt, list_lookup_alter_eq.
              rewrite lookup_ge_None_2 by lia. repeat split.
          - rewrite list_lookup_total_alter_ne by congruence. repeat split. }
        destruct H1 as (A & B & C & D), Hst as (A' & B' & C' & D').
        repeat split; congruence.
Qed.

(** X17: a display frame that ends before the last byte of the display,
    in closed form. The blocks visited are those from [start / 7] to
    [(start + l) / 7]; the frame raises one [handleStripDisplay] for each
    visited block whose new content differs from its cache, in the order
    of the blocks, with the global flag of the row (some seventh
    character of a block of the row is not a space); the caches of the
    visited blocks take the new content, and the other caches and
    every member outside the display text stay as they were. *)
Theorem display_frame_closed_form (buffer : list Z) (global_2 : bool) (s : State) :
  sysex_input buffer ->
  wf_state s ->
  display_frame buffer ->
  sysex_start buffer + sysex_text_length buffer < 112 ->
  let bytes := display_after buffer (display_strip (_display s)) in
  let first := sysex_start buffer / 7 in
  let last := (sysex_start buffer + sysex_text_length buffer) / 7 in
  exists s',
    dispatchSystemExclusive buffer global_2 s
    = Some (s', map (fun b => handleStripDisplay (row_global bytes (8 * (b / 8)))
                                 (b mod 8) (b / 8))
                  (List.filter (block_changed bytes s) (seqZ first (last - first + 1)))) /\
    _display s' = with_display_strip bytes (_display s) /\
    (forall b, 0 <= b < 16 ->
       strip_cache s' (b mod 8) (b / 8)
       = if (first <=? b) && (b <=? last)
         then block_bytes bytes (b / 8) (b mod 8)
         else strip_cache s (b mod 8) (b / 8)) /\
    (forall j, same_controls (strip_at s j) (strip_at s' j)) /\
    _active_usec s' = _active_usec s /\ _main_fader s' = _main_fader s /\
    _bank s' = _bank s /\ _transport s' = _transport s /\
    _navigation s' = _navigation s.
Proof.
  intros Hin Hwf Hframe Hlt bytes first last.
  pose proof Hin as [Hbytes Hlen]. pose proof Hframe as (Hge & _ & _ & _ & Hfit).
  assert (Hs : 0 <= sysex_start buffer <= 255) by (apply byte_at_range, Hbytes).
  assert (Hl : 0 <= sysex_text_length buffer) by (unfold sysex_text_length; lia).
  rewrite (dispatchSystemExclusive_display buffer global_2 s Hin Hframe).
  fold bytes first last.
  set (s1 := with_display (with_display_strip bytes (_display s)) s).
  assert (Hwf1 : wf_state s1).
  { destruct Hwf as (Hd & Hn & Hall). split; [|split; assumption].
    apply length_display_after; assumption. }
  assert (Hfirst : 0 <= first <= last /\ last < 16) by (subst first last; dlia).
  set (n := Z.to_nat (1 + (last - first))).
  destruct (display_blocks_spec [row_global bytes 0; row_global bytes 8] global_2
              first n 0 s1 Hwf1)
    as (s' & evs & Hrun & Hd & _ & Hblocks); [lia|lia|].
  destruct (display_blocks_events _ global_2 first n 0 s1 s' evs Hwf1
              ltac:(lia) ltac:(lia) Hrun)
    as (Hev & (Ha & _ & Hm & Hbank & Ht & Hn) & Hst).
  exists s'. split; [|split; [exact Hd|split; [|split; [exact Hst|]]]].
  - rewrite Hrun, Hev. f_equal. f_equal.
    replace (first + 0) with first by lia.
    replace (Z.of_nat n) with (last - first + 1) by lia.
    apply map_ext_in. intros b Hblock.
    apply List.filter_In in Hblock as [Hblock _].
    apply list_elem_of_In, elem_of_seqZ in Hblock.
    unfold block_event. f_equal.
    assert (Hrow : b / 8 = 0 \/ b / 8 = 1) by dlia.
    destruct Hrow as [-> | ->]; reflexivity.
  - intros b Hb. specialize (Hblocks b Hb).
    replace ((first + 0 <=? b) && (b <? first + 0 + Z.of_nat n))
      with ((first <=? b) && (b <=? last)) in Hblocks.
    2:{ destruct (Z.leb_spec first b), (Z.leb_spec b last),
          (Z.leb_spec (first + 0) b), (Z.ltb_spec b (first + 0 + Z.of_nat n));
          try reflexivity; lia. }
    destruct ((first <=? b) && (b <=? last)); apply Hblocks.
  - repeat split; assumption.
Qed.

(** A frame that rewrites strip 3 of the first row after a reset. *)
Lemma display_frame_closed_form_witness :
  let buffer :=
    [0xf0; 0x00; 0x00; 0x66; 0x14; 0x12; 21; 66; 97; 115; 115; 32; 32; 32; 0xf7] in
  let bytes := display_after buffer (display_strip (_display reset)) in
  let first := sysex_start buffer / 7 in
  let last := (sysex_start buffer + sysex_text_length buffer) / 7 in
  exists s',
    dispatchSystemExclusive buffer false reset
    = Some (s', map (fun b => handleStripDisplay (row_global bytes (8 * (b / 8)))
                                 (b mod 8) (b / 8))
                  (List.filter (block_changed bytes reset)
                     (seqZ first (last - first + 1)))) /\
    _display s' = with_display_strip bytes (_display reset) /\
    (forall b, 0 <= b < 16 ->
       strip_cache s' (b mod 8) (b / 8)
       = if (first <=? b) && (b <=? last)
         then block_bytes bytes (b / 8) (b mod 8)
         else strip_cache reset (b mod 8) (b / 8)) /\
    (forall j, same_controls (strip_at reset j) (strip_at s' j)) /\
    _active_usec s' = _active_usec reset /\ _main_fader s' = _main_fader reset /\
    _bank s' = _bank reset /\ _transport s' = _transport reset /\
    _navigation s' = _navigation reset.
Proof.
  apply (display_frame_closed_form
           [0xf0; 0x00; 0x00; 0x66; 0x14; 0x12; 21; 66; 97; 115; 115; 32; 32; 32; 0xf7]
           false reset).
  - split; [repeat constructor; lia|apply Z.leb_le; reflexivity].
  - exact wf_state_reset.
  - unfold display_frame. split; [apply Z.leb_le; reflexivity|].
    split; [reflexivity|]. split; [left; reflexivity|].
    split; [reflexivity|]. apply Z.leb_le. reflexivity.
  - apply Z.ltb_lt. reflexivity.
Defined.

(** [setStripText] on a text of at most 7 characters. *)
Lemma setStripText_buffer strip row text :
  (length text <= 7)%nat -> 0 <= strip <= 7 -> 0 <= row <= 1 ->
  setStripText strip row text = Some (strip_text_frame strip row text, 15).
Proof.
  intros Hlen Hs Hr. unfold setStripText, strip_text_frame.
  rewrite (wrap8_small (Z.of_nat (length text))) by lia.
  rewrite (wrap8_small (56 * row + 7 * strip)) by lia.
  replace (7 - Z.of_nat (length text) <? 0) with false
    by (symmetry; apply Z.ltb_ge; lia).
  rewrite Nat2Z.id, firstn_all.
  replace (Z.to_nat (7 - Z.of_nat (length text))) with (7 - length text)%nat by lia.
  cbn [app Mackie.Message.Vendor]. rewrite <- !app_assoc.
  cbn [app length]. rewrite !length_app, length_replicate. cbn [length].
  replace (Z.of_nat (S (S (S (S (S (S (S (length text + (7 - length text + 1))))))))))
    with 15 by lia.
  reflexivity.
Qed.

(** The frame of [setStripText] is a display frame of 7 characters at the
    offset of its strip and row. *)
Lemma strip_text_frame_accepted strip row text :
  (length text <= 7)%nat -> 0 <= strip <= 7 -> 0 <= row <= 1 ->
  Forall (fun b => 0 <= b <= 255) text ->
  sysex_input (strip_text_frame strip row text) /\
  display_frame (strip_text_frame strip row text) /\
  sysex_start (strip_text_frame strip row text) = 56 * row + 7 * strip /\
  sysex_text_length (strip_text_frame strip row text) = 7 /\
  take 7 (drop 7 (strip_text_frame strip row text))
  = text ++ replicate (7 - length text) 32.
Proof.
  intros Hlen Hs Hr Hbytes.
  assert (Hl : length (strip_text_frame strip row text) = 15%nat).
  { unfold strip_text_frame. cbn [app length].
    rewrite !length_app, length_replicate. cbn [length]. lia. }
  assert (Hstart : sysex_start (strip_text_frame strip row text) = 56 * row + 7 * strip)
    by reflexivity.
  assert (Hlength : sysex_text_length (strip_text_frame strip row text) = 7)
    by (unfold sysex_text_length; rewrite Hl; reflexivity).
  split; [|split; [|split; [exact Hstart|split; [exact Hlength|]]]].
  - split; [|rewrite Hl; apply Z.leb_le; reflexivity].
    unfold strip_text_frame. apply Forall_app. split.
    + repeat constructor; lia.
    + apply Forall_app. split; [|repeat constructor; lia].
      apply Forall_app. split; [exact Hbytes|]. apply Forall_replicate. lia.
  - unfold display_frame. rewrite Hstart, Hlength, Hl.
    split; [lia|]. split; [reflexivity|]. split; [left; reflexivity|].
    split; [reflexivity|lia].
  - unfold strip_text_frame. cbn [app drop].
    apply take_app_length'. rewrite length_app, length_replicate. lia.
Qed.

(** The block of the display a text was copied to. *)
Lemma block_bytes_display_after buffer old strip row :
  length old = 112%nat ->
  0 <= strip <= 7 -> 0 <= row <= 1 ->
  sysex_start buffer = 56 * row + 7 * strip ->
  sysex_text_length buffer = 7 ->
  length (take 7 (drop 7 buffer)) = 7%nat ->
  block_bytes (display_after buffer old) row strip = take 7 (drop 7 buffer).
Proof.
  intros Hold Hs Hr Hstart Hlength Hpayload.
  unfold block_bytes, display_after. rewrite Hstart, Hlength.
  change (Z.to_nat 7) with 7%nat.
  rewrite drop_app_length' by (rewrite length_take; lia).
  apply take_app_length'. symmetry. exact Hpayload.
Qed.

(** Spaces appended to a text are trimmed away. *)
Lemma trim_trailing_spaces_spaces text k :
  trim_trailing_spaces (text ++ replicate k 32) = trim_trailing_spaces text.
Proof.
  induction text as [|c rest IH]; cbn [app trim_trailing_spaces].
  - induction k as [|k IHk]; [reflexivity|].
    cbn [replicate trim_trailing_spaces]. rewrite IHk. reflexivity.
  - rewrite IH. reflexivity.
Qed.

(** Trimming cuts a run of spaces off the end, and all of it. *)
Lemma trim_trailing_spaces_spec text :
  text = trim_trailing_spaces text
         ++ replicate (length text - length (trim_trailing_spaces text)) 32 /\
  (length (trim_trailing_spaces text) <= length text)%nat /\
  last (trim_trailing_spaces text) <> Some 32.
Proof.
  induction text as [|c rest (IH & Hlen & Hlast)]; cbn [trim_trailing_spaces].
  - split; [reflexivity|]. split; [reflexivity|discriminate].
  - destruct (trim_trailing_spaces rest) as [|c' rest'] eqn:Htrim.
    + destruct (Z.eqb_spec c 32) as [->|Hc].
      * cbn [app length Nat.sub] in *. split; [|split; [lia|discriminate]].
        rewrite Nat.sub_0_r in IH. rewrite IH at 1. reflexivity.
      * cbn [app length] in *. split; [|split; [lia|]].
        -- rewrite Nat.sub_0_r in IH.
           replace (S (length rest) - 1)%nat with (length rest) by lia.
           rewrite IH at 1. reflexivity.
        -- cbn [last]. congruence.
    + split; [|split; [cbn [length] in *; lia|]].
      * cbn [app length] in *.
        replace (S (length rest) - S (S (length rest')))%nat
          with (length rest - S (length rest'))%nat by lia.
        rewrite IH at 1. reflexivity.
      * rewrite last_cons_cons. exact Hlast.
Qed.

(** X18: for every strip 0 to 7 and row 0 or 1, [getStripDisplay] fills
    the 8 bytes of [text] with the block of the strip cut before its
    trailing spaces, followed by terminators: what it keeps does not end
    in a space, and the block is what it keeps followed by spaces. *)
Theorem getStripDisplay_c_string (s : State) (strip row : Z) :
  wf_state s ->
  0 <= strip <= 7 ->
  0 <= row <= 1 ->
  exists kept,
    getStripDisplay s strip row = kept ++ replicate (8 - length kept) 0 /\
    block_bytes (display_strip (_display s)) row strip
    = kept ++ replicate (7 - length kept) 32 /\
    (length kept <= 7)%nat /\
    length (getStripDisplay s strip row) = 8%nat /\
    last kept <> Some 32.
Proof.
  intros Hwf Hs Hr.
  set (block := block_bytes (display_strip (_display s)) row strip).
  assert (Hblock : length block = 7%nat)
    by (apply length_block_bytes; [apply Hwf|lia|lia]).
  destruct (trim_trailing_spaces_spec block) as (Hsplit & Hlen & Hlast).
  exists (trim_trailing_spaces block). unfold getStripDisplay. fold block.
  split; [reflexivity|]. rewrite Hblock in Hsplit, Hlen.
  split; [exact Hsplit|]. split; [exact Hlen|]. split; [|exact Hlast].
  rewrite length_app, length_replicate. lia.
Qed.

(** Strip 2 of the second row after a reset. *)
Lemma getStripDisplay_c_string_witness :
  exists kept,
    getStripDisplay reset 2 1 = kept ++ replicate (8 - length kept) 0 /\
    block_bytes (display_strip (_display reset)) 1 2
    = kept ++ replicate (7 - length kept) 32 /\
    (length kept <= 7)%nat /\
    length (getStripDisplay reset 2 1) = 8%nat /\
    last kept <> Some 32.
Proof.
  apply (getStripDisplay_c_string reset 2 1); [exact wf_state_reset|lia|lia].
Defined.

(** X19: the frame [setStripText] writes for a strip 0 to 7, a row 0 or 1
    and a text of at most 7 bytes, dispatched, makes [getStripDisplay]
    read the text back without its trailing spaces and leaves the text
    padded with spaces in the cache of the strip and row. This holds for
    the last block too (strip 7, row 1), whose frame ends at the last
    byte of the display. *)
Theorem strip_text_round_trip (strip row : Z) (text : list Z) (global_2 : bool)
    (s : State) :
  wf_state s ->
  display_untouched s ->
  0 <= strip <= 7 ->
  0 <= row <= 1 ->
  (length text <= 7)%nat ->
  Forall (fun b => 0 <= b <= 255) text ->
  exists buffer s' evs,
    setStripText strip row text = Some (buffer, 15) /\
    dispatchSystemExclusive buffer global_2 s = Some (s', evs) /\
    getStripDisplay s' strip row
    = trim_trailing_spaces text
      ++ replicate (8 - length (trim_trailing_spaces text)) 0 /\
    strip_cache s' strip row = text ++ replicate (7 - length text) 32.
Proof.
  intros Hwf Hun Hs Hr Hlen Hbytes.
  destruct (strip_text_frame_accepted strip row text Hlen Hs Hr Hbytes)
    as (Hin & Hframe & Hstart & Hlength & Hpayload).
  destruct (display_frame_blocks (strip_text_frame strip row text) global_2 s
              Hin Hwf Hun Hframe)
    as (s' & evs & Hrun & Hd & _ & Hblocks).
  exists (strip_text_frame strip row text), s', evs.
  split; [apply setStripText_buffer; assumption|]. split; [exact Hrun|].
  assert (Hblock : block_bytes (display_strip (_display s')) row strip
                   = text ++ replicate (7 - length text) 32).
  { rewrite Hd, <- Hpayload. apply block_bytes_display_after; try assumption.
    - apply Hwf.
    - rewrite Hpayload, length_app, length_replicate. lia. }
  split.
  - unfold getStripDisplay. rewrite Hblock, trim_trailing_spaces_spaces. reflexivity.
  - specialize (Hblocks (8 * row + strip) ltac:(lia)).
    rewrite Hstart, Hlength in Hblocks.
    replace ((56 * row + 7 * strip) / 7 <=? 8 * row + strip) with true in Hblocks
      by (symmetry; apply Z.leb_le; dlia).
    replace (8 * row + strip <=? (56 * row + 7 * strip + 7) / 7) with true in Hblocks
      by (symmetry; apply Z.leb_le; dlia).
    cbn [andb] in Hblocks. destruct Hblocks as [Hcache _].
    replace ((8 * row + strip) mod 8) with strip in Hcache by dlia.
    replace ((8 * row + strip) / 8) with row in Hcache by dlia.
    rewrite Hcache. rewrite Hd in Hblock. exact Hblock.
Qed.

(** The text MIX and a space on the last strip of the second row, whose
    block ends at the last byte of the display. *)
Lemma strip_text_round_trip_witness :
  exists buffer s' evs,
    setStripText 7 1 [77; 73; 88; 32] = Some (buffer, 15) /\
    dispatchSystemExclusive buffer false reset = Some (s', evs) /\
    getStripDisplay s' 7 1
    = trim_trailing_spaces [77; 73; 88; 32]
      ++ replicate (8 - length (trim_trailing_spaces [77; 73; 88; 32])) 0 /\
    strip_cache s' 7 1 = [77; 73; 88; 32] ++ replicate (7 - length [77; 73; 88; 32]) 32.
Proof.
  apply (strip_text_round_trip 7 1 [77; 73; 88; 32] false reset).
  - exact wf_state_reset.
  - exact display_untouched_reset.
  - lia.
  - lia.
  - cbn [length]. lia.
  - repeat constructor; lia.
Defined.

(** A block index from 0 to 15 is one of sixteen. *)
Lemma block_cases b :
  0 <= b < 16 ->
  In b [0; 1; 2; 3; 4; 5; 6; 7; 8; 9; 10; 11; 12; 13; 14; 15].
Proof. intros H. cbn [In]. lia. Qed.

(** After the reset every cache holds zero bytes and the display holds
    spaces. *)
Lemma mirrored_reset : mirrored reset.
Proof.
  intros b Hb. right. apply block_cases in Hb. cbn [In] in Hb.
  repeat (destruct Hb as [<-|Hb]; [split; reflexivity|]). destruct Hb.
Qed.

(** A packet clears the codec or leaves the display and the caches as
    they are. *)
Lemma dispatchPacket_display packet now s :
  fst (dispatchPacket packet now s) = reset \/
  (display_strip (_display (fst (dispatchPacket packet now s)))
   = display_strip (_display s) /\
   forall strip row,
     strip_cache (fst (dispatchPacket packet now s)) strip row
     = strip_cache s strip row).
Proof.
  destruct packet; cbn [dispatchPacket];
    unfold dispatchNote, dispatchControlChange, dispatchAftertouchChannel,
      dispatchPitchBend;
    repeat match goal with
           | |- context [if ?b then _ else _] => destruct b
           | |- context [let '(_, _) := ?p in _] => destruct p
           end;
    cbn [fst];
    first [ left; reflexivity
          | right; split; [reflexivity|]; intros strip row;
            rewrite ?strip_cache_update_strip by reflexivity; reflexivity ].
Qed.

(** The invariant depends on the display text and the caches only. *)
Lemma mirrored_ext s s' :
  display_strip (_display s') = display_strip (_display s) ->
  (forall b, 0 <= b < 16 ->
     strip_cache s' (b mod 8) (b / 8) = strip_cache s (b mod 8) (b / 8)) ->
  mirrored s -> mirrored s'.
Proof.
  intros Hd Hc Hm b Hb. rewrite Hd, (Hc b Hb). apply Hm, Hb.
Qed.

(** A packet keeps the invariant. *)
Lemma dispatchPacket_mirrored packet now s :
  mirrored s -> mirrored (fst (dispatchPacket packet now s)).
Proof.
  intros Hm. destruct (dispatchPacket_display packet now s) as [-> | [Hd Hc]].
  - exact mirrored_reset.
  - apply (mirrored_ext s); [exact Hd| |exact Hm]. intros b _. apply Hc.
Qed.

(** A tick keeps the invariant. *)
Lemma loop_mirrored now_active now_meter s :
  wf_state s -> mirrored s -> mirrored (fst (loop now_active now_meter s)).
Proof.
  intros Hwf Hm.
  destruct (loop_closed_form_aux now_active now_meter s) as (_ & Hst); [apply Hwf|].
  apply (mirrored_ext s); [| |exact Hm].
  - unfold loop.
    destruct ((0 <? _active_usec s) && _).
    + destruct (loop_meters_spec 8 0 now_meter (with_active_usec 0 s))
        as (_ & (_ & Hd & _) & _); [lia|destruct Hwf as (_ & Hl & _); cbn; lia|].
      destruct (loop_meters 8 0 now_meter (with_active_usec 0 s)) as [s2 evs2].
      cbn [fst] in *. rewrite Hd. reflexivity.
    + destruct (loop_meters_spec 8 0 now_meter s)
        as (_ & (_ & Hd & _) & _); [lia|destruct Hwf as (_ & Hl & _); lia|].
      destruct (loop_meters 8 0 now_meter s) as [s2 evs2].
      cbn [fst] in *. rewrite Hd. reflexivity.
  - intros b Hb. unfold strip_cache. rewrite Hst by dlia.
    destruct (meter_lapsed _ _); reflexivity.
Qed.

(** A byte of the display outside the range a frame writes. *)
Lemma display_after_outside buffer old (k : nat) :
  sysex_input buffer -> display_frame buffer -> length old = 112%nat ->
  (Z.of_nat k < sysex_start buffer \/
   sysex_start buffer + sysex_text_length buffer <= Z.of_nat k) ->
  display_after buffer old !! k = old !! k.
Proof.
  intros [Hbytes _] (Hge & _ & _ & _ & Hfit) Hold Hk.
  assert (Hs : 0 <= sysex_start buffer <= 255) by (apply byte_at_range, Hbytes).
  unfold display_after, sysex_text_length in *.
  set (start := sysex_start buffer) in *.
  set (n := Z.of_nat (length buffer) - 8) in *.
  assert (Ha : length (take (Z.to_nat start) old) = Z.to_nat start)
    by (rewrite length_take; lia).
  assert (Ht : length (take (Z.to_nat n) (drop 7 buffer)) = Z.to_nat n)
    by (rewrite length_take, length_drop; lia).
  destruct Hk as [Hk|Hk].
  - rewrite lookup_app_l by lia. apply lookup_take_lt. lia.
  - rewrite lookup_app_r by lia. rewrite lookup_app_r by lia.
    rewrite lookup_drop. f_equal. lia.
Qed.

(** A block outside the blocks a frame visits keeps its content. *)
Lemma block_bytes_untouched buffer old b :
  sysex_input buffer -> display_frame buffer -> length old = 112%nat ->
  0 <= b < 16 ->
  (sysex_start buffer / 7 <=? b) &&
  (b <=? (sysex_start buffer + sysex_text_length buffer) / 7) = false ->
  block_bytes (display_after buffer old) (b / 8) (b mod 8)
  = block_bytes old (b / 8) (b mod 8).
Proof.
  intros Hin Hframe Hold Hb Hout. unfold block_bytes.
  replace (56 * (b / 8) + 7 * (b mod 8)) with (7 * b) by dlia.
  apply list_eq. intros i. rewrite !lookup_take.
  destruct (decide (i < 7)%nat); [|reflexivity].
  rewrite !lookup_drop. apply display_after_outside; try assumption.
  pose proof Hin as [Hbytes _].
  assert (Hs : 0 <= sysex_start buffer <= 255) by (apply byte_at_range, Hbytes).
  assert (Hl : 0 <= sysex_text_length buffer)
    by (destruct Hframe as (Hge & _); unfold sysex_text_length; lia).
  apply andb_false_iff in Hout as [Hout|Hout].
  - left. apply Z.leb_gt in Hout. dlia.
  - right. apply Z.leb_gt in Hout. dlia.
Qed.

(** A frame keeps the invariant. *)
Lemma dispatchSystemExclusive_mirrored buffer global_2 s s' evs :
  sysex_input buffer -> wf_state s -> display_untouched s -> mirrored s ->
  dispatchSystemExclusive buffer global_2 s = Some (s', evs) ->
  mirrored s'.
Proof.
  intros Hin Hwf Hun Hm Hrun.
  destruct (dispatchSystemExclusive_cases buffer global_2 s Hin) as [Hdrop|Hframe].
  - rewrite Hdrop in Hrun. injection Hrun as <- <-. exact Hm.
  - destruct (display_frame_blocks buffer global_2 s Hin Hwf Hun Hframe)
      as (s2 & evs2 & Hrun2 & Hd & _ & Hblocks).
    rewrite Hrun2 in Hrun. injection Hrun as <- <-.
    intros b Hb. specialize (Hblocks b Hb). rewrite Hd.
    cbn [display_strip with_display_strip].
    destruct ((sysex_start buffer / 7 <=? b) && _) eqn:Hvisited.
    + left. apply Hblocks.
    + destruct Hblocks as [-> _].
      rewrite block_bytes_untouched; try assumption; [apply Hm, Hb|apply Hwf].
Qed.

(** A call keeps the invariant. *)
Lemma step_mirrored i s s' evs :
  input_ok i -> wf_state s -> display_untouched s -> mirrored s ->
  step i s = Some (s', evs) ->
  mirrored s'.
Proof.
  intros Hok Hwf Hun Hm.
  destruct i as [packet now|buffer global_2|now now_meter]; cbn [step].
  - intros [= Hstep].
    pose proof (dispatchPacket_mirrored packet now s Hm) as H.
    rewrite Hstep in H. exact H.
  - apply dispatchSystemExclusive_mirrored; assumption.
  - intros [= Hstep].
    pose proof (loop_mirrored now now_meter s Hwf Hm) as H.
    rewrite Hstep in H. exact H.
Qed.

(** A run keeps the invariant, and returns. *)
Lemma run_mirrored_from inputs s :
  Forall input_ok inputs -> wf_state s -> display_untouched s -> mirrored s ->
  exists s' evs, run inputs s = Some (s', evs) /\ mirrored s'.
Proof.
  intros Hok. revert s.
  induction Hok as [|i rest Hi Hrest IH]; intros s Hwf Hun Hm.
  - exists s, []. split; [reflexivity|exact Hm].
  - destruct (step_returns i s Hi Hwf Hun) as (s1 & evs1 & Hstep & Hwf1 & Hun1).
    pose proof (step_mirrored i s s1 evs1 Hi Hwf Hun Hm Hstep) as Hm1.
    destruct (IH s1 Hwf1 Hun1 Hm1) as (s2 & evs2 & Hrun & Hm2).
    exists s2, (evs1 ++ evs2). cbn [run]. rewrite Hstep, Hrun.
    split; [reflexivity|exact Hm2].
Qed.

(** X20: every run of calls from [reset] returns, and in the state it
    reaches the cache of each strip and row equals the block of the
    display it mirrors, or it still holds the zero bytes of the reset
    while the block holds spaces. *)
Theorem run_mirrored (inputs : list Input) :
  Forall input_ok inputs ->
  exists s' evs, run inputs reset = Some (s', evs) /\ mirrored s'.
Proof.
  intros Hok. apply run_mirrored_from; [exact Hok| | |].
  - exact wf_state_reset.
  - exact display_untouched_reset.
  - exact mirrored_reset.
Qed.

(** The second frame of Ableton, a button and a tick. *)
Lemma run_mirrored_witness :
  exists s' evs,
    run [SystemExclusive ableton_second_row false;
         Dispatch (NoteOn 0 26 127) 0;
         Loop 0 (fun _ => 0)] reset = Some (s', evs) /\
    mirrored s'.
Proof.
  apply (run_mirrored
           [SystemExclusive ableton_second_row false;
            Dispatch (NoteOn 0 26 127) 0;
            Loop 0 (fun _ => 0)]).
  constructor; [|repeat constructor].
  split.
  - unfold ableton_second_row. cbn [replicate app]. repeat constructor; lia.
  - apply Z.leb_le. reflexivity.
Defined.

(** A ring that is not lit holds the mode [Off] and no centre dot. *)
Lemma ring_lit_false st :
  ring_lit st = false ->
  vpot st = vpot (set_vpot_ring VPotMode.Off false st).
Proof.
  unfold ring_lit, set_vpot_ring. destruct (vpot st) as [mode center value click].
  cbn [vpot with_vpot vpot_mode vpot_center vpot_value vpot_click].
  destruct mode, center; (discriminate || reflexivity).
Qed.

(** X21: a display frame whose text ends at the last byte of the display,
    in closed form. The loop visits the blocks from [start / 7] to 15 as
    it does for any other frame: one [handleStripDisplay] for each of
    them whose new content differs from its cache, with the global flag
    of its row, and the caches of these blocks take the new content.
    Then it visits block 16, which is strip 0 and row 2, behind the
    arrays: when the rotary ring of strip 0 is lit (a mode other than
    [Off], or the centre dot) the bytes compared differ, the copy clears
    the ring mode and the centre dot of strip 0, and a last
    [handleStripDisplay] names strip 0 and row 2, with the byte read
    behind [global] as its flag. The fraction and the click latch of the
    ring, the other members of strip 0, the other strips and every
    member outside the display text stay as they were. *)
Theorem display_frame_last_byte (buffer : list Z) (global_2 : bool) (s : State) :
  sysex_input buffer ->
  wf_state s ->
  display_untouched s ->
  display_frame buffer ->
  sysex_start buffer + sysex_text_length buffer = 112 ->
  let bytes := display_after buffer (display_strip (_display s)) in
  let first := sysex_start buffer / 7 in
  exists s',
    dispatchSystemExclusive buffer global_2 s
    = Some (s', map (fun b => handleStripDisplay (row_global bytes (8 * (b / 8)))
                                 (b mod 8) (b / 8))
                  (List.filter (block_changed bytes s) (seqZ first (16 - first)))
                ++ (if ring_lit (strip_at s 0)
                    then [handleStripDisplay global_2 0 2] else [])) /\
    _display s' = with_display_strip bytes (_display s) /\
    (forall b, 0 <= b < 16 ->
       strip_cache s' (b mod 8) (b / 8)
       = if first <=? b
         then block_bytes bytes (b / 8) (b mod 8)
         else strip_cache s (b mod 8) (b / 8)) /\
    vpot (strip_at s' 0) = vpot (set_vpot_ring VPotMode.Off false (strip_at s 0)) /\
    fader (strip_at s' 0) = fader (strip_at s 0) /\
    button (strip_at s' 0) = button (strip_at s 0) /\
    meter (strip_at s' 0) = meter (strip_at s 0) /\
    (forall j, 1 <= j -> same_controls (strip_at s j) (strip_at s' j)) /\
    _active_usec s' = _active_usec s /\ _main_fader s' = _main_fader s /\
    _bank s' = _bank s /\ _transport s' = _transport s /\
    _navigation s' = _navigation s.
Proof.
  intros Hin Hwf Hun Hframe Hend bytes first.
  pose proof Hin as [Hbytes Hlen]. pose proof Hframe as (Hge & _ & _ & _ & Hfit).
  assert (Hs : 0 <= sysex_start buffer <= 255) by (apply byte_at_range, Hbytes).
  assert (Hl : 0 <= sysex_text_length buffer) by (unfold sysex_text_length; lia).
  rewrite (dispatchSystemExclusive_display buffer global_2 s Hin Hframe).
  fold bytes. rewrite Hend. change (112 / 7) with 16. fold first.
  set (global := [row_global bytes 0; row_global bytes 8]).
  set (s1 := with_display (with_display_strip bytes (_display s)) s).
  assert (Hwf1 : wf_state s1).
  { destruct Hwf as (Hd & Hn & Hall). split; [|split; assumption].
    apply length_display_after; assumption. }
  assert (Hfirst : 0 <= first <= 16) by (subst first; dlia).
  set (n := Z.to_nat (16 - first)).
  replace (Z.to_nat (1 + (16 - first))) with (n + 1)%nat by lia.
  destruct (display_blocks_spec global global_2 first n 0 s1 Hwf1)
    as (s' & evs & Hrun & Hd & Hwf' & Hblocks); [lia|lia|].
  destruct (display_blocks_events global global_2 first n 0 s1 s' evs Hwf1
              ltac:(lia) ltac:(lia) Hrun)
    as (Hev & (Ha & _ & Hm & Hbank & Ht & Hn) & Hst).
  rewrite display_blocks_app, Hrun.
  rewrite display_blocks_behind; [|lia|].
  2:{ unfold display_untouched. rewrite Hd. exact Hun. }
  assert (Hevs : evs = map (fun b => handleStripDisplay (row_global bytes (8 * (b / 8)))
                                       (b mod 8) (b / 8))
                         (List.filter (block_changed bytes s) (seqZ first (16 - first)))).
  { rewrite Hev.
    replace (first + 0) with first by lia.
    replace (Z.of_nat n) with (16 - first) by lia.
    apply map_ext_in. intros b Hblock.
    apply List.filter_In in Hblock as [Hblock _].
    apply list_elem_of_In, elem_of_seqZ in Hblock.
    unfold block_event. f_equal.
    assert (Hrow : b / 8 = 0 \/ b / 8 = 1) by dlia.
    destruct Hrow as [-> | ->]; reflexivity. }
  assert (Hcaches : forall b, 0 <= b < 16 ->
            strip_cache s' (b mod 8) (b / 8)
            = if first <=? b
              then block_bytes bytes (b / 8) (b mod 8)
              else strip_cache s (b mod 8) (b / 8)).
  { intros b Hb. specialize (Hblocks b Hb).
    replace ((first + 0 <=? b) && (b <? first + 0 + Z.of_nat n))
      with (first <=? b) in Hblocks.
    2:{ destruct (Z.leb_spec first b), (Z.leb_spec (first + 0) b),
          (Z.ltb_spec b (first + 0 + Z.of_nat n)); try reflexivity; lia. }
    destruct (first <=? b); apply Hblocks. }
  assert (Hlit : ring_lit (strip_at s' 0) = ring_lit (strip_at s 0)).
  { destruct (Hst 0) as (Hv & _). unfold ring_lit. rewrite Hv. reflexivity. }
  rewrite Hlit.
  destruct (ring_lit (strip_at s 0)) eqn:Hring.
  - exists (update_strip 0 (set_vpot_ring VPotMode.Off false) s').
    split; [rewrite Hevs; reflexivity|]. split; [exact Hd|].
    split.
    { intros b Hb. rewrite strip_cache_update_strip by reflexivity.
      apply Hcaches, Hb. }
    assert (H0 : strip_at (update_strip 0 (set_vpot_ring VPotMode.Off false) s') 0
                 = set_vpot_ring VPotMode.Off false (strip_at s' 0)).
    { apply strip_at_update_eq. destruct Hwf' as (_ & -> & _). lia. }
    destruct (Hst 0) as (Hv & Hf & Hb & Hmt).
    rewrite H0. unfold set_vpot_ring at 1 2 3 4.
    cbn [vpot fader button meter with_vpot]. rewrite Hv.
    split; [reflexivity|]. split; [exact Hf|]. split; [exact Hb|].
    split; [exact Hmt|]. split.
    { intros j Hj. rewrite strip_at_update_ne by lia. apply Hst. }
    repeat split; assumption.
  - exists s'. split; [rewrite Hevs; reflexivity|]. split; [exact Hd|].
    split; [exact Hcaches|].
    destruct (Hst 0) as (Hv & Hf & Hb & Hmt).
    split; [rewrite Hv; apply ring_lit_false, Hring|].
    split; [exact Hf|]. split; [exact Hb|]. split; [exact Hmt|].
    split; [intros j _; apply Hst|].
    repeat split; assumption.
Qed.

(** The second frame of Ableton while the ring of strip 0 shows a pan at
    its centre, with the centre dot. *)
Lemma display_frame_last_byte_witness :
  let s := fst (dispatchPacket (ControlChange 0 48 0x56) 0 reset) in
  let bytes := display_after ableton_second_row (display_strip (_display s)) in
  let first := sysex_start ableton_second_row / 7 in
  exists s',
    dispatchSystemExclusive ableton_second_row true s
    = Some (s', map (fun b => handleStripDisplay (row_global bytes (8 * (b / 8)))
                                 (b mod 8) (b / 8))
                  (List.filter (block_changed bytes s) (seqZ first (16 - first)))
                ++ (if ring_lit (strip_at s 0)
                    then [handleStripDisplay true 0 2] else [])) /\
    _display s' = with_display_strip bytes (_display s) /\
    (forall b, 0 <= b < 16 ->
       strip_cache s' (b mod 8) (b / 8)
       = if first <=? b
         then block_bytes bytes (b / 8) (b mod 8)
         else strip_cache s (b mod 8) (b / 8)) /\
    vpot (strip_at s' 0) = vpot (set_vpot_ring VPotMode.Off false (strip_at s 0)) /\
    fader (strip_at s' 0) = fader (strip_at s 0) /\
    button (strip_at s' 0) = button (strip_at s 0) /\
    meter (strip_at s' 0) = meter (strip_at s 0) /\
    (forall j, 1 <= j -> same_controls (strip_at s j) (strip_at s' j)) /\
    _active_usec s' = _active_usec s /\ _main_fader s' = _main_fader s /\
    _bank s' = _bank s /\ _transport s' = _transport s /\
    _navigation s' = _navigation s.
Proof.
  apply (display_frame_last_byte ableton_second_row true
           (fst (dispatchPacket (ControlChange 0 48 0x56) 0 reset))).
  - split.
    + unfold ableton_second_row. cbn [replicate app]. repeat constructor; lia.
    + apply Z.leb_le. reflexivity.
  - apply dispatchPacket_wf. exact wf_state_reset.
  - split; reflexivity.
  - unfold display_frame. split; [apply Z.leb_le; reflexivity|].
    split; [reflexivity|]. split; [left; reflexivity|].
    split; [reflexivity|]. apply Z.leb_le. reflexivity.
  - reflexivity.
Defined.

(** ** The time display *)









(** A packet keeps the SMPTE type and reports it. *)
Lemma dispatchPacket_time_type packet now s :
  time_type (_display s) = TimeType.SMPTE ->
  time_type (_display (fst (dispatchPacket packet now s))) = TimeType.SMPTE /\
  Forall time_event_smpte (snd (dispatchPacket packet now s)).
Proof.
  intros Htype.
  destruct packet; cbn [dispatchPacket];
    unfold dispatchNote, dispatchControlChange, dispatchAftertouchChannel,
      dispatchPitchBend;
    repeat match goal with
           | |- context [if ?b then _ else _] => destruct b
           | |- context [let '(_, _) := ?p in _] => destruct p
           end;
    cbn [fst snd app]; (split; [first [exact Htype|reflexivity]|]);
    repeat constructor; exact Htype.
Qed.

(** The meter loop keeps the display members and raises no
    [handleTime]. *)
Lemma loop_meters_time_type n i now s :
  _display (fst (loop_meters n i now s)) = _display s /\
  Forall time_event_smpte (snd (loop_meters n i now s)).
Proof.
  revert i s. induction n as [|n IH]; intros i s; cbn [loop_meters].
  - split; [reflexivity|constructor].
  - destruct (fle _ _); [apply IH|].
    destruct (_ <? _); [apply IH|].
    specialize (IH (i + 1) (update_strip i (with_meter zero_meter) s)).
    destruct (loop_meters n (i + 1) now (update_strip i (with_meter zero_meter) s))
      as [s2 evs]. cbn [fst snd] in *. destruct IH as [Hd Hev].
    split; [exact Hd|]. constructor; [exact I|exact Hev].
Qed.

(** A tick keeps the display members and raises no [handleTime]. *)
Lemma loop_time_type now_active now_meter s :
  _display (fst (loop now_active now_meter s)) = _display s /\
  Forall time_event_smpte (snd (loop now_active now_meter s)).
Proof.
  unfold loop. destruct (_ && _).
  - pose proof (loop_meters_time_type 8 0 now_meter (with_active_usec 0 s)) as [Hd Hev].
    destruct (loop_meters 8 0 now_meter (with_active_usec 0 s)) as [s2 evs2].
    cbn [fst snd] in *. split; [exact Hd|]. constructor; [exact I|exact Hev].
  - pose proof (loop_meters_time_type 8 0 now_meter s) as [Hd Hev].
    destruct (loop_meters 8 0 now_meter s) as [s2 evs2].
    cbn [fst snd app] in *. split; assumption.
Qed.

(** The block loop keeps the time type and raises no [handleTime]. *)
Lemma display_blocks_time_type global global_2 first n i s s' evs :
  display_blocks global global_2 first n i s = Some (s', evs) ->
  time_type (_display s') = time_type (_display s) /\
  Forall time_event_smpte evs.
Proof.
  revert i s s' evs. induction n as [|n IH]; intros i s s' evs; cbn [display_blocks].
  - intros [= <- <-]. split; [reflexivity|constructor].
  - destruct (2 <=? _).
    + destruct (_ && _); [|discriminate].
      destruct (bool_decide _); [apply IH|].
      destruct (ring_of_bytes _) as [[mode center]|]; [|discriminate].
      destruct (display_blocks global global_2 first n (i + 1) _)
        as [[s2 evs2]|] eqn:Hrec; [|discriminate].
      intros [= <- <-]. destruct (IH _ _ _ _ Hrec) as [Hd Hev].
      split; [exact Hd|]. constructor; [exact I|exact Hev].
    + destruct (bool_decide _); [apply IH|].
      destruct (display_blocks global global_2 first n (i + 1) _)
        as [[s2 evs2]|] eqn:Hrec; [|discriminate].
      intros [= <- <-]. destruct (IH _ _ _ _ Hrec) as [Hd Hev].
      split; [exact Hd|]. constructor; [exact I|exact Hev].
Qed.

(** A frame keeps the time type and raises no [handleTime]. *)
Lemma dispatchSystemExclusive_time_type buffer global_2 s s' evs :
  dispatchSystemExclusive buffer global_2 s = Some (s', evs) ->
  time_type (_display s') = time_type (_display s) /\
  Forall time_event_smpte evs.
Proof.
  unfold dispatchSystemExclusive.
  repeat match goal with
         | |- context [if ?b then _ else _] => destruct b
         end;
    try (intros [= <- <-]; split; [reflexivity|constructor]).
  intros Hrun. apply display_blocks_time_type in Hrun. exact Hrun.
Qed.

(** A run from a state of the SMPTE type keeps it and reports no other. *)
Lemma run_time_type inputs s s' evs :
  time_type (_display s) = TimeType.SMPTE ->
  run inputs s = Some (s', evs) ->
  time_type (_display s') = TimeType.SMPTE /\
  Forall time_event_smpte evs.
Proof.
  revert s s' evs.
  induction inputs as [|i rest IH]; intros s s' evs Htype; cbn [run].
  - intros [= <- <-]. split; [exact Htype|constructor].
  - destruct (step i s) as [[s1 evs1]|] eqn:Hstep; [|discriminate].
    destruct (run rest s1) as [[s2 evs2]|] eqn:Hrun; [|discriminate].
    intros [= <- <-].
    assert (Hstep1 : time_type (_display s1) = TimeType.SMPTE /\
                     Forall time_event_smpte evs1).
    { destruct i as [packet now|buffer global_2|now now_meter]; cbn [step] in Hstep.
      - injection Hstep as Hstep.
        pose proof (dispatchPacket_time_type packet now s Htype) as H.
        rewrite Hstep in H. exact H.
      - apply dispatchSystemExclusive_time_type in Hstep as [Hd Hev].
        split; [congruence|exact Hev].
      - injection Hstep as Hstep.
        pose proof (loop_time_type now now_meter s) as H.
        rewrite Hstep in H. cbn [fst snd] in H. destruct H as [Hd Hev].
        split; [rewrite Hd; exact Htype|exact Hev]. }
    destruct Hstep1 as [Htype1 Hev1].
    destruct (IH s1 s2 evs2 Htype1 Hrun) as [Hfinal Hev2].
    split; [exact Hfinal|]. apply Forall_app. split; assumption.
Qed.

(** X23: the time type never leaves SMPTE: every run of calls from
    [reset] returns, [getTime] reports the SMPTE type in the state it
    reaches, and every [handleTime] raised on the way carries it. No
    input selects the Beats type. *)
Theorem time_type_always_smpte (inputs : list Input) :
  Forall input_ok inputs ->
  exists s' evs,
    run inputs reset = Some (s', evs) /\
    fst (getTime s') = TimeType.SMPTE /\
    Forall time_event_smpte evs.
Proof.
  intros Hok.
  destruct (run_returns inputs reset Hok wf_state_reset display_untouched_reset)
    as (s' & evs & Hrun & _ & _).
  exists s', evs. split; [exact Hrun|].
  apply (run_time_type inputs reset s' evs); [reflexivity|exact Hrun].
Qed.

(** The note of the SMPTE/Beats switch, a digit, and the second frame of
    Ableton. *)
Lemma time_type_always_smpte_witness :
  exists s' evs,
    run [Dispatch (NoteOn 0 Mackie.Display.Time.SMPTEBeats 127) 0;
         Dispatch (ControlChange 0 64 0x31) 0;
         SystemExclusive ableton_second_row false] reset = Some (s', evs) /\
    fst (getTime s') = TimeType.SMPTE /\
    Forall time_event_smpte evs.
Proof.
  apply (time_type_always_smpte
           [Dispatch (NoteOn 0 Mackie.Display.Time.SMPTEBeats 127) 0;
            Dispatch (ControlChange 0 64 0x31) 0;
            SystemExclusive ableton_second_row false]).
  constructor; [exact I|]. constructor; [exact I|]. constructor; [|constructor].
  split.
  - unfold ableton_second_row. cbn [replicate app]. repeat constructor; lia.
  - apply Z.leb_le. reflexivity.
Defined.

(** ** Scenarios *)

(** A press and a release of the Select button of strip 3. *)
Example select_press_release :
  let pressed := dispatchPacket (NoteOn 0 (Mackie.ChannelStrip.Button.Select + 3) 127) 0 reset in
  let released := dispatchPacket (NoteOff 0 (Mackie.ChannelStrip.Button.Select + 3)) 0 (fst pressed) in
  button_select (button (strip_at (fst pressed) 3)) = true /\
  snd pressed = [handleStripButton 3 StripButton.Select true] /\
  button_select (button (strip_at (fst released) 3)) = false /\
  snd released = [handleStripButton 3 StripButton.Select false].
Proof. repeat split. Qed.

(** The encoders of the strip buttons address the strip they name. *)
Example setStripButton_dispatch (button : StripButton.t) (on : bool) :
  snd (dispatchPacket (setStripButton 5 button on) 0 reset)
  = [handleStripButton 5 button on].
Proof. destruct button, on; reflexivity. Qed.

(** The first frame after a reset, "MASTER " at offset 0: the loop also
    visits block 1, whose cache still holds the zero bytes of the reset
    while the display holds spaces, so two notifications are raised. *)
Example first_frame_after_reset :
  option_map snd
    (dispatchSystemExclusive
       [0xf0; 0x00; 0x00; 0x66; 0x14; 0x12; 0; 77; 65; 83; 84; 69; 82; 32; 0xf7]
       false reset)
  = Some [handleStripDisplay false 0 0; handleStripDisplay false 1 0] /\
  option_map (fun r => getStripDisplay (fst r) 0 0)
    (dispatchSystemExclusive
       [0xf0; 0x00; 0x00; 0x66; 0x14; 0x12; 0; 77; 65; 83; 84; 69; 82; 32; 0xf7]
       false reset)
  = Some [77; 65; 83; 84; 69; 82; 0; 0].
Proof. split; reflexivity. Qed.

(** The second frame of Ableton, whose text ends at the last byte of the
    display, while the ring of strip 0 shows a bar: the frame raises the
    notifications of the 8 strips of the second row, then one that names
    row 2, and the ring mode of strip 0 is cleared. *)
Example last_frame_clears_ring :
  let s := fst (dispatchPacket (ControlChange 0 48 0x26) 0 reset) in
  vpot_mode (vpot (strip_at s 0)) = VPotMode.Bar /\
  option_map snd (dispatchSystemExclusive ableton_second_row true s)
  = Some [handleStripDisplay false 0 1; handleStripDisplay false 1 1;
          handleStripDisplay false 2 1; handleStripDisplay false 3 1;
          handleStripDisplay false 4 1; handleStripDisplay false 5 1;
          handleStripDisplay false 6 1; handleStripDisplay false 7 1;
          handleStripDisplay true 0 2] /\
  option_map (fun r => vpot_mode (vpot (strip_at (fst r) 0)))
    (dispatchSystemExclusive ableton_second_row true s)
  = Some VPotMode.Off.
Proof. repeat split. Qed.

(** The meter of strip 2 at level 6 of 12 decays a second after its last
    update, and not before. *)
Example meter_decay :
  let s := fst (dispatchPacket (AftertouchChannel 0 0x26) 5000 reset) in
  snd (loop 0 (fun _ => 1004999) s) = [] /\
  snd (loop 0 (fun _ => 1005000) s) = [handleStripMeter 2 fzero false] /\
  meter_fraction (meter (strip_at (fst (loop 0 (fun _ => 1005000) s)) 2)) = fzero.
Proof. repeat split. Qed.

(** The digits "120" written right to left into the frames field. *)
Example time_digits_frames :
  let s1 := fst (dispatchPacket (ControlChange 0 64 0x30) 0 reset) in
  let s2 := fst (dispatchPacket (ControlChange 0 65 0x32) 0 s1) in
  let s3 := fst (dispatchPacket (ControlChange 0 66 0x31) 0 s2) in
  getTime s3 = (TimeType.SMPTE, (0, 0, 0, 120)).
Proof. reflexivity. Qed.
